(** * The Nachos MP4 file system: file headers, path lookup and the facade

    A shallow embedding of [code/filesys/filehdr.{h,cc}] and
    [code/filesys/filesys.{h,cc}].  Integers of the program are [Z], a disk
    sector is a list of bytes, the disk is the list of its sectors, and a
    failed [ASSERT] is the outcome [Abort]. *)

From stdpp Require Import base list strings.
From Stdlib Require Import ZArith Lia Ascii.
Local Open Scope Z_scope.

#[local] Set Warnings "-register-all".

(** ** Outcomes of a call

    [Ret] is a normal return.  [Abort] is the end of the process: a failed
    [ASSERT], [ASSERTNOTREACHED], a sector number the disk refuses, or an
    access past the end of a fixed array after which the call cannot go
    on (the read past [dataSectors] in [FetchFrom], after which it does,
    is given what a [Memory] holds).  [Diverge] is a recursion that ran
    out of the fuel it was given. *)

Inductive outcome (A : Type) : Type :=
| Ret (a : A)
| Abort
| Diverge.
Arguments Ret {A} a.
Arguments Abort {A}.
Arguments Diverge {A}.

#[global] Instance outcome_ret : MRet outcome := fun A a => Ret a.
#[global] Instance outcome_bind : MBind outcome := fun A B f m =>
  match m with
  | Ret a => f a
  | Abort => Abort
  | Diverge => Diverge
  end.

Definition ASSERT (b : bool) : outcome unit := if b then Ret tt else Abort.

Definition returns {A} (o : outcome A) : Prop := exists a, o = Ret a.

(** ** Machine constants *)

(** Modelled from the spec: [disk.h] is not among the sources; the sector
    size is the teaching baseline of 128 bytes, which the comments of
    [filehdr.h] (3840 bytes = 30 sectors) agree with. *)
Definition SectorSize : Z := 128.
Definition sizeof_int : Z := 4.

Definition INVALID_SECTOR : Z := -1.
Definition LEVEL_LIMIT : nat := 4.
Definition NUM_DIRECT : Z := (SectorSize - 2 * sizeof_int) / sizeof_int.
Definition MAX_SIZE_L0 : Z := NUM_DIRECT * SectorSize.
Definition MAX_SIZE_L1 : Z := NUM_DIRECT * NUM_DIRECT * SectorSize.
Definition MAX_SIZE_L2 : Z := NUM_DIRECT * NUM_DIRECT * NUM_DIRECT * SectorSize.
Definition MAX_SIZE_L3 : Z :=
  NUM_DIRECT * NUM_DIRECT * NUM_DIRECT * NUM_DIRECT * SectorSize.
Definition MAX_SIZE (i : nat) : Z :=
  nth i [MAX_SIZE_L0; MAX_SIZE_L1; MAX_SIZE_L2; MAX_SIZE_L3] 0.

(** Modelled from the spec: the macro [divRoundUp] of [utility.h] is not
    among the sources; it is the ceiling of the quotient, written with the
    truncating division of C. *)
Definition divRoundUp (n s : Z) : Z :=
  Z.quot n s + (if 0 <? Z.rem n s then 1 else 0).

(** ** FileHeader::whichLv *)

Fixpoint whichLv_loop (k i : nat) (fileSize : Z) : outcome nat :=
  match k with
  | O => Abort
  | S k' =>
      if fileSize <=? MAX_SIZE i then Ret i
      else whichLv_loop k' (S i) fileSize
  end.

Definition whichLv (fileSize : Z) : outcome nat :=
  whichLv_loop LEVEL_LIMIT 0 fileSize.

(** ** The free-sector bitmap *)

Module Bitmap.

(** Modelled from the spec: [bitmap.cc] and [pbitmap.cc] are not among the
    sources.  The map is a bit vector with one bit per sector, [true] for
    an allocated sector; [FindAndSet] takes the smallest clear bit and
    answers [-1] when there is none; [Mark] and [Clear] are unconditional;
    a bit outside the vector reads as clear and cannot be written. *)
Abbreviation t := (list bool).

Definition Test (which : Z) (m : t) : bool :=
  if which <? 0 then false else default false (m !! Z.to_nat which).

Definition Mark (which : Z) (m : t) : t :=
  if which <? 0 then m else <[Z.to_nat which := true]> m.

Definition Clear (which : Z) (m : t) : t :=
  if which <? 0 then m else <[Z.to_nat which := false]> m.

Fixpoint NumClear (m : t) : Z :=
  match m with
  | [] => 0
  | b :: m' => (if b then 0 else 1) + NumClear m'
  end.

Fixpoint find_clear (m : t) (i : Z) : Z :=
  match m with
  | [] => -1
  | b :: m' => if b then find_clear m' (i + 1) else i
  end.

Definition FindAndSet (m : t) : Z * t :=
  let i := find_clear m 0 in
  if i <? 0 then (-1, m) else (i, Mark i m).

End Bitmap.

(** ** File headers in memory *)

Inductive FileHeader : Type := {
  numBytes : Z;
  numDataSectors : Z;
  dataSectors : list Z;
  dataSectorMapping : list Z;
  children : list FileHeader
}.

(** The header the constructor leaves behind. *)
Definition fresh_header : FileHeader :=
  {| numBytes := -1;
     numDataSectors := -1;
     dataSectors := replicate (Z.to_nat NUM_DIRECT) INVALID_SECTOR;
     dataSectorMapping := [];
     children := [] |}.

Definition list_Z_eqb (a b : list Z) : bool := bool_decide (a = b).

(** What a callee does to the vector [pSectors] of its caller at the end of
    [Allocate] and [FetchFrom]: the two vectors are compared by value. *)
Definition merge_into (pSectors mine : list Z) : list Z :=
  if list_Z_eqb mine pSectors then pSectors else pSectors ++ mine.

(** *** FileHeader::Allocate *)

(** The loop of a direct header: [n] sectors are still to be taken. *)
Fixpoint alloc_direct (n : nat) (i : nat) (freeMap : Bitmap.t)
    (secs mapping : list Z) : outcome (Bitmap.t * list Z * list Z) :=
  match n with
  | O => Ret (freeMap, secs, mapping)
  | S n' =>
      _ ← ASSERT (bool_decide (i < length secs)%nat);
      let '(s, freeMap') := Bitmap.FindAndSet freeMap in
      _ ← ASSERT (0 <=? s);
      alloc_direct n' (S i) freeMap' (<[i := s]> secs) (mapping ++ [s])
  end.

(** The [while (fileSize > 0)] loop of an indirect header; [slots] is what
    is left of the array [dataSectors], [alloc] the recursive call. *)
Fixpoint alloc_children
    (alloc : Bitmap.t -> Z -> outcome (bool * FileHeader * Bitmap.t))
    (slots : nat) (i : nat) (chunk : Z) (freeMap : Bitmap.t) (fileSize : Z)
    (secs mapping : list Z) (kids : list FileHeader)
    : outcome (Bitmap.t * list Z * list Z * list FileHeader) :=
  if fileSize <=? 0 then Ret (freeMap, secs, mapping, kids)
  else
    match slots with
    | O => Abort
    | S slots' =>
        let '(s, freeMap1) := Bitmap.FindAndSet freeMap in
        _ ← ASSERT (0 <=? s);
        let subHdrSize := Z.min fileSize chunk in
        '(ok, kid, freeMap2) ← alloc freeMap1 subHdrSize;
        let mapping' :=
          if ok : bool then merge_into mapping (dataSectorMapping kid)
          else mapping in
        alloc_children alloc slots' (S i) chunk freeMap2
          (fileSize - subHdrSize) (<[i := s]> secs) mapping' (kids ++ [kid])
    end.

(** One header: the body of [Allocate(freeMap, fileSize, pSectors)] up to,
    and without, the final merge into [pSectors]. *)
Fixpoint Allocate_node (fuel : nat) (freeMap : Bitmap.t) (fileSize : Z)
    : outcome (bool * FileHeader * Bitmap.t) :=
  match fuel with
  | O => Diverge
  | S fuel' =>
      let nds := divRoundUp fileSize SectorSize in
      let early :=
        {| numBytes := fileSize; numDataSectors := nds;
           dataSectors := dataSectors fresh_header;
           dataSectorMapping := []; children := [] |} in
      if Bitmap.NumClear freeMap <? nds then Ret (false, early, freeMap)
      else
        lv ← whichLv fileSize;
        match lv with
        | O =>
            '(freeMap', secs, mapping) ←
              alloc_direct (Z.to_nat nds) 0 freeMap (dataSectors fresh_header) [];
            Ret (true,
                 {| numBytes := fileSize; numDataSectors := nds;
                    dataSectors := secs; dataSectorMapping := mapping;
                    children := [] |},
                 freeMap')
        | S lv' =>
            '(freeMap', secs, mapping, kids) ←
              alloc_children (Allocate_node fuel') (Z.to_nat NUM_DIRECT) 0
                (MAX_SIZE lv') freeMap fileSize (dataSectors fresh_header) [] [];
            Ret (true,
                 {| numBytes := fileSize; numDataSectors := nds;
                    dataSectors := secs; dataSectorMapping := mapping;
                    children := kids |},
                 freeMap')
        end
  end.

(** [Allocate(freeMap, fileSize)] on a header fresh from the constructor:
    [pSectors] is the header's own vector, so the final merge does nothing.
    A file has at most [LEVEL_LIMIT] levels, which is all the fuel needed. *)
Definition Allocate (freeMap : Bitmap.t) (fileSize : Z)
    : outcome (bool * FileHeader * Bitmap.t) :=
  Allocate_node LEVEL_LIMIT freeMap fileSize.

(** *** FileHeader::ByteToSector, FileHeader::FileLength *)

Definition ByteToSector (hdr : FileHeader) (offset : Z) : outcome Z :=
  let logicalSector := Z.quot offset SectorSize in
  let sectorsSz := Z.of_nat (length (dataSectorMapping hdr)) in
  _ ← ASSERT ((0 <=? logicalSector) && (logicalSector <? sectorsSz)
              && (sectorsSz =? numDataSectors hdr));
  Ret (default 0 (dataSectorMapping hdr !! Z.to_nat logicalSector)).

Definition FileLength (hdr : FileHeader) : Z := numBytes hdr.

(** *** FileHeader::Deallocate *)

(** The loop of a direct header: [n] sectors are still to be given back.
    A count past the end of [dataSectors] makes the loop test the bit of a
    word that is no sector number (in a header that was fetched it is the
    pointer of the vector), and the assertion ends the call. *)
Fixpoint dealloc_direct (n : nat) (i : nat) (secs : list Z) (freeMap : Bitmap.t)
    : outcome Bitmap.t :=
  match n with
  | O => Ret freeMap
  | S n' =>
      match secs !! i with
      | None => Abort
      | Some s =>
          _ ← ASSERT (Bitmap.Test s freeMap);
          dealloc_direct n' (S i) secs (Bitmap.Clear s freeMap)
      end
  end.

(** The loop over the children of an indirect header; [dealloc] is the
    recursive call. *)
Fixpoint dealloc_children
    (dealloc : FileHeader -> Bitmap.t -> outcome Bitmap.t)
    (secs : list Z) (kids : list FileHeader) (freeMap : Bitmap.t)
    {struct kids} : outcome Bitmap.t :=
  match secs with
  | [] => Ret freeMap
  | s :: secs' =>
      if s =? INVALID_SECTOR then Ret freeMap
      else
        match kids with
        | [] => Abort
        | kid :: kids' =>
            freeMap' ← dealloc kid freeMap;
            dealloc_children dealloc secs' kids' freeMap'
        end
  end.

Fixpoint Deallocate (hdr : FileHeader) (freeMap : Bitmap.t) {struct hdr}
    : outcome Bitmap.t :=
  lv ← whichLv (numBytes hdr);
  match lv with
  | O =>
      dealloc_direct (Z.to_nat (numDataSectors hdr)) 0 (dataSectors hdr) freeMap
  | S _ =>
      dealloc_children Deallocate (dataSectors hdr) (children hdr) freeMap
  end.

(** ** The disk *)

Abbreviation Sector := (list Z).

(** Which class issued a [WriteSector]: [FileHeader::WriteBack], or the
    [WriteBack] of a directory or of the bitmap through its open file. *)
Inductive Writer : Type := ByFileHeader | ByDirectory | ByBitmap.

#[global] Instance Writer_eq_dec : EqDecision Writer.
Proof. solve_decision. Defined.

(** Modelled from the spec: [synchdisk.cc] and [disk.cc] are not among the
    sources.  The disk is the array of its sectors, read and written whole,
    with indices in [0, NumSectors); [writes] is the history of the sectors
    written so far, oldest first. *)
Record SynchDisk : Type := {
  image : list Sector;
  writes : list (Writer * Z)
}.

#[global] Instance SynchDisk_eq_dec : EqDecision SynchDisk.
Proof. solve_decision. Defined.

Definition NumSectors (d : SynchDisk) : Z := Z.of_nat (length (image d)).

Definition sector_bytes (s : Sector) : Sector :=
  take (Z.to_nat SectorSize) (s ++ replicate (Z.to_nat SectorSize) 0).

Definition ReadSector (d : SynchDisk) (sector : Z) : outcome Sector :=
  _ ← ASSERT ((0 <=? sector) && (sector <? NumSectors d));
  Ret (sector_bytes (default [] (image d !! Z.to_nat sector))).

Definition WriteSector (who : Writer) (sector : Z) (data : Sector)
    (d : SynchDisk) : outcome SynchDisk :=
  _ ← ASSERT ((0 <=? sector) && (sector <? NumSectors d));
  Ret {| image := <[Z.to_nat sector := sector_bytes data]> (image d);
         writes := writes d ++ [(who, sector)] |}.

(** *** Integers in a sector: four bytes, least significant first *)

Definition int_bytes (z : Z) : list Z :=
  [z mod 256; (z / 256) mod 256; (z / 65536) mod 256; (z / 16777216) mod 256].

Definition byte_at (bs : list Z) (i : nat) : Z := default 0 (bs !! i) mod 256.

Definition int_at (bs : list Z) (off : nat) : Z :=
  let u := byte_at bs off + 256 * byte_at bs (off + 1)
           + 65536 * byte_at bs (off + 2) + 16777216 * byte_at bs (off + 3) in
  if u <? 2147483648 then u else u - 4294967296.

(** *** FileHeader::FetchFrom *)

(** [FetchFrom] copies [NUM_DIRECT] words of the sector into [dataSectors]
    and, in a direct header, reads as many entries of the array as
    [numDataSectors] says, without a look at its bound.  What the program
    finds at an index past the end is not in the sources: it is the memory
    that follows the array in the header object, the vector and the
    pointers to the children.  [word_behind sector i] stands for the word
    read as [dataSectors[i]], for [i] from [NUM_DIRECT] on, in the header
    filled from [sector].  Nothing is assumed of it: what is proved of a
    definition that takes a [Memory] holds whatever those words are. *)
Class Memory : Type := { word_behind : Z -> nat -> Z }.

(** A memory to run examples in: all those words are zero. *)
#[global] Instance zeroed : Memory := {| word_behind := fun _ _ => 0 |}.

(** The loop of a direct header: [n] entries are still to be read, [i]
    being the next index. *)
Fixpoint fetch_direct {mem : Memory} (sector : Z) (n : nat) (i : nat)
    (secs mapping : list Z) : outcome (list Z) :=
  match n with
  | O => Ret mapping
  | S n' =>
      let s :=
        match secs !! i with
        | Some s => s
        | None => word_behind sector i
        end in
      fetch_direct sector n' (S i) secs (mapping ++ [s])
  end.

Fixpoint fetch_children (fetch : Z -> outcome FileHeader) (secs : list Z)
    (mapping : list Z) (kids : list FileHeader)
    : outcome (list Z * list FileHeader) :=
  match secs with
  | [] => Ret (mapping, kids)
  | s :: secs' =>
      if s =? INVALID_SECTOR then Ret (mapping, kids)
      else
        kid ← fetch s;
        fetch_children fetch secs'
          (merge_into mapping (dataSectorMapping kid)) (kids ++ [kid])
  end.

(** One header: the body of [FetchFrom(sector, pSectors)] without the final
    merge into [pSectors], which [fetch_children] does for its callee. *)
Fixpoint FetchFrom_node {mem : Memory} (fuel : nat) (d : SynchDisk) (sector : Z)
    : outcome FileHeader :=
  match fuel with
  | O => Diverge
  | S fuel' =>
      buf ← ReadSector d sector;
      let nb := int_at buf 0 in
      let nds := int_at buf 4 in
      let secs :=
        map (fun i => int_at buf (8 + 4 * i)) (seq 0 (Z.to_nat NUM_DIRECT)) in
      lv ← whichLv nb;
      match lv with
      | O =>
          mapping ← fetch_direct sector (Z.to_nat nds) 0 secs [];
          Ret {| numBytes := nb; numDataSectors := nds; dataSectors := secs;
                 dataSectorMapping := mapping; children := [] |}
      | S _ =>
          '(mapping, kids) ← fetch_children (FetchFrom_node fuel' d) secs [] [];
          Ret {| numBytes := nb; numDataSectors := nds; dataSectors := secs;
                 dataSectorMapping := mapping; children := kids |}
      end
  end.

(** [FetchFrom(sector)] on a header fresh from the constructor, whose vector
    is empty as the assertion asks. *)
Definition FetchFrom {mem : Memory} (fuel : nat) (d : SynchDisk) (sector : Z)
    : outcome FileHeader :=
  FetchFrom_node fuel d sector.

(** *** FileHeader::WriteBack *)

Definition header_bytes (hdr : FileHeader) : Sector :=
  int_bytes (numBytes hdr) ++ int_bytes (numDataSectors hdr)
  ++ concat (map int_bytes (dataSectors hdr)).

(** The loop over the children of an indirect header; [write] is the
    recursive call. *)
Fixpoint write_children
    (write : FileHeader -> Z -> SynchDisk -> outcome SynchDisk)
    (secs : list Z) (kids : list FileHeader) (d : SynchDisk)
    {struct kids} : outcome SynchDisk :=
  match secs with
  | [] => Ret d
  | s :: secs' =>
      if s =? INVALID_SECTOR then Ret d
      else
        match kids with
        | [] => Abort
        | kid :: kids' =>
            d' ← write kid s d;
            write_children write secs' kids' d'
        end
  end.

Fixpoint WriteBack (hdr : FileHeader) (sector : Z) (d : SynchDisk) {struct hdr}
    : outcome SynchDisk :=
  d1 ← WriteSector ByFileHeader sector (header_bytes hdr) d;
  lv ← whichLv (numBytes hdr);
  match lv with
  | O => Ret d1
  | S _ => write_children WriteBack (dataSectors hdr) (children hdr) d1
  end.

(** ** Open files *)

Record OpenFile : Type := {
  hdr : FileHeader;
  seekPosition : Z
}.

Module OpenFile.

(** Modelled from the spec: [openfile.cc] is not among the sources.  An
    open file owns the header fetched from its sector and starts at
    position zero.  [ReadAt] and [WriteAt] are given for position 0, the
    only one the file system uses for its own files: they move whole
    sectors found through [ByteToSector], stop at the length of the file,
    and a sector written in part keeps the rest of its bytes. *)
Definition new {mem : Memory}
    (fuel : nat) (d : SynchDisk) (sector : Z) : outcome OpenFile :=
  h ← FetchFrom fuel d sector;
  Ret {| hdr := h; seekPosition := 0 |}.

Definition clip (file : OpenFile) (numBytes : Z) : Z :=
  if FileLength (hdr file) <? numBytes then FileLength (hdr file) else numBytes.

Fixpoint read_sectors (file : OpenFile) (d : SynchDisk) (n : nat) (i : Z)
    : outcome (list Z) :=
  match n with
  | O => Ret []
  | S n' =>
      s ← ByteToSector (hdr file) (i * SectorSize);
      buf ← ReadSector d s;
      rest ← read_sectors file d n' (i + 1);
      Ret (buf ++ rest)
  end.

Definition ReadAt (file : OpenFile) (numBytes : Z) (d : SynchDisk)
    : outcome (list Z) :=
  if (numBytes <=? 0) || (FileLength (hdr file) <=? 0) then Ret []
  else
    let numBytes := clip file numBytes in
    let numSectors := Z.quot (numBytes - 1) SectorSize + 1 in
    buf ← read_sectors file d (Z.to_nat numSectors) 0;
    Ret (take (Z.to_nat numBytes) buf).

Fixpoint write_sectors (who : Writer) (file : OpenFile) (from : list Z)
    (n : nat) (i : Z) (d : SynchDisk) : outcome SynchDisk :=
  match n with
  | O => Ret d
  | S n' =>
      s ← ByteToSector (hdr file) (i * SectorSize);
      let chunk := take (Z.to_nat SectorSize) from in
      data ←
        (if bool_decide (length chunk < Z.to_nat SectorSize)%nat then
           old ← ReadSector d s;
           Ret (chunk ++ drop (length chunk) old)
         else Ret chunk);
      d' ← WriteSector who s data d;
      write_sectors who file (drop (Z.to_nat SectorSize) from) n' (i + 1) d'
  end.

Definition WriteAt (who : Writer) (file : OpenFile) (from : list Z)
    (d : SynchDisk) : outcome SynchDisk :=
  let numBytes := Z.of_nat (length from) in
  if (numBytes <=? 0) || (FileLength (hdr file) <=? 0) then Ret d
  else
    let numBytes := clip file numBytes in
    let numSectors := Z.quot (numBytes - 1) SectorSize + 1 in
    write_sectors who file (take (Z.to_nat numBytes) from)
      (Z.to_nat numSectors) 0 d.

End OpenFile.

(** ** Directories *)

(** From [directory.h]. *)
Definition NumDirEntries : nat := 64.
Definition FileNameMaxLen : nat := 9.
Definition FILE : bool := false.
Definition DIR : bool := true.

Record DirectoryEntry : Type := {
  isDir : bool;
  inUse : bool;
  sector : Z;
  name : string
}.

(** Modelled from the spec: the size of [DirectoryEntry] is not written in
    the sources; with the natural alignment of its fields (two [bool], an
    [int], ten characters) an entry takes 20 bytes. *)
Definition sizeof_DirectoryEntry : Z := 20.

Definition ascii_byte (c : ascii) : Z := Z.of_N (Ascii.N_of_ascii c).
Definition byte_ascii (b : Z) : ascii := Ascii.ascii_of_N (Z.to_N (b mod 256)).

Fixpoint string_bytes (s : string) : list Z :=
  match s with
  | EmptyString => []
  | String c s' => ascii_byte c :: string_bytes s'
  end.

(** The C string that starts a byte array: what comes before the first NUL. *)
Fixpoint bytes_string (bs : list Z) : string :=
  match bs with
  | [] => EmptyString
  | b :: bs' =>
      if b mod 256 =? 0 then EmptyString
      else String (byte_ascii b) (bytes_string bs')
  end.

Module Directory.

(** Modelled from the spec: [directory.cc] is not among the sources; only
    the declarations of [directory.h] are.  A directory is a table of
    [NumDirEntries] entries kept as the content of a file.  [Find] scans
    for an entry in use with the same name and the same type bit;
    [Add] fills the first entry not in use and fails on a full table;
    [Remove] clears [inUse] of the entry found; [RemoveAll] gives back,
    for every entry in use, the sectors of the file it names (after those
    of the entries below it, when it names a directory) and clears the
    table.  A name is a C string of at most [FileNameMaxLen] bytes. *)
Abbreviation t := (list DirectoryEntry).

Definition empty_entry : DirectoryEntry :=
  {| isDir := false; inUse := false; sector := 0; name := EmptyString |}.

Definition new (size : nat) : t := replicate size empty_entry.

Definition entry_bytes (e : DirectoryEntry) : list Z :=
  [Z.b2z (isDir e); Z.b2z (inUse e); 0; 0] ++ int_bytes (sector e)
  ++ take (S FileNameMaxLen)
       (take FileNameMaxLen (string_bytes (name e))
        ++ replicate (S FileNameMaxLen) 0)
  ++ [0; 0].

Definition bytes_entry (bs : list Z) : DirectoryEntry :=
  {| isDir := negb (byte_at bs 0 =? 0);
     inUse := negb (byte_at bs 1 =? 0);
     sector := int_at bs 4;
     name := bytes_string (take (S FileNameMaxLen) (drop 8 bs)) |}.

Definition table_bytes (table : t) : list Z := concat (map entry_bytes table).

Fixpoint bytes_table (size : nat) (bs : list Z) : t :=
  match size with
  | O => []
  | S size' =>
      bytes_entry (take (Z.to_nat sizeof_DirectoryEntry) bs)
      :: bytes_table size' (drop (Z.to_nat sizeof_DirectoryEntry) bs)
  end.

(** The table becomes the content of the file; entries the file is too
    short to give are not in use. *)
Definition FetchFrom (size : nat) (file : OpenFile) (d : SynchDisk)
    : outcome t :=
  bs ← OpenFile.ReadAt file (Z.of_nat size * sizeof_DirectoryEntry) d;
  Ret (bytes_table size bs).

Definition WriteBack (table : t) (file : OpenFile) (d : SynchDisk)
    : outcome SynchDisk :=
  OpenFile.WriteAt ByDirectory file (table_bytes table) d.

Definition matches (nm : string) (dir : bool) (e : DirectoryEntry) : bool :=
  inUse e && String.eqb (name e) nm && Bool.eqb (isDir e) dir.

Fixpoint FindIndex_from (i : Z) (table : t) (nm : string) (dir : bool) : Z :=
  match table with
  | [] => -1
  | e :: table' =>
      if matches nm dir e then i else FindIndex_from (i + 1) table' nm dir
  end.

Definition FindIndex (table : t) (nm : string) (dir : bool) : Z :=
  FindIndex_from 0 table nm dir.

Definition Find (table : t) (nm : string) (dir : bool) : Z :=
  let i := FindIndex table nm dir in
  if i =? -1 then INVALID_SECTOR
  else sector (default empty_entry (table !! Z.to_nat i)).

Fixpoint Add (table : t) (nm : string) (newSector : Z) (dir : bool)
    : bool * t :=
  match table with
  | [] => (false, [])
  | e :: table' =>
      if inUse e then
        let '(ok, table'') := Add table' nm newSector dir in (ok, e :: table'')
      else
        (true,
         {| isDir := dir; inUse := true; sector := newSector;
            name := bytes_string (take FileNameMaxLen (string_bytes nm)) |}
         :: table')
  end.

Definition release (e : DirectoryEntry) : DirectoryEntry :=
  {| isDir := isDir e; inUse := false; sector := sector e; name := name e |}.

Definition Remove (table : t) (nm : string) (dir : bool) : bool * t :=
  let i := FindIndex table nm dir in
  if i =? -1 then (false, table)
  else
    (true, alter release (Z.to_nat i) table).

(** The loop of [RemoveAll] over the table; [below] is the call on the
    table of a directory found in it. *)
Fixpoint RemoveAll_entries {mem : Memory}
    (below : t -> Bitmap.t -> outcome (bool * t * Bitmap.t))
    (fuel : nat) (d : SynchDisk) (table : t) (freeMap : Bitmap.t)
    : outcome (bool * t * Bitmap.t) :=
  match table with
  | [] => Ret (true, [], freeMap)
  | e :: table' =>
      if inUse e then
        freeMap1 ←
          (if isDir e then
             file ← OpenFile.new fuel d (sector e);
             sub ← FetchFrom NumDirEntries file d;
             '(_, _, freeMap1) ← below sub freeMap;
             Ret freeMap1
           else Ret freeMap);
        fh ← FetchFrom_node fuel d (sector e);
        freeMap2 ← Deallocate fh freeMap1;
        '(ok, rest, freeMap3) ←
          RemoveAll_entries below fuel d table'
            (Bitmap.Clear (sector e) freeMap2);
        Ret (ok, release e :: rest, freeMap3)
      else
        '(ok, rest, freeMap') ← RemoveAll_entries below fuel d table' freeMap;
        Ret (ok, e :: rest, freeMap')
  end.

Fixpoint RemoveAll {mem : Memory} (fuel : nat) (d : SynchDisk) (table : t)
    (freeMap : Bitmap.t) : outcome (bool * t * Bitmap.t) :=
  match fuel with
  | O => Diverge
  | S fuel' =>
      RemoveAll_entries (RemoveAll fuel' d) fuel' d table freeMap
  end.

End Directory.

(** ** The bitmap kept in a file *)

Module PersistentBitmap.

Definition BitsInByte : Z := 8.
Definition BitsInWord : Z := 32.

(** Modelled from the spec: [pbitmap.cc] is not among the sources.  The
    bits are kept in whole words, bit [i] in byte [i / 8] at position
    [i mod 8]; a new map has every bit clear and takes from the file as
    many bytes as the file gives. *)
Definition numBytes_of (numBits : Z) : Z :=
  divRoundUp numBits BitsInWord * sizeof_int.

Definition bits_of_bytes (numBits : nat) (bs : list Z) : Bitmap.t :=
  map (fun i => Z.testbit (byte_at bs (i / 8)) (Z.of_nat (i mod 8)))
    (seq 0 numBits).

Definition byte_of_bits (m : Bitmap.t) (j : nat) : Z :=
  foldr (fun k acc =>
           (if Bitmap.Test (Z.of_nat (8 * j + k)) m then 2 ^ Z.of_nat k else 0)
           + acc)
    0 (seq 0 8).

Definition bytes_of_bits (m : Bitmap.t) : list Z :=
  map (byte_of_bits m)
    (seq 0 (Z.to_nat (numBytes_of (Z.of_nat (length m))))).

Definition new (file : OpenFile) (numItems : Z) (d : SynchDisk)
    : outcome Bitmap.t :=
  bs ← OpenFile.ReadAt file (numBytes_of numItems) d;
  Ret (bits_of_bytes (Z.to_nat numItems) bs).

Definition WriteBack (m : Bitmap.t) (file : OpenFile) (d : SynchDisk)
    : outcome SynchDisk :=
  OpenFile.WriteAt ByBitmap file (bytes_of_bits m) d.

End PersistentBitmap.

(** ** The file system *)

Definition FreeMapSector : Z := 0.
Definition DirectorySector : Z := 1.
Definition PATH_NAME_MAX_LEN : Z := 256.

Definition FreeMapFileSize (d : SynchDisk) : Z :=
  Z.quot (NumSectors d) PersistentBitmap.BitsInByte.
Definition DirectoryFileSize : Z :=
  sizeof_DirectoryEntry * Z.of_nat NumDirEntries.

(** The two files the file system keeps open. *)
Record FileSystem : Type := {
  freeMapFile : OpenFile;
  directoryFile : OpenFile
}.

(** *** FileFinder *)

Record FileFinder : Type := {
  exist : bool;
  pFhSector : Z;
  fhSector : Z;
  filename : string
}.

Definition FileFinder_new : FileFinder :=
  {| exist := false; pFhSector := INVALID_SECTOR; fhSector := INVALID_SECTOR;
     filename := EmptyString |}.

Definition is_NUL (c : ascii) : bool := Ascii.eqb c Ascii.zero.
Definition is_slash (c : ascii) : bool := Ascii.eqb c "/"%char.

(** A [const char *] is given as a [string]; as in C it ends at its first
    NUL character, if it has one. *)
Fixpoint c_str (s : string) : string :=
  match s with
  | EmptyString => EmptyString
  | String c s' => if is_NUL c then EmptyString else String c (c_str s')
  end.

Definition strlen (s : string) : Z := Z.of_nat (String.length (c_str s)).

Definition string_push (token : string) (c : ascii) : string :=
  String.append token (String c EmptyString).

(** The loop of [splitPath]; [i] counts the characters seen. *)
Fixpoint splitPath_loop (str : string) (result : list string) (token : string)
    (i : Z) : list string * string * Z :=
  match str with
  | EmptyString => (result, token, i)
  | String c str' =>
      if is_NUL c then (result, token, i)
      else if is_slash c then
        splitPath_loop str' (result ++ [token]) EmptyString (i + 1)
      else splitPath_loop str' result (string_push token c) (i + 1)
  end.

(** [splitPath(str, exceedPathLenLimit)]: the components and the flag. *)
Definition splitPath (str : string) : list string * bool :=
  let '(result, token, i) := splitPath_loop str [] EmptyString 0 in
  (result ++ [token], PATH_NAME_MAX_LEN <=? i).

Definition set_filename (f : FileFinder) (nm : string) : FileFinder :=
  {| exist := exist f; pFhSector := pFhSector f; fhSector := fhSector f;
     filename := nm |}.
Definition set_exist (f : FileFinder) : FileFinder :=
  {| exist := true; pFhSector := pFhSector f; fhSector := fhSector f;
     filename := filename f |}.
Definition set_pFhSector (f : FileFinder) (s : Z) : FileFinder :=
  {| exist := exist f; pFhSector := s; fhSector := fhSector f;
     filename := filename f |}.
Definition set_fhSector (f : FileFinder) (s : Z) : FileFinder :=
  {| exist := exist f; pFhSector := pFhSector f; fhSector := s;
     filename := filename f |}.

(** The [for] loop of [find] over [path[1..]]; [first] says [i == 1].  The
    table fetched replaces the one of the turn before. *)
Fixpoint find_loop {mem : Memory} (fuel : nat) (d : SynchDisk) (dir : bool)
    (comps : list string) (first : bool) (f : FileFinder)
    (openPfh : OpenFile) : outcome FileFinder :=
  match comps with
  | [] => Ret (set_exist f)
  | c :: rest =>
      pDir ← Directory.FetchFrom NumDirEntries openPfh d;
      let f := set_pFhSector f (if first then DirectorySector else fhSector f) in
      let f :=
        set_fhSector f
          (Directory.Find pDir c (match rest with [] => dir | _ => DIR end)) in
      if fhSector f =? INVALID_SECTOR then Ret f
      else
        openPfh ← OpenFile.new fuel d (fhSector f);
        find_loop fuel d dir rest false f openPfh
  end.

(** [find(name, isDir, root)] on the finder [f]. *)
Definition find {mem : Memory}
    (fuel : nat) (d : SynchDisk) (f : FileFinder) (nm : string)
    (dir : bool) (root : OpenFile) : outcome FileFinder :=
  let '(path, exceedPathLenLimit) := splitPath nm in
  let f := set_filename f (List.last path EmptyString) in
  if exceedPathLenLimit then Ret f
  else if String.eqb (c_str nm) "/" then
    _ ← ASSERT dir;
    Ret (set_fhSector (set_exist f) DirectorySector)
  else
    find_loop fuel d dir (tail path) true f root.

(** *** FileSystem::FileSystem(format = TRUE) *)

Definition format {mem : Memory}
    (fuel : nat) (d : SynchDisk) : outcome (FileSystem * SynchDisk) :=
  let freeMap := replicate (Z.to_nat (NumSectors d)) false in
  let directory := Directory.new NumDirEntries in
  let freeMap := Bitmap.Mark FreeMapSector freeMap in
  let freeMap := Bitmap.Mark DirectorySector freeMap in
  '(ok, mapHdr, freeMap) ← Allocate freeMap (FreeMapFileSize d);
  _ ← ASSERT ok;
  '(ok, dirHdr, freeMap) ← Allocate freeMap DirectoryFileSize;
  _ ← ASSERT ok;
  d ← WriteBack mapHdr FreeMapSector d;
  d ← WriteBack dirHdr DirectorySector d;
  mapFile ← OpenFile.new fuel d FreeMapSector;
  dirFile ← OpenFile.new fuel d DirectorySector;
  d ← PersistentBitmap.WriteBack freeMap mapFile d;
  d ← Directory.WriteBack directory dirFile d;
  Ret ({| freeMapFile := mapFile; directoryFile := dirFile |}, d).

(** [FileSystem(format = FALSE)]: the two files are opened. *)
Definition mount {mem : Memory}
    (fuel : nat) (d : SynchDisk) : outcome FileSystem :=
  mapFile ← OpenFile.new fuel d FreeMapSector;
  dirFile ← OpenFile.new fuel d DirectorySector;
  Ret {| freeMapFile := mapFile; directoryFile := dirFile |}.

(** *** FileSystem::createFileOrDir, Create, Mkdir *)

Definition createFileOrDir {mem : Memory}
    (fuel : nat) (fs : FileSystem) (nm : string)
    (dir : bool) (initialSize : Z) (d : SynchDisk) : outcome (bool * SynchDisk) :=
  finder ← find fuel d FileFinder_new nm dir (directoryFile fs);
  if exist finder then Ret (false, d)
  else
    _ ← ASSERT (negb (pFhSector finder =? INVALID_SECTOR));
    freeMap ← PersistentBitmap.new (freeMapFile fs) (NumSectors d) d;
    let '(sec, freeMap) := Bitmap.FindAndSet freeMap in
    _ ← ASSERT (0 <=? sec);
    openPfh ← OpenFile.new fuel d (pFhSector finder);
    pDir ← Directory.FetchFrom NumDirEntries openPfh d;
    let '(ok, pDir) := Directory.Add pDir (filename finder) sec dir in
    _ ← ASSERT ok;
    let size :=
      if dir then Z.of_nat NumDirEntries * sizeof_DirectoryEntry
      else initialSize in
    _ ← ASSERT (0 <=? size);
    '(ok, fh, freeMap) ← Allocate freeMap size;
    _ ← ASSERT ok;
    d ← WriteBack fh sec d;
    d ← Directory.WriteBack pDir openPfh d;
    d ← PersistentBitmap.WriteBack freeMap (freeMapFile fs) d;
    d ← (if dir then
           openFh ← OpenFile.new fuel d sec;
           Directory.WriteBack (Directory.new NumDirEntries) openFh d
         else Ret d);
    Ret (true, d).

Definition Create {mem : Memory} (fuel : nat) (fs : FileSystem) (nm : string)
    (initialSize : Z) (d : SynchDisk) : outcome (bool * SynchDisk) :=
  createFileOrDir fuel fs nm FILE initialSize d.

Definition Mkdir {mem : Memory}
    (fuel : nat) (fs : FileSystem) (nm : string) (d : SynchDisk)
    : outcome (bool * SynchDisk) :=
  createFileOrDir fuel fs nm DIR (-1) d.

(** *** FileSystem::Open *)

Definition Open {mem : Memory}
    (fuel : nat) (fs : FileSystem) (nm : string) (d : SynchDisk)
    : outcome OpenFile :=
  finder ← find fuel d FileFinder_new nm FILE (directoryFile fs);
  finder ←
    (if exist finder then Ret finder
     else find fuel d finder nm DIR (directoryFile fs));
  _ ← ASSERT (exist finder && (0 <=? fhSector finder));
  OpenFile.new fuel d (fhSector finder).

(** *** FileSystem::Remove, recursivelyRemove, returnSectorsToFreeMap *)

Definition returnSectorsToFreeMap {mem : Memory}
    (fuel : nat) (d : SynchDisk) (fhSec : Z)
    (freeMap : Bitmap.t) : outcome Bitmap.t :=
  _ ← ASSERT (Bitmap.Test fhSec freeMap);
  let freeMap := Bitmap.Clear fhSec freeMap in
  fh ← FetchFrom fuel d fhSec;
  Deallocate fh freeMap.

(** [Remove(name, FALSE)]. *)
Definition Remove_file {mem : Memory}
    (fuel : nat) (fs : FileSystem) (nm : string)
    (d : SynchDisk) : outcome (bool * SynchDisk) :=
  finder ← find fuel d FileFinder_new nm FILE (directoryFile fs);
  if negb (exist finder) then Ret (false, d)
  else
    freeMap ← PersistentBitmap.new (freeMapFile fs) (NumSectors d) d;
    freeMap ← returnSectorsToFreeMap fuel d (fhSector finder) freeMap;
    openPfh ← OpenFile.new fuel d (pFhSector finder);
    pDir ← Directory.FetchFrom NumDirEntries openPfh d;
    let '(ok, pDir) := Directory.Remove pDir (filename finder) FILE in
    _ ← ASSERT ok;
    d ← PersistentBitmap.WriteBack freeMap (freeMapFile fs) d;
    d ← Directory.WriteBack pDir openPfh d;
    Ret (true, d).

Definition recursivelyRemove {mem : Memory}
    (fuel : nat) (fs : FileSystem) (nm : string)
    (d : SynchDisk) : outcome (bool * SynchDisk) :=
  finder ← find fuel d FileFinder_new nm DIR (directoryFile fs);
  if negb (exist finder) then Remove_file fuel fs nm d
  else
    freeMap ← PersistentBitmap.new (freeMapFile fs) (NumSectors d) d;
    openfh ← OpenFile.new fuel d (fhSector finder);
    dir ← Directory.FetchFrom NumDirEntries openfh d;
    '(ok, dir, freeMap) ← Directory.RemoveAll fuel d dir freeMap;
    _ ← ASSERT ok;
    d ← Directory.WriteBack dir openfh d;
    d ← PersistentBitmap.WriteBack freeMap (freeMapFile fs) d;
    Ret (true, d).

Definition Remove {mem : Memory} (fuel : nat) (fs : FileSystem) (nm : string)
    (recursive : bool) (d : SynchDisk) : outcome (bool * SynchDisk) :=
  if recursive then recursivelyRemove fuel fs nm d
  else Remove_file fuel fs nm d.

(** ** A blank disk and scripts of operations *)

Definition blank_disk (n : nat) : SynchDisk :=
  {| image := replicate n (replicate (Z.to_nat SectorSize) 0); writes := [] |}.

Inductive Op : Type :=
| OpMkdir (nm : string)
| OpCreate (nm : string) (initialSize : Z)
| OpRemove (nm : string) (recursive : bool).

Definition run_op {mem : Memory}
    (fuel : nat) (fs : FileSystem) (op : Op) (d : SynchDisk)
    : outcome (bool * SynchDisk) :=
  match op with
  | OpMkdir nm => Mkdir fuel fs nm d
  | OpCreate nm initialSize => Create fuel fs nm initialSize d
  | OpRemove nm recursive => Remove fuel fs nm recursive d
  end.

(** The operations in turn, every one of them answering [TRUE]. *)
Fixpoint run_ops {mem : Memory}
    (fuel : nat) (fs : FileSystem) (ops : list Op) (d : SynchDisk)
    : outcome SynchDisk :=
  match ops with
  | [] => Ret d
  | op :: ops' =>
      '(ok, d') ← run_op fuel fs op d;
      _ ← ASSERT ok;
      run_ops fuel fs ops' d'
  end.

(** A disk of [n] sectors, formatted, then the operations. *)
Definition script {mem : Memory} (fuel : nat) (n : nat) (ops : list Op)
    : outcome (FileSystem * SynchDisk) :=
  '(fs, d) ← format fuel (blank_disk n);
  d' ← run_ops fuel fs ops d;
  Ret (fs, d').

Definition no_file_system : FileSystem :=
  {| freeMapFile := {| hdr := fresh_header; seekPosition := 0 |};
     directoryFile := {| hdr := fresh_header; seekPosition := 0 |} |}.

(** The state a script ends in (a blank state if it does not end well). *)
Definition state_of (s : outcome (FileSystem * SynchDisk))
    : FileSystem * SynchDisk :=
  match s with
  | Ret x => x
  | _ => (no_file_system, blank_disk 0)
  end.

Definition disk_after (o : outcome (bool * SynchDisk)) : SynchDisk :=
  match o with
  | Ret (_, d) => d
  | _ => blank_disk 0
  end.

Definition persisted_bitmap (fs : FileSystem) (d : SynchDisk)
    : outcome Bitmap.t :=
  PersistentBitmap.new (freeMapFile fs) (NumSectors d) d.

Definition used_sectors (m : Bitmap.t) : list Z :=
  filter (fun i => Bitmap.Test i m = true) (map Z.of_nat (seq 0 (length m))).

Definition answer {A} (o : outcome (bool * A)) : outcome bool :=
  '(b, _) ← o; Ret b.

(** A path of [k] nested directories, each of nine characters. *)
Fixpoint nested (k : nat) : string :=
  match k with
  | O => EmptyString
  | S k' => String.append (nested k') "/aaaaaaaaa"
  end.


Definition deep_tree : list Op :=
  map (fun k => OpMkdir (nested (S k))) (seq 0 25)
  ++ [OpCreate (String.append (nested 25) "/bbbb") 1].

(** * Specification-level notions *)

(** ** What a path names, told without the finder

    [dir_lookup] is one step in a directory; [walks] follows directory
    names from an open directory to another; [resolves] says that a path
    names an object of the given type, whose header is in sector [s]. *)

Definition dir_lookup (fuel : nat) (d : SynchDisk) (file : OpenFile)
    (c : string) (dir : bool) : outcome Z :=
  table ← Directory.FetchFrom NumDirEntries file d;
  Ret (Directory.Find table c dir).

Inductive walks {mem : Memory} (fuel : nat) (d : SynchDisk)
  : OpenFile -> Z -> list string -> OpenFile -> Z -> Prop :=
| walks_nil file sec : walks fuel d file sec [] file sec
| walks_cons file sec c s file1 comps file' sec' :
    dir_lookup fuel d file c DIR = Ret s ->
    s <> INVALID_SECTOR ->
    OpenFile.new fuel d s = Ret file1 ->
    walks fuel d file1 s comps file' sec' ->
    walks fuel d file sec (c :: comps) file' sec'.

Definition resolves {mem : Memory}
    (fuel : nat) (d : SynchDisk) (root : OpenFile)
    (nm : string) (dir : bool) (s : Z) : Prop :=
  snd (splitPath nm) = false
  /\ ((c_str nm = "/"%string /\ dir = DIR /\ s = DirectorySector)
      \/ (c_str nm <> "/"%string
          /\ exists x mid c parent psec,
               fst (splitPath nm) = x :: mid ++ [c]
               /\ walks fuel d root DirectorySector mid parent psec
               /\ dir_lookup fuel d parent c dir = Ret s
               /\ s <> INVALID_SECTOR)).

(** ** The order of the writes *)

Definition all_by (who : Writer) (l : list (Writer * Z)) : Prop :=
  Forall (fun e => fst e = who) l.

(** Headers come first, directories second, the bitmap last. *)
Definition rank (who : Writer) : nat :=
  match who with
  | ByFileHeader => 0
  | ByDirectory => 1
  | ByBitmap => 2
  end.

Fixpoint in_order (r : nat) (l : list (Writer * Z)) : bool :=
  match l with
  | [] => true
  | e :: l' => (r <=? rank (fst e))%nat && in_order (rank (fst e)) l'
  end.

(** The writes of one operation, from the disk before to the disk after. *)
Definition new_writes (d d' : SynchDisk) : list (Writer * Z) :=
  drop (length (writes d)) (writes d').

(** ** The cost and the shape of an allocation *)

(** The sectors taken by [Allocate] for [n] bytes: the data sectors and one
    sector for every header below the first. *)
Fixpoint sectors_needed (fuel : nat) (n : Z) : Z :=
  match fuel with
  | O => 0
  | S fuel' =>
      match whichLv n with
      | Ret O => divRoundUp n SectorSize
      | Ret (S l) =>
          let chunk := MAX_SIZE l in
          (n / chunk) * (1 + sectors_needed fuel' chunk)
          + (if 0 <? n mod chunk
             then 1 + sectors_needed fuel' (n mod chunk) else 0)
      | _ => 0
      end
  end.

(** The cost of the pieces of [r] bytes, each of them costing its header
    and what [need] says. *)
Definition need_chunks (need : Z -> Z) (chunk r : Z) : Z :=
  (r / chunk) * (1 + need chunk)
  + (if 0 <? r mod chunk then 1 + need (r mod chunk) else 0).

Definition sum_Z (l : list Z) : Z := foldr Z.add 0 l.

(** Full pieces, then what is left if anything is. *)
Definition chunk_list (n chunk : Z) : list Z :=
  replicate (Z.to_nat (n / chunk)) chunk
  ++ (if 0 <? n mod chunk then [n mod chunk] else []).

(** The array [dataSectors] with [news] in its first places and the
    sentinel in all the others. *)
Definition sectors_then_sentinels (news secs : list Z) : Prop :=
  secs = news ++ replicate (Z.to_nat NUM_DIRECT - length news) INVALID_SECTOR
  /\ (length news <= Z.to_nat NUM_DIRECT)%nat
  /\ Forall (fun s => 0 <= s) news.

(** [l] cuts [n] bytes into pieces of at most [chunk] bytes, none of them
    empty and all but the last one full. *)
Definition is_split (n chunk : Z) (l : list Z) : Prop :=
  sum_Z l = n
  /\ Forall (fun x => 0 < x <= chunk) l
  /\ forall i x, l !! i = Some x -> (S i < length l)%nat -> x = chunk.

(** What is read back of the header of [/big] after [create /big 4000] on
    the formatted disk: its size, its level, the entries of [dataSectors]
    that are not the sentinel, and size, sector count and level of each
    child. *)
Definition header_summary (h : FileHeader)
    : Z * outcome nat * list Z * list (Z * Z * outcome nat) :=
  (numBytes h, whichLv (numBytes h),
   filter (fun s => s <> INVALID_SECTOR) (dataSectors h),
   map (fun k => (numBytes k, numDataSectors k, whichLv (numBytes k)))
     (children h)).

Definition big_file
    : outcome (Z * outcome nat * list Z * list (Z * Z * outcome nat)) :=
  f ← Open 10 (fst (state_of (script 10 1024 [OpCreate "/big" 4000]))) "/big"
        (snd (state_of (script 10 1024 [OpCreate "/big" 4000])));
  Ret (header_summary (hdr f)).

(** ** Disks with little room *)

Definition free_sectors (fs : FileSystem) (d : SynchDisk) : outcome Z :=
  m ← persisted_bitmap fs d;
  Ret (Bitmap.NumClear m).

(** A disk of 16 sectors, formatted: 3 sectors are free. *)
Definition disk16 : FileSystem * SynchDisk := state_of (script 10 16 []).

(** A disk of 48 sectors, formatted: 35 sectors are free. *)
Definition disk48 : FileSystem * SynchDisk := state_of (script 10 48 []).

(** The bitmap of [disk48] once [Create] has taken the sector of the new
    header: 34 sectors are free. *)
Definition bitmap48 : Bitmap.t := replicate 14 true ++ replicate 34 false.

Definition answer_of {B C} (o : outcome (bool * B * C)) : outcome bool :=
  '(b, _, _) ← o; Ret b.

Definition header_of {A B} (o : outcome (A * FileHeader * B)) : FileHeader :=
  match o with
  | Ret (_, h, _) => h
  | _ => fresh_header
  end.

(** ** What lies below a directory *)

(** The data sectors of a direct header. *)
Definition direct_sectors (h : FileHeader) : outcome (list Z) :=
  _ ← ASSERT (numBytes h <=? MAX_SIZE_L0);
  _ ← ASSERT (bool_decide
                (Z.to_nat (numDataSectors h) <= length (dataSectors h))%nat);
  Ret (take (Z.to_nat (numDataSectors h)) (dataSectors h)).

(** The sectors of the files and directories listed in a table, and of
    what the directories among them list in turn: for every entry in use
    the sectors below it, its data sectors and the sector of its header.
    Every header met is a direct one. *)
Fixpoint subtree_entries {mem : Memory}
    (below : Directory.t -> outcome (list Z))
    (fuel : nat) (d : SynchDisk) (table : Directory.t) : outcome (list Z) :=
  match table with
  | [] => Ret []
  | e :: table' =>
      if inUse e then
        subs ←
          (if isDir e then
             file ← OpenFile.new fuel d (sector e);
             sub ← Directory.FetchFrom NumDirEntries file d;
             below sub
           else Ret []);
        fh ← FetchFrom fuel d (sector e);
        data ← direct_sectors fh;
        rest ← subtree_entries below fuel d table';
        Ret (subs ++ data ++ sector e :: rest)
      else subtree_entries below fuel d table'
  end.

Fixpoint subtree {mem : Memory}
    (fuel : nat) (d : SynchDisk) (table : Directory.t)
    : outcome (list Z) :=
  match fuel with
  | O => Diverge
  | S fuel' => subtree_entries (subtree fuel' d) fuel' d table
  end.

Definition clear_all (secs : list Z) (m : Bitmap.t) : Bitmap.t :=
  foldl (fun m s => Bitmap.Clear s m) m secs.

(** The table with every entry out of use. *)
Definition released (table : Directory.t) : Directory.t :=
  map (fun e => if inUse e then Directory.release e else e) table.

(** A file whose header can serve every sector of its length on a disk of
    [n] sectors. *)
Definition file_ok (file : OpenFile) (n : Z) : Prop :=
  Z.of_nat (length (dataSectorMapping (hdr file))) = numDataSectors (hdr file)
  /\ Forall (fun s => 0 <= s < n) (dataSectorMapping (hdr file))
  /\ FileLength (hdr file) <= numDataSectors (hdr file) * SectorSize.

(** ** The tree of the test plan: [/d], [/d/e], [/d/e/f] *)

Definition below (nm : string) (op : Op) : Prop :=
  match op with
  | OpMkdir p | OpCreate p _ =>
      String.prefix (String.append nm "/") p = true
  | OpRemove _ _ => False
  end.

Definition scenario4 : list Op := [OpMkdir "/d/e"; OpCreate "/d/e/f" 10].

Definition formatted : FileSystem * SynchDisk := state_of (script 10 1024 []).

Definition tree4 : FileSystem * SynchDisk :=
  state_of (script 10 1024 (OpMkdir "/d" :: scenario4)).

Definition tree4_removed : SynchDisk :=
  disk_after (Remove 10 (fst tree4) "/d" true (snd tree4)).

Definition value {A} (o : outcome A) (dflt : A) : A :=
  match o with
  | Ret a => a
  | _ => dflt
  end.

(** What the recursive removal of [/d] starts from. *)
Definition tree4_finder : FileFinder :=
  value (find 10 (snd tree4) FileFinder_new "/d" DIR (directoryFile (fst tree4)))
    FileFinder_new.

Definition tree4_bitmap : Bitmap.t :=
  value (persisted_bitmap (fst tree4) (snd tree4)) [].

Definition tree4_file : OpenFile :=
  value (OpenFile.new 10 (snd tree4) (fhSector tree4_finder))
    {| hdr := fresh_header; seekPosition := 0 |}.

Definition tree4_table : Directory.t :=
  value (Directory.FetchFrom NumDirEntries tree4_file (snd tree4)) [].

Definition tree4_below : list Z :=
  value (subtree 10 (snd tree4) tree4_table) [].

(** * Claims as the specification words them, and their scenarios *)

(** The longest path that is looked up, in a tree built for it. *)
Definition deep_path : string := String.append (nested 25) "/bbbb".

(** The formatted disk of 1024 sectors, with one file [/a] of 10 bytes. *)
Definition one_file : outcome (FileSystem * SynchDisk) :=
  script 10 1024 [OpCreate "/a" 10].

(** The sentence of the specification, for every path. *)
Definition remove_of_missing_file_returns_false {mem : Memory} : Prop :=
  forall (fuel : nat) (fs : FileSystem) (d : SynchDisk) (nm : string),
    (forall s, ~ resolves fuel d (directoryFile fs) nm FILE s) ->
    Remove fuel fs nm false d = Ret (false, d).



(** The sentence of the specification: an object of either type under the
    name makes [Create] answer [FALSE]. *)
Definition create_rejects_either_type {mem : Memory} : Prop :=
  forall (fuel : nat) (fs : FileSystem) (d : SynchDisk) (nm : string)
         (initialSize : Z) (dir : bool) (s : Z),
    resolves fuel d (directoryFile fs) nm dir s ->
    Create fuel fs nm initialSize d = Ret (false, d).

(** The formatted disk of 1024 sectors after [mkdir /a]. *)
Definition one_directory : outcome (FileSystem * SynchDisk) :=
  script 10 1024 [OpMkdir "/a"].

(** The sentence of the specification: the writes of an operation are the
    headers, then the parent directory, then the bitmap. *)
Definition bitmap_is_written_last {mem : Memory} : Prop :=
  forall (fuel : nat) (fs : FileSystem) (op : Op) (d d' : SynchDisk),
    run_op fuel fs op d = Ret (true, d') ->
    exists hs ds bs,
      writes d' = writes d ++ hs ++ ds ++ bs
      /\ all_by ByFileHeader hs /\ all_by ByDirectory ds /\ all_by ByBitmap bs.

(** The sentence of the specification, for a directory made right after
    the format and everything else made below it: the recursive removal
    answers [TRUE], brings the bitmap back to what it was after the format,
    and the path names a directory no more. *)
Definition recursive_remove_restores_bitmap {mem : Memory} : Prop :=
  forall (fuel n : nat) (nm : string) (ops : list Op)
         (fs fs' : FileSystem) (d0 d : SynchDisk),
    script fuel n [] = Ret (fs, d0) ->
    script fuel n (OpMkdir nm :: ops) = Ret (fs', d) ->
    Forall (below nm) ops ->
    exists d',
      Remove fuel fs' nm true d = Ret (true, d')
      /\ persisted_bitmap fs' d' = persisted_bitmap fs d0
      /\ forall s, ~ resolves fuel d' (directoryFile fs') nm DIR s.


(** * Further notions, for the properties of the code beyond the claims *)

(** ** Paths *)

(** The components put together again, a slash between two of them. *)
Fixpoint join_path (comps : list string) : string :=
  match comps with
  | [] => EmptyString
  | c :: rest =>
      match rest with
      | [] => c
      | _ => String.append c (String "/" (join_path rest))
      end
  end.

Fixpoint count_slashes (s : string) : nat :=
  match s with
  | EmptyString => O
  | String c s' => (if is_slash c then 1 else 0) + count_slashes s'
  end.

(** The formatted disk of 1024 sectors after [create /x/y 10], where no
    directory [/x] exists. *)
Definition stray_file : FileSystem * SynchDisk :=
  (fst formatted,
   disk_after (Create 10 (fst formatted) "/x/y" 10 (snd formatted))).

(** ** The table of open files *)

(** From [filesys.h]. *)
Definition FILE_OPEN_LIMIT : Z := 20.

(** The array [OpenFileTable] of the file system: one place for every
    identifier, [None] for the null pointer. *)
Abbreviation OpenFileTable := (list (option OpenFile)).

(** The table the constructor leaves behind. *)
Definition OpenFileTable_new : OpenFileTable :=
  replicate (Z.to_nat FILE_OPEN_LIMIT) None.

(** The place of an identifier; there is none outside the array. *)
Definition table_at (table : OpenFileTable) (id : Z) : outcome (option OpenFile) :=
  if id <? 0 then Abort
  else
    match table !! Z.to_nat id with
    | Some slot => Ret slot
    | None => Abort
    end.

(** The [for] loop of [OpenAFile]: [k] identifiers are still to be tried,
    [id] being the next one. *)
Fixpoint free_id (k : nat) (id : Z) (table : OpenFileTable) : outcome Z :=
  match k with
  | O => Ret id
  | S k' =>
      slot ← table_at table id;
      match slot with
      | None => Ret id
      | Some _ => free_id k' (id + 1) table
      end
  end.

(** *** FileSystem::OpenAFile *)

Definition OpenAFile {mem : Memory}
    (fuel : nat) (fs : FileSystem) (table : OpenFileTable)
    (nm : string) (d : SynchDisk) : outcome (Z * OpenFileTable) :=
  id ← free_id 20 0 table;
  if id =? 20 then Ret (-1, table)
  else
    file ← Open fuel fs nm d;
    Ret (id, <[Z.to_nat id := Some file]> table).

(** *** FileSystem::isValidFileId, FileSystem::CloseFile *)

Definition isValidFileId (table : OpenFileTable) (id : Z) : outcome bool :=
  if (0 <=? id) && (id <? FILE_OPEN_LIMIT) then
    slot ← table_at table id;
    Ret (bool_decide (slot <> None))
  else Ret false.

Definition CloseFile (table : OpenFileTable) (id : Z)
    : outcome (Z * OpenFileTable) :=
  valid ← isValidFileId table id;
  if valid : bool then Ret (1, <[Z.to_nat id := None]> table)
  else Ret (-1, table).

(** *** FileSystem::ReadFile, FileSystem::WriteFile_ *)

Section Descriptors.

(** [openfile.cc] is not among the sources.  [OpenFile_Read] and
    [OpenFile_Write] stand for [OpenFile::Read] and [OpenFile::Write]: from
    the file, the count asked for and the disk (and the bytes to write) to
    the count returned, the file with its new position, and the bytes read
    or the disk written. *)
Variable OpenFile_Read :
  OpenFile -> Z -> SynchDisk -> outcome (Z * list Z * OpenFile).
Variable OpenFile_Write :
  OpenFile -> list Z -> Z -> SynchDisk -> outcome (Z * OpenFile * SynchDisk).

(** A buffer is the bytes it holds, or [None] for the null pointer.  The
    answer of [ReadFile] comes with the bytes put in the buffer. *)
Definition ReadFile (table : OpenFileTable) (buffer : option (list Z))
    (size id : Z) (d : SynchDisk) : outcome (Z * list Z * OpenFileTable) :=
  match buffer with
  | None => Ret (-1, [], table)
  | Some _ =>
      if 0 <=? size then
        valid ← isValidFileId table id;
        if valid : bool then
          slot ← table_at table id;
          match slot with
          | None => Abort
          | Some file =>
              '(n, bytes, file') ← OpenFile_Read file size d;
              Ret (n, bytes, <[Z.to_nat id := Some file']> table)
          end
        else Ret (-1, [], table)
      else Ret (-1, [], table)
  end.

Definition WriteFile_ (table : OpenFileTable) (buffer : option (list Z))
    (size id : Z) (d : SynchDisk)
    : outcome (Z * OpenFileTable * SynchDisk) :=
  match buffer with
  | None => Ret (-1, table, d)
  | Some from =>
      if 0 <=? size then
        valid ← isValidFileId table id;
        if valid : bool then
          slot ← table_at table id;
          match slot with
          | None => Abort
          | Some file =>
              '(n, file', d') ← OpenFile_Write file from size d;
              Ret (n, <[Z.to_nat id := Some file']> table, d')
          end
        else Ret (-1, table, d)
      else Ret (-1, table, d)
  end.

End Descriptors.

(** *** The system calls of [ksyscall.h] *)

Definition SysCreate {mem : Memory}
    (fuel : nat) (fs : FileSystem) (filename : string)
    (initialSize : Z) (d : SynchDisk) : outcome (Z * SynchDisk) :=
  '(ok, d') ← Create fuel fs filename initialSize d;
  Ret (Z.b2z ok, d').

Definition SysOpen {mem : Memory} := OpenAFile.
Definition SysClose := CloseFile.
Definition SysRead := ReadFile.
Definition SysWrite := WriteFile_.

(** ** The sectors of a header tree *)

(** What the children of an indirect header contribute, in the order of
    the loops of [WriteBack], [FetchFrom] and [Deallocate]: child [i] goes
    with [dataSectors[i]], up to the first sentinel. *)
Fixpoint over_children {A} (g : Z -> FileHeader -> list A) (secs : list Z)
    (kids : list FileHeader) {struct kids} : list A :=
  match secs with
  | [] => []
  | s :: secs' =>
      if s =? INVALID_SECTOR then []
      else
        match kids with
        | [] => []
        | kid :: kids' => g s kid ++ over_children g secs' kids'
        end
  end.

(** The sectors that hold the headers below [h]. *)
Fixpoint header_sectors (h : FileHeader) : list Z :=
  match whichLv (numBytes h) with
  | Ret (S _) =>
      over_children (fun s kid => s :: header_sectors kid)
        (dataSectors h) (children h)
  | _ => []
  end.

(** The sectors that hold the data of [h], in file order: those listed in
    the direct headers at the leaves. *)
Fixpoint data_sectors (h : FileHeader) : list Z :=
  match whichLv (numBytes h) with
  | Ret O => take (Z.to_nat (numDataSectors h)) (dataSectors h)
  | Ret (S _) =>
      over_children (fun _ kid => data_sectors kid)
        (dataSectors h) (children h)
  | _ => []
  end.

(** Both kinds, in the order in which [Allocate] takes them. *)
Fixpoint all_sectors (h : FileHeader) : list Z :=
  match whichLv (numBytes h) with
  | Ret O => take (Z.to_nat (numDataSectors h)) (dataSectors h)
  | Ret (S _) =>
      over_children (fun s kid => s :: all_sectors kid)
        (dataSectors h) (children h)
  | _ => []
  end.

(** The entries of [dataSectors] before the first sentinel. *)
Fixpoint live (secs : list Z) : list Z :=
  match secs with
  | [] => []
  | s :: secs' => if s =? INVALID_SECTOR then [] else s :: live secs'
  end.

(** A value that fits an [int]. *)
Definition int_range (x : Z) : Prop := -2147483648 <= x < 2147483648.

(** The vector an indirect header ends with, after the merges of its
    children in turn. *)
Definition merged (kids : list FileHeader) : list Z :=
  foldl (fun acc kid => merge_into acc (dataSectorMapping kid)) [] kids.

(** A header of at most [l] levels whose in-core part is the one its disk
    part stands for: a direct header has no children, at most
    [NUM_DIRECT] data sectors, and its vector is the first
    [numDataSectors] entries of [dataSectors]; an indirect one
    has one child for every entry before the first sentinel, each of them
    such a header in turn, and its vector is the one merged from theirs.
    The array has [NUM_DIRECT] entries, and every number kept in the
    sector fits an [int]. *)
Fixpoint consistent (l : nat) (h : FileHeader) : Prop :=
  length (dataSectors h) = Z.to_nat NUM_DIRECT
  /\ int_range (numBytes h) /\ int_range (numDataSectors h)
  /\ Forall int_range (dataSectors h)
  /\ match whichLv (numBytes h) with
     | Ret O =>
         children h = []
         /\ numDataSectors h <= NUM_DIRECT
         /\ dataSectorMapping h
            = take (Z.to_nat (numDataSectors h)) (dataSectors h)
     | Ret (S _) =>
         match l with
         | O => False
         | S l' =>
             length (children h) = length (live (dataSectors h))
             /\ Forall (consistent l') (children h)
             /\ dataSectorMapping h = merged (children h)
         end
     | _ => False
     end.

(** No direct header of the tree counts more data sectors than the array
    [dataSectors] holds. *)
Fixpoint within_array (l : nat) (h : FileHeader) : Prop :=
  match whichLv (numBytes h) with
  | Ret O => numDataSectors h <= NUM_DIRECT
  | Ret (S _) =>
      match l with
      | O => False
      | S l' => Forall (within_array l') (children h)
      end
  | _ => False
  end.

(** ** Sectors taken from the bitmap *)

(** The sectors [taken] were free in [m], all of them different, and [m']
    is [m] with exactly those marked. *)
Definition takes (m : Bitmap.t) (taken : list Z) (m' : Bitmap.t) : Prop :=
  NoDup taken
  /\ Forall (fun s => 0 <= s < Z.of_nat (length m)
                      /\ Bitmap.Test s m = false) taken
  /\ length m' = length m
  /\ forall s, Bitmap.Test s m' = Bitmap.Test s m || bool_decide (s ∈ taken).

(** No mark of [m] is lost in [m'], which has as many bits. *)
Definition keeps_marks (m m' : Bitmap.t) : Prop :=
  length m' = length m
  /\ forall s, Bitmap.Test s m = true -> Bitmap.Test s m' = true.

(** What [Allocate] leaves behind when it had the room it needs, from the
    bitmap [m] and for [size] bytes: a consistent header [h] of that size
    and the bitmap [m'], in which exactly the sectors of [h] are newly
    marked; the vector of [h] lists the data sectors found at its leaves,
    one for every sector of the size. *)
Definition built (l : nat) (m : Bitmap.t) (size : Z) (h : FileHeader)
    (m' : Bitmap.t) : Prop :=
  numBytes h = size
  /\ numDataSectors h = divRoundUp size SectorSize
  /\ consistent l h
  /\ takes m (all_sectors h) m'
  /\ dataSectorMapping h = data_sectors h
  /\ Z.of_nat (length (data_sectors h)) = divRoundUp size SectorSize.

#[global] Instance int_range_dec (x : Z) : Decision (int_range x).
Proof. unfold int_range. apply _. Defined.

(** A direct header of 300 bytes on the sectors 0, 1 and 3. *)
Definition small_header : FileHeader :=
  header_of (Allocate [false; false; true; false; false] 300).

(** ** A header written and read back *)

(** [WriteBack] of [h] to [sector] of [d] returns, writes no sector but
    [sector] and those of the headers below [h], and [FetchFrom] reads [h]
    back from every disk that holds those sectors as they were written. *)
Definition writes_back {mem : Memory} (fuel : nat) (h : FileHeader) (sector : Z)
    (d : SynchDisk) : Prop :=
  exists d',
    WriteBack h sector d = Ret d'
    /\ NumSectors d' = NumSectors d
    /\ (forall s, s ∉ sector :: header_sectors h ->
                  ReadSector d' s = ReadSector d s)
    /\ forall d'',
         (forall s, s ∈ sector :: header_sectors h ->
                    ReadSector d'' s = ReadSector d' s) ->
         FetchFrom fuel d'' sector = Ret h.

(** A disk of four sectors whose sector 2 holds an indirect header of 4000
    bytes that names sector 2 as its first child. *)
Definition looping_disk : SynchDisk :=
  {| image :=
       <[2%nat :=
           header_bytes
             {| numBytes := 4000; numDataSectors := 32;
                dataSectors :=
                  2 :: replicate (Z.to_nat NUM_DIRECT - 1) INVALID_SECTOR;
                dataSectorMapping := []; children := [] |}]>
         (image (blank_disk 4));
     writes := [] |}.

(** ** Formatting *)

(** The bitmap [format] starts from on a disk of [n] sectors: the sectors
    of the two headers are marked and no other. *)
Definition format_bitmap (n : nat) : Bitmap.t :=
  Bitmap.Mark DirectorySector (Bitmap.Mark FreeMapSector (replicate n false)).

(** A disk of eight sectors with [small_header] written to sector 2. *)
Definition small_disk : SynchDisk :=
  value (WriteBack small_header 2 (blank_disk 8)) (blank_disk 0).

(** A disk of four sectors whose sector 2 holds a direct header of 3840
    bytes that counts 31 data sectors, one more than [dataSectors] holds,
    the sectors 5 to 34. *)
Definition overrun_disk : SynchDisk :=
  {| image :=
       <[2%nat :=
           header_bytes
             {| numBytes := 3840; numDataSectors := 31;
                dataSectors := map Z.of_nat (seq 5 30);
                dataSectorMapping := []; children := [] |}]>
         (image (blank_disk 4));
     writes := [] |}.

(** * Properties *)

(** ** Arithmetic of the thresholds *)

Lemma MAX_SIZE_values :
  MAX_SIZE 0 = 3840 /\ MAX_SIZE 1 = 115200 /\ MAX_SIZE 2 = 3456000
  /\ MAX_SIZE 3 = 103680000.
Proof. repeat split; reflexivity. Qed.

Lemma MAX_SIZE_step (l : nat) :
  (l < 3)%nat -> MAX_SIZE (S l) = NUM_DIRECT * MAX_SIZE l.
Proof.
  intros H. destruct l as [|[|[|l]]]; try lia; reflexivity.
Qed.

Lemma MAX_SIZE_pos (l : nat) : (l < 4)%nat -> 0 < MAX_SIZE l.
Proof.
  intros H. destruct l as [|[|[|[|l]]]]; try lia; reflexivity.
Qed.

Lemma MAX_SIZE_mono (a b : nat) :
  (a < b)%nat -> (b < 4)%nat -> MAX_SIZE a < MAX_SIZE b.
Proof.
  intros Hab Hb.
  destruct b as [|[|[|[|b]]]]; try lia;
    destruct a as [|[|[|a]]]; try lia; reflexivity.
Qed.

Lemma whichLv_loop_spec (k i : nat) (n : Z) :
  (k + i = 4)%nat ->
  (forall j, (j < i)%nat -> MAX_SIZE j < n) ->
  (n <= MAX_SIZE 3 ->
   exists L, whichLv_loop k i n = Ret L /\ (i <= L < 4)%nat /\ n <= MAX_SIZE L
             /\ forall j, (j < L)%nat -> MAX_SIZE j < n)
  /\ (MAX_SIZE 3 < n -> whichLv_loop k i n = Abort).
Proof.
  revert i. induction k as [|k IH]; intros i Hki Hlow.
  - simpl. split; [|reflexivity].
    intros Hle. exfalso. specialize (Hlow 3%nat). lia.
  - simpl. destruct (Z.leb_spec n (MAX_SIZE i)) as [Hle|Hgt].
    + split.
      * intros _. exists i. repeat split; [lia | lia | exact Hle | exact Hlow].
      * intros Hbig. exfalso.
        assert (MAX_SIZE i <= MAX_SIZE 3).
        { destruct (decide (i = 3%nat)) as [->|Hne]; [lia|].
          apply Z.lt_le_incl, MAX_SIZE_mono; lia. }
        lia.
    + destruct (IH (S i)) as [IH1 IH2]; [lia| |].
      * intros j Hj. destruct (decide (j = i)) as [->|Hne]; [exact Hgt|].
        apply Hlow. lia.
      * split; [|exact IH2].
        intros Hle. destruct (IH1 Hle) as (L & HL & Hr & Hm & Hs).
        exists L. repeat split; [exact HL | lia | lia | exact Hm | exact Hs].
Qed.

Lemma whichLv_threshold (L : nat) :
  (L < 4)%nat -> whichLv (MAX_SIZE L) = Ret L.
Proof.
  intros HL. destruct L as [|[|[|[|L]]]]; try lia; reflexivity.
Qed.

Lemma Allocate_node_unfold (fuel : nat) (freeMap : Bitmap.t) (fileSize : Z) :
  Allocate_node (S fuel) freeMap fileSize =
  let nds := divRoundUp fileSize SectorSize in
  if Bitmap.NumClear freeMap <? nds then
    Ret (false,
         {| numBytes := fileSize; numDataSectors := nds;
            dataSectors := dataSectors fresh_header;
            dataSectorMapping := []; children := [] |},
         freeMap)
  else
    lv ← whichLv fileSize;
    match lv with
    | O =>
        '(freeMap', secs, mapping) ←
          alloc_direct (Z.to_nat nds) 0 freeMap (dataSectors fresh_header) [];
        Ret (true,
             {| numBytes := fileSize; numDataSectors := nds;
                dataSectors := secs; dataSectorMapping := mapping;
                children := [] |},
             freeMap')
    | S lv' =>
        '(freeMap', secs, mapping, kids) ←
          alloc_children (Allocate_node fuel) (Z.to_nat NUM_DIRECT) 0
            (MAX_SIZE lv') freeMap fileSize (dataSectors fresh_header) [] [];
        Ret (true,
             {| numBytes := fileSize; numDataSectors := nds;
                dataSectors := secs; dataSectorMapping := mapping;
                children := kids |},
             freeMap')
    end.
Proof. reflexivity. Qed.

(** C4.  A file size between 0 and [MAX_SIZE[3]] gets the smallest level
    whose threshold holds it, so [MAX_SIZE[L]] itself is at level [L] and
    [MAX_SIZE[L] + 1] at level [L + 1]; a larger size is refused: [whichLv]
    ends the process, and [Allocate] never answers [TRUE] for it. *)
Theorem whichLv_smallest_level (n : Z) :
  (0 <= n <= MAX_SIZE 3 ->
   exists L, whichLv n = Ret L /\ (L < 4)%nat /\ n <= MAX_SIZE L
             /\ forall j, (j < L)%nat -> MAX_SIZE j < n)
  /\ (forall L, (L < 4)%nat -> whichLv (MAX_SIZE L) = Ret L)
  /\ (forall L, (L < 3)%nat -> whichLv (MAX_SIZE L + 1) = Ret (S L))
  /\ (MAX_SIZE 3 < n ->
      whichLv n = Abort
      /\ forall freeMap h freeMap',
           Allocate freeMap n <> Ret (true, h, freeMap')).
Proof.
  destruct (whichLv_loop_spec 4 0 n eq_refl) as [Hin Hout]; [intros j Hj; lia|].
  split; [|split; [|split]].
  - intros [_ Hle]. destruct (Hin Hle) as (L & HL & Hr & Hm & Hs).
    exists L. repeat split; [exact HL | lia | exact Hm | exact Hs].
  - intros L HL. destruct L as [|[|[|[|L]]]]; try lia; reflexivity.
  - intros L HL. destruct L as [|[|[|L]]]; try lia; reflexivity.
  - intros Hbig. split; [exact (Hout Hbig)|].
    intros freeMap h freeMap'. unfold Allocate, LEVEL_LIMIT.
    rewrite Allocate_node_unfold. cbv zeta.
    destruct (Bitmap.NumClear freeMap <? divRoundUp n SectorSize);
      [intros H; discriminate H|].
    change (whichLv_loop 4 0 n) with (whichLv n) in Hout.
    rewrite (Hout Hbig). intros H. discriminate H.
Qed.

Lemma whichLv_smallest_level_witness :
  (0 <= 4000 <= MAX_SIZE 3) /\ whichLv 4000 = Ret 1%nat
  /\ (MAX_SIZE 3 < 103680001) /\ whichLv 103680001 = Abort.
Proof.
  split; [split; vm_compute; discriminate|].
  split; [reflexivity|].
  split; [reflexivity|].
  apply (proj2 (proj2 (proj2 (whichLv_smallest_level 103680001)))).
  reflexivity.
Defined.

(** ** Path lookup *)

Lemma bind_Ret {A B} (o : outcome A) (k : A -> outcome B) (b : B) :
  o ≫= k = Ret b -> exists a, o = Ret a /\ k a = Ret b.
Proof. destruct o as [a| |]; simpl; intros H; [eauto | discriminate..]. Qed.

Lemma ASSERT_Ret (b : bool) (u : unit) : ASSERT b = Ret u -> b = true.
Proof. destruct b; [reflexivity | discriminate]. Qed.

Lemma strlen_cons (c : ascii) (s : string) :
  strlen (String c s) = if is_NUL c then 0 else 1 + strlen s.
Proof.
  unfold strlen. simpl. destruct (is_NUL c); simpl; lia.
Qed.

Lemma splitPath_loop_count (str : string) :
  forall result token i,
    exists result' token',
      splitPath_loop str result token i = (result', token', i + strlen str).
Proof.
  induction str as [|c str IH]; intros result token i.
  - exists result, token. simpl. f_equal. unfold strlen. simpl. lia.
  - simpl. rewrite strlen_cons. destruct (is_NUL c).
    + exists result, token. f_equal. lia.
    + destruct (is_slash c).
      * destruct (IH (result ++ [token]) EmptyString (i + 1)) as (r & t & E).
        exists r, t. rewrite E. f_equal. lia.
      * destruct (IH result (string_push token c) (i + 1)) as (r & t & E).
        exists r, t. rewrite E. f_equal. lia.
Qed.

Lemma splitPath_flag (nm : string) :
  snd (splitPath nm) = (PATH_NAME_MAX_LEN <=? strlen nm).
Proof.
  unfold splitPath.
  destruct (splitPath_loop_count nm [] EmptyString 0) as (r & t & E).
  rewrite E. reflexivity.
Qed.

Lemma splitPath_nonempty (nm : string) : fst (splitPath nm) <> [].
Proof.
  unfold splitPath. destruct (splitPath_loop nm [] EmptyString 0) as [[r t] i].
  simpl. destruct r; discriminate.
Qed.

Lemma find_loop_sound {mem : Memory} (fuel : nat) (d : SynchDisk) (dir : bool) :
  forall comps first f file sec f',
    (if first : bool then sec = DirectorySector else fhSector f = sec) ->
    find_loop fuel d dir comps first f file = Ret f' ->
    exist f = false -> exist f' = true -> comps <> [] ->
    exists mid c parent psec,
      comps = mid ++ [c]
      /\ walks fuel d file sec mid parent psec
      /\ dir_lookup fuel d parent c dir = Ret (fhSector f')
      /\ fhSector f' <> INVALID_SECTOR
      /\ pFhSector f' = psec.
Proof.
  induction comps as [|c rest IH]; intros first f file sec f' Hsec Hrun Hf Hf' Hne;
    [congruence|].
  simpl in Hrun.
  apply bind_Ret in Hrun as (table & Htable & Hrun).
  set (psec := if first then DirectorySector else fhSector f) in *.
  assert (Hpsec : psec = sec) by (subst psec; destruct first; congruence).
  set (s := Directory.Find table c (match rest with [] => dir | _ => DIR end)) in *.
  simpl in Hrun.
  destruct (Z.eqb_spec s INVALID_SECTOR) as [Hs|Hs].
  { inversion Hrun; subst f'. simpl in Hf'. congruence. }
  apply bind_Ret in Hrun as (file1 & Hopen & Hrun).
  destruct rest as [|c' rest'].
  - simpl in Hrun. inversion Hrun; subst f'. simpl.
    exists [], c, file, sec. repeat split.
    + constructor.
    + unfold dir_lookup. rewrite Htable. reflexivity.
    + exact Hs.
    + exact Hpsec.
  - destruct (IH false (set_fhSector (set_pFhSector f psec) s) file1 s f')
      as (mid & c0 & parent & psec0 & Hmid & Hwalk & Hlook & Hvalid & Hp);
      [reflexivity | exact Hrun | exact Hf | exact Hf' | discriminate |].
    exists (c :: mid), c0, parent, psec0. repeat split.
    + simpl. congruence.
    + econstructor; [|exact Hs|exact Hopen|exact Hwalk].
      unfold dir_lookup. rewrite Htable. reflexivity.
    + exact Hlook.
    + exact Hvalid.
    + exact Hp.
Qed.

Lemma find_loop_complete {mem : Memory}
    (fuel : nat) (d : SynchDisk) (dir : bool) :
  forall mid first f file sec parent psec c s,
    (if first : bool then sec = DirectorySector else fhSector f = sec) ->
    walks fuel d file sec mid parent psec ->
    dir_lookup fuel d parent c dir = Ret s ->
    (s <> INVALID_SECTOR -> returns (OpenFile.new fuel d s)) ->
    find_loop fuel d dir (mid ++ [c]) first f file =
    Ret {| exist := if s =? INVALID_SECTOR then exist f else true;
           pFhSector := psec; fhSector := s; filename := filename f |}.
Proof.
  induction mid as [|c0 mid IH];
    intros first f file sec parent psec c s Hsec Hwalk Hlook Hopen.
  - inversion Hwalk; subst. simpl.
    unfold dir_lookup in Hlook.
    apply bind_Ret in Hlook as (table & Htable & Hfind).
    rewrite Htable. simpl. inversion Hfind as [Hs]. rewrite Hs.
    assert (Hp : (if first then DirectorySector else fhSector f) = psec)
      by (destruct first; congruence).
    rewrite Hp.
    destruct (Z.eqb_spec s INVALID_SECTOR) as [E|E].
    + reflexivity.
    + destruct (Hopen E) as [file1 Hfile1]. rewrite Hfile1. reflexivity.
  - inversion Hwalk as [|? ? ? s0 file1 ? ? ? Hl0 Hs0 Ho0 Hw0]; subst.
    change ((c0 :: mid) ++ [c]) with (c0 :: (mid ++ [c])).
    cbn [find_loop].
    unfold dir_lookup in Hl0.
    apply bind_Ret in Hl0 as (table & Htable & Hfind).
    rewrite Htable. cbn [mbind outcome_bind].
    assert (Hm : match mid ++ [c] with [] => dir | _ => DIR end = DIR)
      by (destruct mid; reflexivity).
    rewrite Hm. inversion Hfind as [Hs]. rewrite Hs.
    cbn [fhSector set_fhSector].
    destruct (Z.eqb_spec s0 INVALID_SECTOR) as [E|E]; [contradiction|].
    rewrite Ho0. cbn [mbind outcome_bind].
    rewrite (IH false
               (set_fhSector
                  (set_pFhSector f
                     (if first then DirectorySector else fhSector f)) s0)
               file1 s0 parent psec c s eq_refl Hw0 Hlook Hopen).
    reflexivity.
Qed.

(** What [find] found is what the path names. *)
Lemma find_sound {mem : Memory} (fuel : nat) (d : SynchDisk) (f f' : FileFinder)
    (nm : string) (dir : bool) (root : OpenFile) :
  find fuel d f nm dir root = Ret f' ->
  exist f = false -> exist f' = true ->
  (2 <= length (fst (splitPath nm)))%nat ->
  resolves fuel d root nm dir (fhSector f').
Proof.
  unfold find, resolves. intros Hrun Hf Hf' Hlen.
  destruct (splitPath nm) as [path exceed] eqn:Hsplit. simpl in *.
  destruct exceed.
  { inversion Hrun; subst f'. simpl in Hf'. congruence. }
  split; [reflexivity|].
  destruct (String.eqb_spec (c_str nm) "/") as [Hroot|Hroot].
  - left. apply bind_Ret in Hrun as (u & Hassert & Hrun).
    apply ASSERT_Ret in Hassert. inversion Hrun; subst f'.
    repeat split; [exact Hroot | exact Hassert].
  - right. split; [exact Hroot|].
    destruct path as [|x comps]; [simpl in Hlen; lia|].
    simpl in Hrun.
    destruct (find_loop_sound fuel d dir comps true _ root DirectorySector f'
                eq_refl Hrun Hf Hf')
      as (mid & c & parent & psec & Hmid & Hwalk & Hlook & Hvalid & _).
    { destruct comps; [simpl in Hlen; lia | discriminate]. }
    exists x, mid, c, parent, psec. subst comps. auto.
Qed.

(** What the path names is what [find] finds. *)
Lemma find_complete {mem : Memory} (fuel : nat) (d : SynchDisk) (f : FileFinder)
    (nm : string) (dir : bool) (root : OpenFile) (s : Z) :
  resolves fuel d root nm dir s ->
  c_str nm <> "/"%string ->
  returns (OpenFile.new fuel d s) ->
  exists f', find fuel d f nm dir root = Ret f'
             /\ exist f' = true /\ fhSector f' = s.
Proof.
  unfold find, resolves. intros [Hflag [[Hroot _]|[_ Hwalk]]] Hne Hopen;
    [contradiction|].
  destruct Hwalk as (x & mid & c & parent & psec & Hpath & Hwalk & Hlook & Hs).
  destruct (splitPath nm) as [path exceed]. simpl in *. subst path exceed.
  destruct (String.eqb_spec (c_str nm) "/") as [E|_]; [contradiction|].
  simpl.
  erewrite find_loop_complete; [|reflexivity|exact Hwalk|exact Hlook|auto].
  destruct (Z.eqb_spec s INVALID_SECTOR) as [E|_]; [contradiction|].
  eexists. split; [reflexivity|]. split; reflexivity.
Qed.


Lemma splitPath_loop_c_str (str : string) :
  forall result token i,
    splitPath_loop str result token i
    = splitPath_loop (c_str str) result token i.
Proof.
  induction str as [|c str IH]; intros result token i; [reflexivity|].
  simpl. destruct (is_NUL c) eqn:Hc; [reflexivity|].
  simpl. rewrite Hc. destruct (is_slash c); apply IH.
Qed.

Lemma splitPath_c_str (nm : string) : splitPath nm = splitPath (c_str nm).
Proof. unfold splitPath. rewrite splitPath_loop_c_str. reflexivity. Qed.

(** A path without any slash: nothing is looked up. *)
Lemma find_one_component {mem : Memory}
    (fuel : nat) (d : SynchDisk) (f f' : FileFinder)
    (nm : string) (dir : bool) (root : OpenFile) :
  (length (fst (splitPath nm)) < 2)%nat ->
  find fuel d f nm dir root = Ret f' ->
  fhSector f' = fhSector f
  /\ exist f' = (if snd (splitPath nm) then exist f else true).
Proof.
  unfold find. intros Hlen Hrun.
  destruct (String.eqb_spec (c_str nm) "/") as [Hroot|Hroot].
  { exfalso. rewrite splitPath_c_str, Hroot in Hlen. simpl in Hlen. lia. }
  destruct (splitPath nm) as [path exceed] eqn:Hsplit. simpl in *.
  destruct exceed; [inversion Hrun; subst f'; auto|].
  destruct path as [|x [|y path]]; simpl in Hlen; try lia.
  - pose proof (splitPath_nonempty nm) as Hn. rewrite Hsplit in Hn.
    simpl in Hn. congruence.
  - simpl in Hrun. inversion Hrun; subst f'. auto.
Qed.






(** A path of 255 bytes that names a file is found. *)
Example deep_path_found {mem : Memory} :
  strlen deep_path = 255
  /\ find 10 (snd (state_of (script 10 320 deep_tree))) FileFinder_new
       deep_path FILE (directoryFile (fst (state_of (script 10 320 deep_tree))))
     = Ret {| exist := true; pFhSector := 277; fhSector := 288;
              filename := "bbbb" |}.
Proof. split; vm_compute; reflexivity. Qed.

(** What [find] found, also for a path that has no slash. *)
Lemma find_found {mem : Memory} (fuel : nat) (d : SynchDisk) (f f' : FileFinder)
    (nm : string) (dir : bool) (root : OpenFile) :
  find fuel d f nm dir root = Ret f' ->
  exist f = false -> exist f' = true ->
  resolves fuel d root nm dir (fhSector f')
  \/ ((length (fst (splitPath nm)) < 2)%nat
      /\ snd (splitPath nm) = false /\ fhSector f' = fhSector f).
Proof.
  intros Hrun Hf Hf'.
  destruct (le_lt_dec 2 (length (fst (splitPath nm)))) as [Hlen|Hlen].
  - left. eapply find_sound; eauto.
  - right. destruct (find_one_component _ _ _ _ _ _ _ Hlen Hrun) as [Hs He].
    split; [lia|]. split; [|exact Hs].
    destruct (snd (splitPath nm)); [congruence | reflexivity].
Qed.

(** [Open] hands out a file only for a path that names something. *)
Lemma Open_Ret_inv {mem : Memory} (fuel : nat) (fs : FileSystem) (nm : string)
    (d : SynchDisk) (h : OpenFile) :
  Open fuel fs nm d = Ret h ->
  exists dir s,
    resolves fuel d (directoryFile fs) nm dir s
    /\ 0 <= s /\ OpenFile.new fuel d s = Ret h.
Proof.
  unfold Open. intros Hrun.
  apply bind_Ret in Hrun as (f1 & Hf1 & Hrun).
  apply bind_Ret in Hrun as (f2 & Hf2 & Hrun).
  apply bind_Ret in Hrun as (u & Hassert & Hrun).
  apply ASSERT_Ret, andb_prop in Hassert as [He Hs].
  apply Z.leb_le in Hs.
  destruct (exist f1) eqn:He1.
  - inversion Hf2; subst f2.
    destruct (find_found _ _ _ _ _ _ _ Hf1 eq_refl He1) as [Hres|(_ & _ & Hsec)].
    + exists FILE, (fhSector f1). auto.
    + simpl in Hsec. unfold INVALID_SECTOR in Hsec. lia.
  - destruct (find_found _ _ _ _ _ _ _ Hf2 He1 He) as [Hres|(Hlen & Hflag & _)].
    + exists DIR, (fhSector f2). auto.
    + destruct (find_one_component _ _ _ _ _ _ _ Hlen Hf1) as [_ He1'].
      rewrite Hflag in He1'. congruence.
Qed.

(** C10.  For a path that names neither a file nor a directory, [Open]
    never returns a file: its only returns are through the failed
    assertion, which ends the process.  (Running out of fuel is the only
    other outcome of the model.)  So a file returned by [Open] is the file
    of an object that the path names. *)
Theorem Open_missing_path_aborts {mem : Memory}
    (fuel : nat) (fs : FileSystem) (nm : string)
    (d : SynchDisk) :
  (forall s, ~ resolves fuel d (directoryFile fs) nm FILE s) ->
  (forall s, ~ resolves fuel d (directoryFile fs) nm DIR s) ->
  (forall h, Open fuel fs nm d <> Ret h)
  /\ (Open fuel fs nm d <> Diverge -> Open fuel fs nm d = Abort).
Proof.
  intros Hfile Hdir.
  assert (Hno : forall h, Open fuel fs nm d <> Ret h).
  { intros h Hrun. apply Open_Ret_inv in Hrun as (dir & s & Hres & _).
    destruct dir; [exact (Hdir s Hres) | exact (Hfile s Hres)]. }
  split; [exact Hno|].
  destruct (Open fuel fs nm d) as [h| |] eqn:E.
  - exfalso. exact (Hno h eq_refl).
  - reflexivity.
  - congruence.
Qed.

Lemma no_walk_resolves {mem : Memory}
    (fuel : nat) (d : SynchDisk) (root : OpenFile)
    (nm : string) (dir : bool) (x c : string) :
  c_str nm <> "/"%string ->
  splitPath nm = ([x; c], false) ->
  dir_lookup fuel d root c dir = Ret INVALID_SECTOR ->
  forall s, ~ resolves fuel d root nm dir s.
Proof.
  intros Hne Hsplit Hlook s [_ [(Hroot & _ & _)|(_ & Hwalk)]];
    [contradiction|].
  destruct Hwalk as (x' & mid & c' & parent & psec & Hpath & Hwalk & Hl & Hs).
  rewrite Hsplit in Hpath. simpl in Hpath.
  destruct mid as [|m1 mid].
  - injection Hpath as -> ->. inversion Hwalk; subst.
    rewrite Hlook in Hl. congruence.
  - destruct mid; discriminate.
Qed.

Lemma Open_missing_path_aborts_witness :
  let fs := fst (state_of one_file) in
  let d := snd (state_of one_file) in
  (forall s, ~ resolves 10 d (directoryFile fs) "/zz" FILE s)
  /\ (forall s, ~ resolves 10 d (directoryFile fs) "/zz" DIR s)
  /\ Open 10 fs "/zz" d = Abort.
Proof.
  intros fs d.
  assert (Hfile : forall s, ~ resolves 10 d (directoryFile fs) "/zz" FILE s).
  { apply (no_walk_resolves _ _ _ _ _ "" "zz");
      [discriminate | reflexivity | vm_compute; reflexivity]. }
  assert (Hdir : forall s, ~ resolves 10 d (directoryFile fs) "/zz" DIR s).
  { apply (no_walk_resolves _ _ _ _ _ "" "zz");
      [discriminate | reflexivity | vm_compute; reflexivity]. }
  split; [exact Hfile|]. split; [exact Hdir|].
  apply (proj2 (Open_missing_path_aborts 10 fs "/zz" d Hfile Hdir)).
  vm_compute. discriminate.
Defined.

(** ** Removing what is not there *)

(** The sentence of the specification fails at the root: no file is named
    by ["/"], and [Remove] of it ends at the assertion of [find] that the
    root is asked for as a directory. *)
Lemma remove_of_missing_file_returns_false_fails :
  ~ remove_of_missing_file_returns_false.
Proof.
  intros H.
  specialize (H 10%nat (fst (state_of one_file)) (snd (state_of one_file))
                "/"%string).
  assert (Hrun : Remove 10 (fst (state_of one_file)) "/" false
                   (snd (state_of one_file)) = Abort)
    by (vm_compute; reflexivity).
  rewrite Hrun in H. 
  assert (Hno : forall s,
             ~ resolves 10 (snd (state_of one_file))
                 (directoryFile (fst (state_of one_file))) "/" FILE s).
  { intros s [_ [(_ & Hdir & _)|(Hne & _)]]; [discriminate|].
    apply Hne. reflexivity. }
  specialize (H Hno). discriminate H.
Qed.

(** C9.  [Remove(name, FALSE)] of a path at which no file exists does not
    always answer [FALSE].  No file is named by ["/"], whatever the disk
    holds, and the removal of ["/"] ends at the assertion of [find] that
    the root is asked for as a directory; so it does on the disk with the
    one file [/a], also after the recursive removal of ["/"] has answered
    [TRUE].  No file is named by a path without a slash either, and the
    removal of [zz] ends at the assertion of [returnSectorsToFreeMap] on
    the sector of the header, [find] having said [exist] with no sector. *)
Theorem Remove_of_root_aborts {mem : Memory} :
  (forall (fuel : nat) (fs : FileSystem) (d : SynchDisk),
      (forall s, ~ resolves fuel d (directoryFile fs) "/" FILE s)
      /\ Remove fuel fs "/" false d = Abort)
  /\ ('(ok, d1) ← Remove 10 (fst (state_of one_file)) "/" true
                    (snd (state_of one_file));
      Ret (ok, Remove 10 (fst (state_of one_file)) "/" false d1))
     = Ret (true, Abort)
  /\ (forall s,
         ~ resolves 10 (snd (state_of one_file))
             (directoryFile (fst (state_of one_file))) "zz" FILE s)
  /\ Remove 10 (fst (state_of one_file)) "zz" false (snd (state_of one_file))
     = Abort.
Proof.
  split; [|split; [|split]].
  - intros fuel fs d. split; [|reflexivity].
    intros s [_ [(_ & Hdir & _)|(Hne & _)]]; [discriminate|].
    apply Hne. reflexivity.
  - vm_compute. reflexivity.
  - intros s [_ [(Hroot & _)|(_ & Hwalk)]]; [discriminate Hroot|].
    destruct Hwalk as (x & mid & c & parent & psec & Hpath & _).
    apply (f_equal length) in Hpath. rewrite length_cons, length_app in Hpath.
    simpl in Hpath. lia.
  - vm_compute. reflexivity.
Qed.

(** Where the sentence does hold.  For a path with a slash in it whose
    lookup as a file comes to an end, and which names no file,
    [Remove(name, FALSE)] answers [FALSE] and the disk, with the history
    of its writes, is as before. *)
Lemma Remove_missing_file {mem : Memory}
    (fuel : nat) (fs : FileSystem) (d : SynchDisk)
    (nm : string) (f : FileFinder) :
  (2 <= length (fst (splitPath nm)))%nat ->
  find fuel d FileFinder_new nm FILE (directoryFile fs) = Ret f ->
  (forall s, ~ resolves fuel d (directoryFile fs) nm FILE s) ->
  Remove fuel fs nm false d = Ret (false, d).
Proof.
  intros Hlen Hfind Hno. unfold Remove, Remove_file. rewrite Hfind.
  cbn [mbind outcome_bind].
  destruct (exist f) eqn:He; [|reflexivity].
  exfalso. apply (Hno (fhSector f)).
  eapply find_sound; eauto.
Qed.

Example Remove_missing_file_zz {mem : Memory} :
  let fs := fst (state_of one_file) in
  let d := snd (state_of one_file) in
  (forall s, ~ resolves 10 d (directoryFile fs) "/zz" FILE s)
  /\ Remove 10 fs "/zz" false d = Ret (false, d).
Proof.
  intros fs d.
  assert (Hfile : forall s, ~ resolves 10 d (directoryFile fs) "/zz" FILE s).
  { apply (no_walk_resolves _ _ _ _ _ "" "zz");
      [discriminate | reflexivity | vm_compute; reflexivity]. }
  split; [exact Hfile|].
  eapply (Remove_missing_file 10 fs d "/zz").
  - vm_compute. lia.
  - vm_compute. reflexivity.
  - exact Hfile.
Qed.

(** After a successful removal the second one answers [FALSE] and writes
    nothing. *)
Example remove_twice {mem : Memory} :
  (let '(fs, d) := state_of one_file in
   '(r1, d1) ← Remove 10 fs "/a" false d;
   '(r2, d2) ← Remove 10 fs "/a" false d1;
   Ret (r1, r2, bool_decide (d2 = d1)))
  = Ret (true, false, true).
Proof. vm_compute. reflexivity. Qed.

(** ** Creating over an existing name *)

(** It fails after [mkdir /a]: the path names a directory, its header in
    sector 13, and [create /a 1] answers [TRUE]. *)
Lemma create_rejects_either_type_fails : ~ create_rejects_either_type.
Proof.
  intros H.
  specialize (H 10%nat (fst (state_of one_directory))
                (snd (state_of one_directory)) "/a"%string 1 DIR 13).
  assert (Hres : resolves 10 (snd (state_of one_directory))
                   (directoryFile (fst (state_of one_directory)))
                   "/a" DIR 13).
  { split; [reflexivity|]. right. split; [discriminate|].
    exists ""%string, [], "a"%string,
      (directoryFile (fst (state_of one_directory))), DirectorySector.
    split; [reflexivity|]. split; [constructor|].
    split; [vm_compute; reflexivity | discriminate]. }
  specialize (H Hres).
  apply (f_equal answer) in H.
  assert (Hrun : answer (Create 10 (fst (state_of one_directory)) "/a" 1
                           (snd (state_of one_directory))) = Ret true)
    by (vm_compute; reflexivity).
  rewrite Hrun in H. discriminate H.
Qed.

Lemma createFileOrDir_false_inv {mem : Memory}
    (fuel : nat) (fs : FileSystem) (nm : string)
    (dir : bool) (initialSize : Z) (d d' : SynchDisk) :
  createFileOrDir fuel fs nm dir initialSize d = Ret (false, d') ->
  d' = d
  /\ exists f, find fuel d FileFinder_new nm dir (directoryFile fs) = Ret f
               /\ exist f = true.
Proof.
  unfold createFileOrDir. intros Hrun.
  apply bind_Ret in Hrun as (f & Hf & Hrun).
  destruct (exist f) eqn:He.
  - injection Hrun as <-. split; [reflexivity|]. exists f. auto.
  - exfalso.
    apply bind_Ret in Hrun as (u1 & _ & Hrun).
    apply bind_Ret in Hrun as (freeMap & _ & Hrun).
    destruct (Bitmap.FindAndSet freeMap) as [sec freeMap1].
    apply bind_Ret in Hrun as (u2 & _ & Hrun).
    apply bind_Ret in Hrun as (openPfh & _ & Hrun).
    apply bind_Ret in Hrun as (pDir & _ & Hrun).
    destruct (Directory.Add pDir (filename f) sec dir) as [ok pDir1].
    apply bind_Ret in Hrun as (u3 & _ & Hrun).
    apply bind_Ret in Hrun as (u4 & _ & Hrun).
    apply bind_Ret in Hrun as ([[ok' fh] freeMap2] & _ & Hrun).
    apply bind_Ret in Hrun as (u5 & _ & Hrun).
    apply bind_Ret in Hrun as (d1 & _ & Hrun).
    apply bind_Ret in Hrun as (d2 & _ & Hrun).
    apply bind_Ret in Hrun as (d3 & _ & Hrun).
    apply bind_Ret in Hrun as (d4 & _ & Hrun).
    discriminate Hrun.
Qed.

(** C1, amended.  [Create] looks the name up as a file only.  When the
    path names a file (whose header can be read), [Create] answers [FALSE]
    and the disk is as before; and for a path with a slash in it that is
    the only way for [Create] to answer [FALSE]: a directory under the same
    name does not stand in the way. *)
Theorem create_existing_file_fails {mem : Memory} (fuel : nat) (fs : FileSystem)
    (d : SynchDisk) (nm : string) (initialSize : Z) :
  (forall s,
      resolves fuel d (directoryFile fs) nm FILE s ->
      returns (OpenFile.new fuel d s) ->
      Create fuel fs nm initialSize d = Ret (false, d))
  /\ ((2 <= length (fst (splitPath nm)))%nat ->
      forall d',
        Create fuel fs nm initialSize d = Ret (false, d') ->
        d' = d /\ exists s, resolves fuel d (directoryFile fs) nm FILE s).
Proof.
  split.
  - intros s Hres Hopen.
    assert (Hne : c_str nm <> "/"%string).
    { destruct Hres as [_ [(_ & Hdir & _)|(Hne & _)]];
        [discriminate | exact Hne]. }
    destruct (find_complete fuel d FileFinder_new nm FILE (directoryFile fs) s
                Hres Hne Hopen) as (f & Hf & He & _).
    unfold Create, createFileOrDir. rewrite Hf. cbn [mbind outcome_bind].
    rewrite He. reflexivity.
  - intros Hlen d' Hrun.
    apply createFileOrDir_false_inv in Hrun as (-> & f & Hf & He).
    split; [reflexivity|]. exists (fhSector f).
    eapply find_sound; eauto.
Qed.

Lemma create_existing_file_fails_witness :
  let fs := fst (state_of one_file) in
  let d := snd (state_of one_file) in
  resolves 10 d (directoryFile fs) "/a" FILE 13
  /\ returns (OpenFile.new 10 d 13)
  /\ Create 10 fs "/a" 1 d = Ret (false, d).
Proof.
  intros fs d.
  assert (Hres : resolves 10 d (directoryFile fs) "/a" FILE 13).
  { split; [reflexivity|]. right. split; [discriminate|].
    exists ""%string, [], "a"%string, (directoryFile fs), DirectorySector.
    split; [reflexivity|]. split; [constructor|].
    split; [vm_compute; reflexivity | discriminate]. }
  assert (Hopen : returns (OpenFile.new 10 d 13)).
  { eexists. vm_compute. reflexivity. }
  split; [exact Hres|]. split; [exact Hopen|].
  exact (proj1 (create_existing_file_fails 10 fs d "/a" 1) 13 Hres Hopen).
Defined.

(** ** The order of the writes *)

Lemma FileHeader_nested_ind (P : FileHeader -> Prop) :
  (forall nb nds secs mapping kids,
      Forall P kids -> P (Build_FileHeader nb nds secs mapping kids)) ->
  forall h, P h.
Proof.
  intros H. fix IH 1. intros [nb nds secs mapping kids]. apply H.
  induction kids as [|kid kids IHkids]; constructor; [apply IH | exact IHkids].
Qed.

Lemma WriteSector_writes (who : Writer) (s : Z) (data : Sector)
    (d d' : SynchDisk) :
  WriteSector who s data d = Ret d' -> writes d' = writes d ++ [(who, s)].
Proof.
  unfold WriteSector. intros H. apply bind_Ret in H as (u & _ & H).
  injection H as <-. reflexivity.
Qed.

Lemma write_children_writes
    (write : FileHeader -> Z -> SynchDisk -> outcome SynchDisk)
    (kids : list FileHeader) :
  Forall (fun kid => forall s d d',
              write kid s d = Ret d' ->
              exists l, writes d' = writes d ++ l /\ all_by ByFileHeader l)
         kids ->
  forall secs d d',
    write_children write secs kids d = Ret d' ->
    exists l, writes d' = writes d ++ l /\ all_by ByFileHeader l.
Proof.
  induction 1 as [|kid kids Hkid _ IH]; intros secs d d' Hrun.
  - exists []. destruct secs as [|s secs]; simpl in Hrun.
    + injection Hrun as <-. rewrite app_nil_r. split; [reflexivity|constructor].
    + destruct (s =? INVALID_SECTOR); [|discriminate].
      injection Hrun as <-. rewrite app_nil_r. split; [reflexivity|constructor].
  - destruct secs as [|s secs]; simpl in Hrun.
    { exists []. injection Hrun as <-. rewrite app_nil_r.
      split; [reflexivity|constructor]. }
    destruct (s =? INVALID_SECTOR).
    { exists []. injection Hrun as <-. rewrite app_nil_r.
      split; [reflexivity|constructor]. }
    apply bind_Ret in Hrun as (d1 & H1 & Hrun).
    destruct (Hkid _ _ _ H1) as (l1 & E1 & A1).
    destruct (IH _ _ _ Hrun) as (l2 & E2 & A2).
    exists (l1 ++ l2). rewrite E2, E1, app_assoc. split; [reflexivity|].
    apply Forall_app. split; assumption.
Qed.

Lemma WriteBack_writes (h : FileHeader) :
  forall s d d',
    WriteBack h s d = Ret d' ->
    exists l, writes d' = writes d ++ l /\ all_by ByFileHeader l.
Proof.
  induction h as [nb nds secs mapping kids IH] using FileHeader_nested_ind.
  intros s d d' Hrun. cbn [WriteBack] in Hrun.
  apply bind_Ret in Hrun as (d1 & H1 & Hrun).
  apply WriteSector_writes in H1.
  apply bind_Ret in Hrun as (lv & _ & Hrun).
  destruct lv as [|lv].
  - injection Hrun as <-. exists [(ByFileHeader, s)].
    split; [exact H1|]. repeat constructor.
  - cbn [dataSectors children] in Hrun.
    destruct (write_children_writes WriteBack kids IH _ _ _ Hrun)
      as (l & E & A).
    exists ((ByFileHeader, s) :: l). rewrite E, H1, <- app_assoc.
    split; [reflexivity|]. constructor; [reflexivity | exact A].
Qed.

Lemma WriteBack_writes_first (h : FileHeader) (s : Z) (d d' : SynchDisk) :
  WriteBack h s d = Ret d' ->
  exists l, writes d' = writes d ++ (ByFileHeader, s) :: l
            /\ all_by ByFileHeader l.
Proof.
  destruct h as [nb nds secs mapping kids]. intros Hrun.
  cbn [WriteBack] in Hrun.
  apply bind_Ret in Hrun as (d1 & H1 & Hrun).
  apply WriteSector_writes in H1.
  apply bind_Ret in Hrun as (lv & _ & Hrun).
  destruct lv as [|lv].
  - injection Hrun as <-. exists []. split; [exact H1|constructor].
  - cbn [dataSectors children] in Hrun.
    assert (Hk : Forall (fun kid => forall s d d',
                             WriteBack kid s d = Ret d' ->
                             exists l, writes d' = writes d ++ l
                                       /\ all_by ByFileHeader l) kids).
    { apply Forall_forall. intros kid _ s0 d0 d0' H0.
      exact (WriteBack_writes kid s0 d0 d0' H0). }
    destruct (write_children_writes WriteBack kids Hk _ _ _ Hrun)
      as (l & E & A).
    exists l. rewrite E, H1, <- app_assoc. split; [reflexivity | exact A].
Qed.

Lemma write_sectors_writes (who : Writer) (file : OpenFile) (n : nat) :
  forall from i d d',
    OpenFile.write_sectors who file from n i d = Ret d' ->
    exists l, writes d' = writes d ++ l /\ all_by who l.
Proof.
  induction n as [|n IH]; intros from i d d' Hrun; simpl in Hrun.
  - injection Hrun as <-. exists []. rewrite app_nil_r.
    split; [reflexivity|constructor].
  - apply bind_Ret in Hrun as (s & _ & Hrun).
    apply bind_Ret in Hrun as (data & _ & Hrun).
    apply bind_Ret in Hrun as (d1 & H1 & Hrun).
    apply WriteSector_writes in H1.
    destruct (IH _ _ _ _ Hrun) as (l & E & A).
    exists ((who, s) :: l). rewrite E, H1, <- app_assoc.
    split; [reflexivity|]. constructor; [reflexivity | exact A].
Qed.

Lemma WriteAt_writes (who : Writer) (file : OpenFile) (from : list Z)
    (d d' : SynchDisk) :
  OpenFile.WriteAt who file from d = Ret d' ->
  exists l, writes d' = writes d ++ l /\ all_by who l.
Proof.
  unfold OpenFile.WriteAt. intros Hrun.
  destruct ((Z.of_nat (length from) <=? 0) || (FileLength (hdr file) <=? 0)).
  - injection Hrun as <-. exists []. rewrite app_nil_r.
    split; [reflexivity|constructor].
  - eapply write_sectors_writes. exact Hrun.
Qed.

Lemma in_order_phases (hs ds bs : list (Writer * Z)) :
  all_by ByFileHeader hs -> all_by ByDirectory ds -> all_by ByBitmap bs ->
  in_order 0 (hs ++ ds ++ bs) = true.
Proof.
  intros Hh Hd Hb.
  assert (B : forall r, (r <= 2)%nat -> in_order r bs = true).
  { induction Hb as [|[w s] l Hw _ IH]; intros r Hr; [reflexivity|].
    simpl in *. subst w. simpl. rewrite IH by lia.
    destruct r as [|[|[|r]]]; try lia; reflexivity. }
  assert (D : forall r, (r <= 1)%nat -> in_order r (ds ++ bs) = true).
  { induction Hd as [|[w s] l Hw _ IH]; intros r Hr; [apply B; lia|].
    simpl in *. subst w. simpl. rewrite IH by lia.
    destruct r as [|[|r]]; try lia; reflexivity. }
  induction Hh as [|[w s] l Hw _ IH]; [apply D; lia|].
  simpl in *. subst w. simpl. exact IH.
Qed.

Lemma remove_of_a_runs {mem : Memory} :
  run_op 10 (fst (state_of one_file)) (OpRemove "/a" false)
    (snd (state_of one_file))
  = Ret (true,
         disk_after (Remove 10 (fst (state_of one_file)) "/a" false
                       (snd (state_of one_file)))).
Proof. vm_compute. reflexivity. Qed.

Lemma remove_of_a_writes {mem : Memory} :
  drop (length (writes (snd (state_of one_file))))
    (writes (disk_after (Remove 10 (fst (state_of one_file)) "/a" false
                           (snd (state_of one_file)))))
  = (ByBitmap, 2)
    :: map (fun s => (ByDirectory, s)) [3; 4; 5; 6; 7; 8; 9; 10; 11; 12].
Proof. vm_compute. reflexivity. Qed.

(** It fails for the removal of a file: the bitmap goes first, the parent
    directory after it. *)
Lemma bitmap_is_written_last_fails : ~ bitmap_is_written_last.
Proof.
  intros H.
  destruct (H _ _ _ _ _ remove_of_a_runs) as (hs & ds & bs & E & Hh & Hd & Hb).
  pose proof remove_of_a_writes as Hnew.
  revert E Hnew.
  generalize (disk_after (Remove 10 (fst (state_of one_file)) "/a" false
                            (snd (state_of one_file)))).
  generalize (snd (state_of one_file)).
  intros d d' E Hnew.
  rewrite E, drop_app_length in Hnew.
  apply (f_equal (in_order 0)) in Hnew.
  rewrite in_order_phases in Hnew by assumption. discriminate Hnew.
Qed.

Lemma Directory_WriteBack_writes (table : Directory.t) (file : OpenFile)
    (d d' : SynchDisk) :
  Directory.WriteBack table file d = Ret d' ->
  exists l, writes d' = writes d ++ l /\ all_by ByDirectory l.
Proof. apply WriteAt_writes. Qed.

Lemma PersistentBitmap_WriteBack_writes (m : Bitmap.t) (file : OpenFile)
    (d d' : SynchDisk) :
  PersistentBitmap.WriteBack m file d = Ret d' ->
  exists l, writes d' = writes d ++ l /\ all_by ByBitmap l.
Proof. apply WriteAt_writes. Qed.

Lemma createFileOrDir_writes {mem : Memory}
    (fuel : nat) (fs : FileSystem) (nm : string)
    (dir : bool) (initialSize : Z) (d d' : SynchDisk) :
  createFileOrDir fuel fs nm dir initialSize d = Ret (true, d') ->
  exists s hs ds bs ds',
    writes d' = writes d ++ (ByFileHeader, s) :: hs ++ ds ++ bs ++ ds'
    /\ all_by ByFileHeader hs /\ all_by ByDirectory ds /\ all_by ByBitmap bs
    /\ all_by ByDirectory ds' /\ (dir = FILE -> ds' = []).
Proof.
  unfold createFileOrDir. intros Hrun.
  apply bind_Ret in Hrun as (f & _ & Hrun).
  destruct (exist f); [discriminate|].
  apply bind_Ret in Hrun as (u1 & _ & Hrun).
  apply bind_Ret in Hrun as (freeMap & _ & Hrun).
  destruct (Bitmap.FindAndSet freeMap) as [sec freeMap1].
  apply bind_Ret in Hrun as (u2 & _ & Hrun).
  apply bind_Ret in Hrun as (openPfh & _ & Hrun).
  apply bind_Ret in Hrun as (pDir & _ & Hrun).
  destruct (Directory.Add pDir (filename f) sec dir) as [ok pDir1].
  apply bind_Ret in Hrun as (u3 & _ & Hrun).
  apply bind_Ret in Hrun as (u4 & _ & Hrun).
  apply bind_Ret in Hrun as ([[ok' fh] freeMap2] & _ & Hrun).
  apply bind_Ret in Hrun as (u5 & _ & Hrun).
  apply bind_Ret in Hrun as (d1 & H1 & Hrun).
  apply bind_Ret in Hrun as (d2 & H2 & Hrun).
  apply bind_Ret in Hrun as (d3 & H3 & Hrun).
  apply bind_Ret in Hrun as (d4 & H4 & Hrun).
  injection Hrun as <-.
  apply WriteBack_writes_first in H1 as (hs & E1 & A1).
  apply Directory_WriteBack_writes in H2 as (ds & E2 & A2).
  apply PersistentBitmap_WriteBack_writes in H3 as (bs & E3 & A3).
  assert (H4' : exists ds', writes d4 = writes d3 ++ ds'
                            /\ all_by ByDirectory ds'
                            /\ (dir = FILE -> ds' = [])).
  { destruct dir.
    - apply bind_Ret in H4 as (openFh & _ & H4).
      apply Directory_WriteBack_writes in H4 as (ds' & E4 & A4).
      exists ds'. split; [exact E4|]. split; [exact A4 | discriminate].
    - injection H4 as <-. exists []. rewrite app_nil_r.
      split; [reflexivity|]. split; [constructor | reflexivity]. }
  destruct H4' as (ds' & E4 & A4 & Hfile).
  exists sec, hs, ds, bs, ds'.
  rewrite E4, E3, E2, E1.
  repeat rewrite <- app_assoc. simpl. repeat rewrite <- app_assoc.
  auto 10.
Qed.

Lemma Remove_file_writes {mem : Memory}
    (fuel : nat) (fs : FileSystem) (nm : string)
    (d d' : SynchDisk) :
  Remove_file fuel fs nm d = Ret (true, d') ->
  exists bs ds,
    writes d' = writes d ++ bs ++ ds
    /\ all_by ByBitmap bs /\ all_by ByDirectory ds.
Proof.
  unfold Remove_file. intros Hrun.
  apply bind_Ret in Hrun as (f & _ & Hrun).
  destruct (negb (exist f)); [discriminate|].
  apply bind_Ret in Hrun as (freeMap & _ & Hrun).
  apply bind_Ret in Hrun as (freeMap1 & _ & Hrun).
  apply bind_Ret in Hrun as (openPfh & _ & Hrun).
  apply bind_Ret in Hrun as (pDir & _ & Hrun).
  destruct (Directory.Remove pDir (filename f) FILE) as [ok pDir1].
  apply bind_Ret in Hrun as (u & _ & Hrun).
  apply bind_Ret in Hrun as (d1 & H1 & Hrun).
  apply bind_Ret in Hrun as (d2 & H2 & Hrun).
  injection Hrun as <-.
  apply PersistentBitmap_WriteBack_writes in H1 as (bs & E1 & A1).
  apply Directory_WriteBack_writes in H2 as (ds & E2 & A2).
  exists bs, ds. rewrite E2, E1, <- app_assoc. auto.
Qed.

(** C7, amended.  The writes of the operations that answer [TRUE]:
    [Create] writes the new header (with the headers below it), then the
    parent directory, then the bitmap; [Mkdir] does the same and after the
    bitmap writes the empty table of the new directory; the removal of a
    file writes the bitmap and then the parent directory; the recursive
    removal of a directory writes the table of that directory and then the
    bitmap, and for a path that names no directory it is the removal of a
    file. *)
Theorem write_order {mem : Memory} (fuel : nat) (fs : FileSystem) (nm : string)
    (d d' : SynchDisk) :
  (forall initialSize,
      Create fuel fs nm initialSize d = Ret (true, d') ->
      exists s hs ds bs,
        writes d' = writes d ++ (ByFileHeader, s) :: hs ++ ds ++ bs
        /\ all_by ByFileHeader hs /\ all_by ByDirectory ds
        /\ all_by ByBitmap bs)
  /\ (Mkdir fuel fs nm d = Ret (true, d') ->
      exists s hs ds bs ds',
        writes d' = writes d ++ (ByFileHeader, s) :: hs ++ ds ++ bs ++ ds'
        /\ all_by ByFileHeader hs /\ all_by ByDirectory ds
        /\ all_by ByBitmap bs /\ all_by ByDirectory ds')
  /\ (Remove fuel fs nm false d = Ret (true, d') ->
      exists bs ds,
        writes d' = writes d ++ bs ++ ds
        /\ all_by ByBitmap bs /\ all_by ByDirectory ds)
  /\ (Remove fuel fs nm true d = Ret (true, d') ->
      forall f,
        find fuel d FileFinder_new nm DIR (directoryFile fs) = Ret f ->
        if exist f then
          exists ds bs,
            writes d' = writes d ++ ds ++ bs
            /\ all_by ByDirectory ds /\ all_by ByBitmap bs
        else
          exists bs ds,
            writes d' = writes d ++ bs ++ ds
            /\ all_by ByBitmap bs /\ all_by ByDirectory ds).
Proof.
  split; [|split; [|split]].
  - intros initialSize Hrun.
    apply createFileOrDir_writes in Hrun
      as (s & hs & ds & bs & ds' & E & Ah & Ad & Ab & _ & Hfile).
    rewrite (Hfile eq_refl), app_nil_r in E.
    exists s, hs, ds, bs. auto.
  - intros Hrun.
    apply createFileOrDir_writes in Hrun
      as (s & hs & ds & bs & ds' & E & Ah & Ad & Ab & Ad' & _).
    exists s, hs, ds, bs, ds'. auto 10.
  - unfold Remove. apply Remove_file_writes.
  - unfold Remove, recursivelyRemove. intros Hrun f Hf.
    rewrite Hf in Hrun. cbn [mbind outcome_bind] in Hrun.
    destruct (exist f); cbn [negb] in Hrun.
    + apply bind_Ret in Hrun as (freeMap & _ & Hrun).
      apply bind_Ret in Hrun as (openfh & _ & Hrun).
      apply bind_Ret in Hrun as (dir & _ & Hrun).
      apply bind_Ret in Hrun as ([[ok dir1] freeMap1] & _ & Hrun).
      apply bind_Ret in Hrun as (u & _ & Hrun).
      apply bind_Ret in Hrun as (d1 & H1 & Hrun).
      apply bind_Ret in Hrun as (d2 & H2 & Hrun).
      injection Hrun as <-.
      apply Directory_WriteBack_writes in H1 as (ds & E1 & A1).
      apply PersistentBitmap_WriteBack_writes in H2 as (bs & E2 & A2).
      exists ds, bs. rewrite E2, E1, <- app_assoc. auto.
    + eapply Remove_file_writes. exact Hrun.
Qed.

Lemma create_of_b_runs {mem : Memory} :
  Create 10 (fst (state_of one_file)) "/b" 4000 (snd (state_of one_file))
  = Ret (true,
         disk_after (Create 10 (fst (state_of one_file)) "/b" 4000
                       (snd (state_of one_file)))).
Proof. vm_compute. reflexivity. Qed.

Lemma write_order_witness :
  Create 10 (fst (state_of one_file)) "/b" 4000 (snd (state_of one_file))
  = Ret (true,
         disk_after (Create 10 (fst (state_of one_file)) "/b" 4000
                       (snd (state_of one_file))))
  /\ exists s hs ds bs,
       writes (disk_after (Create 10 (fst (state_of one_file)) "/b" 4000
                             (snd (state_of one_file))))
       = writes (snd (state_of one_file)) ++ (ByFileHeader, s) :: hs ++ ds ++ bs
       /\ all_by ByFileHeader hs /\ all_by ByDirectory ds
       /\ all_by ByBitmap bs.
Proof.
  split; [exact create_of_b_runs|].
  exact (proj1 (write_order 10 _ _ _ _) 4000 create_of_b_runs).
Defined.

(** The writes of [mkdir /d] on the formatted disk: the header, the root
    directory, the bitmap, and only then the table of [/d]. *)
Example mkdir_writes {mem : Memory} :
  drop (length (writes (snd (state_of (script 10 1024 [])))))
    (writes (snd (state_of (script 10 1024 [OpMkdir "/d"]))))
  = [(ByFileHeader, 13)]
    ++ map (fun s => (ByDirectory, s)) [3; 4; 5; 6; 7; 8; 9; 10; 11; 12]
    ++ [(ByBitmap, 2)]
    ++ map (fun s => (ByDirectory, s)) [14; 15; 16; 17; 18; 19; 20; 21; 22; 23].
Proof. vm_compute. reflexivity. Qed.

(** ** The bitmap *)

Module BitmapFacts.

Lemma NumClear_nonneg (m : Bitmap.t) : 0 <= Bitmap.NumClear m.
Proof. induction m as [|[] m IH]; simpl; lia. Qed.

Lemma NumClear_insert (m : list bool) :
  forall k, m !! k = Some false ->
            Bitmap.NumClear (<[k := true]> m) = Bitmap.NumClear m - 1.
Proof.
  induction m as [|b m IH]; intros [|k] Hk; try discriminate.
  - simpl in *. injection Hk as ->. lia.
  - specialize (IH k Hk). simpl in *. lia.
Qed.

Lemma find_clear_spec (m : Bitmap.t) :
  forall i, 0 <= i ->
    (Bitmap.NumClear m = 0 /\ Bitmap.find_clear m i = -1)
    \/ exists k, Bitmap.find_clear m i = i + Z.of_nat k
                 /\ m !! k = Some false.
Proof.
  induction m as [|b m IH]; intros i Hi; simpl.
  - left. auto.
  - destruct b.
    + destruct (IH (i + 1)) as [[H0 H1]|(k & Hk & Hm)]; [lia| |].
      * left. split; [lia | exact H1].
      * right. exists (S k). split; [lia | exact Hm].
    + right. exists 0%nat. split; [lia | reflexivity].
Qed.

(** With a clear bit left, [FindAndSet] gives a sector and one bit less is
    clear. *)
Lemma FindAndSet_some (m : Bitmap.t) :
  0 < Bitmap.NumClear m ->
  exists s m', Bitmap.FindAndSet m = (s, m') /\ 0 <= s
               /\ Bitmap.NumClear m' = Bitmap.NumClear m - 1.
Proof.
  intros Hpos. unfold Bitmap.FindAndSet.
  destruct (find_clear_spec m 0) as [[H0 _]|(k & Hk & Hm)]; [lia | lia |].
  rewrite Z.add_0_l in Hk. rewrite Hk.
  destruct (Z.ltb_spec (Z.of_nat k) 0) as [Hneg|_]; [lia|].
  exists (Z.of_nat k), (Bitmap.Mark (Z.of_nat k) m).
  split; [reflexivity|]. split; [lia|].
  unfold Bitmap.Mark.
  destruct (Z.ltb_spec (Z.of_nat k) 0) as [Hneg|_]; [lia|].
  rewrite Nat2Z.id. apply NumClear_insert. exact Hm.
Qed.

End BitmapFacts.

(** ** Allocation with room enough *)

Lemma whichLv_eq (n : Z) :
  whichLv n =
  if n <=? 3840 then Ret 0%nat
  else if n <=? 115200 then Ret 1%nat
  else if n <=? 3456000 then Ret 2%nat
  else if n <=? 103680000 then Ret 3%nat
  else Abort.
Proof. reflexivity. Qed.

Lemma whichLv_Ret_inv (n : Z) (l : nat) :
  whichLv n = Ret l ->
  (l < 4)%nat /\ n <= MAX_SIZE l /\ forall j, (j < l)%nat -> MAX_SIZE j < n.
Proof.
  rewrite whichLv_eq. pose proof MAX_SIZE_values as (V0 & V1 & V2 & V3).
  intros H.
  destruct (Z.leb_spec n 3840);
    [|destruct (Z.leb_spec n 115200);
      [|destruct (Z.leb_spec n 3456000);
        [|destruct (Z.leb_spec n 103680000); [|discriminate]]]];
    injection H as <-; (split; [lia|]); (split; [lia|]);
    intros j Hj; do 3 (destruct j as [|j]; [lia|]); lia.
Qed.

Lemma whichLv_intro (n : Z) (l : nat) :
  (l < 4)%nat -> n <= MAX_SIZE l -> (forall j, (j < l)%nat -> MAX_SIZE j < n) ->
  whichLv n = Ret l.
Proof.
  intros Hl Hle Hlow.
  destruct (whichLv_loop_spec 4 0 n eq_refl) as [Hin _]; [intros j Hj; lia|].
  destruct Hin as (L & HL & Hr & Hm & Hs).
  { destruct (decide (l = 3%nat)) as [->|Hne]; [exact Hle|].
    pose proof (MAX_SIZE_mono l 3). lia. }
  change (whichLv_loop 4 0 n) with (whichLv n) in HL. rewrite HL. f_equal.
  destruct (lt_eq_lt_dec L l) as [[Hlt|Heq]|Hgt]; [|exact Heq|].
  - specialize (Hlow L Hlt). lia.
  - specialize (Hs l Hgt). lia.
Qed.

Lemma divRoundUp_sectors (n : Z) :
  0 <= n -> divRoundUp n SectorSize = (n + 127) / 128.
Proof.
  intros Hn. unfold divRoundUp, SectorSize.
  rewrite Z.quot_div_nonneg, Z.rem_mod_nonneg by lia.
  destruct (Z.ltb_spec 0 (n mod 128)); 
    pose proof (Z.div_mod n 128); pose proof (Z.mod_pos_bound n 128);
    pose proof (Z.div_mod (n + 127) 128);
    pose proof (Z.mod_pos_bound (n + 127) 128); lia.
Qed.

Lemma alloc_direct_ok (n : nat) :
  forall i freeMap secs mapping,
    (i + n <= length secs)%nat ->
    Z.of_nat n <= Bitmap.NumClear freeMap ->
    exists freeMap' secs' mapping',
      alloc_direct n i freeMap secs mapping = Ret (freeMap', secs', mapping')
      /\ Bitmap.NumClear freeMap' = Bitmap.NumClear freeMap - Z.of_nat n.
Proof.
  induction n as [|n IH]; intros i freeMap secs mapping Hlen Hfree.
  - exists freeMap, secs, mapping. split; [reflexivity | simpl; lia].
  - cbn [alloc_direct]. rewrite bool_decide_true by lia.
    cbn [ASSERT mbind outcome_bind].
    destruct (BitmapFacts.FindAndSet_some freeMap) as (s & m' & E & Hs & Hc);
      [lia|].
    rewrite E. apply Z.leb_le in Hs. rewrite Hs.
    cbn [ASSERT mbind outcome_bind].
    destruct (IH (S i) m' (<[i := s]> secs) (mapping ++ [s]))
      as (fm' & secs' & mapping' & Hrun & Hclear).
    + rewrite length_insert. lia.
    + lia.
    + exists fm', secs', mapping'. split; [exact Hrun | lia].
Qed.

Lemma sectors_needed_nonneg (fuel : nat) :
  forall n, 0 <= n -> 0 <= sectors_needed fuel n.
Proof.
  induction fuel as [|fuel IH]; intros n Hn; [simpl; lia|].
  cbn [sectors_needed].
  destruct (whichLv n) as [[|l]| |] eqn:Hlv; try lia.
  - rewrite divRoundUp_sectors by lia.
    apply Z.div_pos; lia.
  - apply whichLv_Ret_inv in Hlv as (Hl & _ & _).
    assert (HM : 0 < MAX_SIZE l) by (apply MAX_SIZE_pos; lia).
    pose proof (Z.mod_pos_bound n (MAX_SIZE l) HM) as Hmod.
    pose proof (Z.div_pos n (MAX_SIZE l) Hn HM) as Hdiv.
    pose proof (IH (MAX_SIZE l) ltac:(lia)) as H1.
    pose proof (IH (n mod MAX_SIZE l) ltac:(lia)) as H2.
    destruct (0 <? n mod MAX_SIZE l); nia.
Qed.

Lemma whichLv_below (size : Z) (l : nat) :
  (l < 4)%nat -> size <= MAX_SIZE l ->
  exists ls, whichLv size = Ret ls /\ (ls <= l)%nat.
Proof.
  intros Hl Hsize.
  destruct (whichLv_loop_spec 4 0 size eq_refl) as [Hin _]; [intros j Hj; lia|].
  destruct Hin as (L & HL & Hr & Hm & Hs).
  { destruct (decide (l = 3%nat)) as [->|Hne]; [exact Hsize|].
    pose proof (MAX_SIZE_mono l 3). lia. }
  exists L. split; [exact HL|].
  destruct (le_lt_dec L l) as [Hle|Hgt]; [exact Hle|].
  specialize (Hs l Hgt). lia.
Qed.

Lemma MAX_SIZE_sectors (l : nat) :
  (l < 4)%nat -> divRoundUp (MAX_SIZE l) SectorSize = MAX_SIZE l / 128
                 /\ MAX_SIZE l mod 128 = 0.
Proof.
  intros Hl. do 4 (destruct l as [|l]; [split; reflexivity|]). lia.
Qed.

(** The data sectors are part of the cost. *)
Lemma sectors_needed_data (fuel : nat) :
  forall n l,
    whichLv n = Ret l -> (l < fuel)%nat -> 0 <= n ->
    divRoundUp n SectorSize <= sectors_needed fuel n.
Proof.
  induction fuel as [|fuel IH]; intros n l Hlv Hl Hn; [lia|].
  cbn [sectors_needed]. rewrite Hlv. destruct l as [|l]; [lia|].
  apply whichLv_Ret_inv in Hlv as (Hl4 & Hle & _).
  assert (HM : 0 < MAX_SIZE l) by (apply MAX_SIZE_pos; lia).
  pose proof (Z.mod_pos_bound n (MAX_SIZE l) HM) as Hmod.
  pose proof (Z.div_pos n (MAX_SIZE l) Hn HM) as Hdiv.
  pose proof (Z.div_mod n (MAX_SIZE l) ltac:(lia)) as Hdm.
  assert (H1 : MAX_SIZE l / 128 <= sectors_needed fuel (MAX_SIZE l)).
  { rewrite <- (proj1 (MAX_SIZE_sectors l ltac:(lia))).
    apply (IH _ l); [|lia|lia].
    apply whichLv_threshold. lia. }
  assert (H2 : divRoundUp (n mod MAX_SIZE l) SectorSize
               <= sectors_needed fuel (n mod MAX_SIZE l)).
  { destruct (whichLv_below (n mod MAX_SIZE l) l) as (ls & Hls & Hlsl);
      [lia | lia |].
    apply (IH _ ls); [exact Hls | lia | lia]. }
  rewrite divRoundUp_sectors in * by lia.
  pose proof (proj2 (MAX_SIZE_sectors l ltac:(lia))) as Hk.
  set (M := MAX_SIZE l) in *. set (q := n / M) in *. set (r := n mod M) in *.
  set (X := sectors_needed fuel M) in *. set (Y := sectors_needed fuel r) in *.
  assert (HMk : M = 128 * (M / 128)).
  { pose proof (Z.div_mod M 128 ltac:(lia)). lia. }
  set (k := M / 128) in *.
  assert (Hq : q * k <= q * (1 + X)) by nia.
  assert (Hn' : (n + 127) / 128 = q * k + (r + 127) / 128).
  { replace (n + 127) with ((r + 127) + (q * k) * 128) by nia.
    rewrite Z.div_add by lia. lia. }
  destruct (Z.ltb_spec 0 r) as [Hr|Hr].
  - lia.
  - assert (r = 0) by lia. subst r.
    replace ((n mod M + 127) / 128) with 0 in *; [lia|].
    rewrite H. reflexivity.
Qed.

Lemma insert_first_sentinel (good : list Z) (k : nat) (s x : Z) :
  <[length good := s]> (good ++ replicate (S k) x)
  = (good ++ [s]) ++ replicate k x.
Proof.
  rewrite insert_app_r_alt by lia. rewrite Nat.sub_diag. simpl.
  rewrite <- app_assoc. reflexivity.
Qed.

Lemma div_mod_shift (r M : Z) :
  0 < M -> r / M = (r - M) / M + 1 /\ r mod M = (r - M) mod M.
Proof.
  intros HM. replace r with ((r - M) + 1 * M) at 1 3 by lia.
  rewrite Z.div_add, Z.mod_add by lia. split; reflexivity.
Qed.

Lemma chunk_list_full (r M : Z) :
  0 < M -> M <= r -> chunk_list r M = M :: chunk_list (r - M) M.
Proof.
  intros HM Hr. unfold chunk_list.
  destruct (div_mod_shift r M HM) as [E1 E2]. rewrite E1, E2.
  assert (0 <= (r - M) / M) by (apply Z.div_pos; lia).
  replace (Z.to_nat ((r - M) / M + 1)) with (S (Z.to_nat ((r - M) / M))) by lia.
  reflexivity.
Qed.

Lemma chunk_list_rest (r M : Z) :
  0 < r < M -> chunk_list r M = [r].
Proof.
  intros Hr. unfold chunk_list.
  rewrite Z.div_small, Z.mod_small by lia. simpl.
  destruct (Z.ltb_spec 0 r); [reflexivity | lia].
Qed.

Lemma chunk_list_zero (M : Z) : 0 < M -> chunk_list 0 M = [].
Proof.
  intros HM. unfold chunk_list. rewrite Z.div_0_l, Z.mod_0_l by lia.
  reflexivity.
Qed.

Section AllocChildren.

Variable alloc : Bitmap.t -> Z -> outcome (bool * FileHeader * Bitmap.t).
Variable need : Z -> Z.
Variable M : Z.

Hypothesis M_pos : 0 < M.
Hypothesis need_nonneg : forall size, 0 <= size -> 0 <= need size.
Hypothesis alloc_ok :
  forall freeMap size,
    0 < size <= M -> need size <= Bitmap.NumClear freeMap ->
    exists kid freeMap',
      alloc freeMap size = Ret (true, kid, freeMap')
      /\ numBytes kid = size
      /\ Bitmap.NumClear freeMap' = Bitmap.NumClear freeMap - need size.

Lemma need_chunks_zero : need_chunks need M 0 = 0.
Proof.
  unfold need_chunks. rewrite Z.div_0_l, Z.mod_0_l by lia. reflexivity.
Qed.

Lemma need_chunks_full (r : Z) :
  M <= r -> need_chunks need M r = 1 + need M + need_chunks need M (r - M)
            /\ 0 <= need_chunks need M (r - M).
Proof.
  intros Hr. unfold need_chunks.
  destruct (div_mod_shift r M M_pos) as [E1 E2]. rewrite E1, E2.
  assert (0 <= (r - M) / M) by (apply Z.div_pos; lia).
  pose proof (need_nonneg M ltac:(lia)).
  pose proof (Z.mod_pos_bound (r - M) M M_pos).
  pose proof (need_nonneg ((r - M) mod M) ltac:(lia)).
  destruct (0 <? (r - M) mod M); nia.
Qed.

Lemma need_chunks_rest (r : Z) :
  0 < r < M -> need_chunks need M r = 1 + need r.
Proof.
  intros Hr. unfold need_chunks.
  rewrite Z.div_small, Z.mod_small by lia.
  destruct (Z.ltb_spec 0 r); lia.
Qed.

Lemma alloc_children_ok (slots : nat) :
  forall i r freeMap mapping kids good,
    0 <= r <= Z.of_nat slots * M ->
    need_chunks need M r <= Bitmap.NumClear freeMap ->
    length good = i ->
    exists freeMap' news mapping' newkids,
      alloc_children alloc slots i M freeMap r
        (good ++ replicate slots INVALID_SECTOR) mapping kids
      = Ret (freeMap',
             (good ++ news) ++ replicate (slots - length news) INVALID_SECTOR,
             mapping', kids ++ newkids)
      /\ Bitmap.NumClear freeMap' = Bitmap.NumClear freeMap - need_chunks need M r
      /\ map numBytes newkids = chunk_list r M
      /\ length news = length newkids
      /\ (length news <= slots)%nat
      /\ Forall (fun s => 0 <= s) news.
Proof.
  induction slots as [|slots IH]; intros i r freeMap mapping kids good
    Hr Hfree Hgood.
  - assert (r = 0) by lia. subst r.
    exists freeMap, [], mapping, []. cbn [alloc_children].
    rewrite !app_nil_r, need_chunks_zero, chunk_list_zero by lia.
    simpl. repeat split; try lia. constructor.
  - destruct (Z.leb_spec r 0) as [Hr0|Hr0].
    { assert (r = 0) by lia. subst r.
      exists freeMap, [], mapping, []. cbn [alloc_children].
      rewrite !app_nil_r, need_chunks_zero, chunk_list_zero by lia.
      simpl. repeat split; try lia. constructor. }
    cbn [alloc_children].
    destruct (Z.leb_spec r 0) as [?|_]; [lia|].
    assert (Hone : 1 + need (Z.min r M) <= need_chunks need M r
                   /\ need_chunks need M r
                      = 1 + need (Z.min r M) + need_chunks need M (r - Z.min r M)).
    { destruct (Z.le_gt_cases M r) as [Hfull|Hrest].
      - rewrite Z.min_r by lia.
        destruct (need_chunks_full r Hfull) as [E Hpos]. lia.
      - rewrite Z.min_l by lia. rewrite need_chunks_rest by lia.
        rewrite Z.sub_diag, need_chunks_zero. lia. }
    destruct Hone as [Hone Hsplit].
    pose proof (need_nonneg (Z.min r M) ltac:(lia)) as Hn0.
    destruct (BitmapFacts.FindAndSet_some freeMap) as (s & m1 & E & Hs & Hc);
      [lia|].
    rewrite E. pose proof Hs as Hs'. apply Z.leb_le in Hs'. rewrite Hs'.
    cbn [ASSERT mbind outcome_bind].
    destruct (alloc_ok m1 (Z.min r M)) as (kid & m2 & Ekid & Hkid & Hc2);
      [lia | lia |].
    rewrite Ekid. cbn [mbind outcome_bind].
    subst i. rewrite insert_first_sentinel.
    destruct (IH (S (length good)) (r - Z.min r M) m2
                (merge_into mapping (dataSectorMapping kid))
                (kids ++ [kid]) (good ++ [s]))
      as (fm' & news & mapping' & newkids & Erun & Hclear & Hsizes & Hlen
          & Hslots & Hpos).
    + destruct (Z.le_gt_cases M r); [rewrite Z.min_r by lia|rewrite Z.min_l by lia]; nia.
    + lia.
    + rewrite length_app. simpl. lia.
    + exists fm', (s :: news), mapping', (kid :: newkids).
      rewrite Erun. repeat rewrite <- app_assoc. simpl.
      split; [reflexivity|]. split; [lia|]. split.
      * rewrite Hkid, Hsizes.
        destruct (Z.le_gt_cases M r) as [Hfull|Hrest].
        -- rewrite Z.min_r by lia. symmetry. apply chunk_list_full; lia.
        -- rewrite Z.min_l by lia. rewrite Z.sub_diag, chunk_list_zero by lia.
           symmetry. apply chunk_list_rest. lia.
      * split; [lia|]. split; [lia|]. constructor; assumption.
Qed.

End AllocChildren.

Lemma Allocate_node_ok (fuel : nat) :
  forall n l freeMap,
    whichLv n = Ret l -> (l < fuel)%nat -> 0 <= n ->
    sectors_needed fuel n <= Bitmap.NumClear freeMap ->
    exists h freeMap',
      Allocate_node fuel freeMap n = Ret (true, h, freeMap')
      /\ numBytes h = n
      /\ numDataSectors h = divRoundUp n SectorSize
      /\ Bitmap.NumClear freeMap'
         = Bitmap.NumClear freeMap - sectors_needed fuel n
      /\ match l with
         | O => children h = []
         | S l' =>
             map numBytes (children h) = chunk_list n (MAX_SIZE l')
             /\ exists news,
                  sectors_then_sentinels news (dataSectors h)
                  /\ length news = length (children h)
         end.
Proof.
  induction fuel as [|fuel IH]; intros n l freeMap Hlv Hl Hn Hfree; [lia|].
  rewrite Allocate_node_unfold. cbv zeta.
  pose proof (sectors_needed_data (S fuel) n l Hlv Hl Hn) as Hdata.
  destruct (Z.ltb_spec (Bitmap.NumClear freeMap) (divRoundUp n SectorSize))
    as [Hfew|_]; [lia|].
  rewrite Hlv. cbn [mbind outcome_bind].
  pose proof (whichLv_Ret_inv n l Hlv) as (Hl4 & Hle & _).
  destruct l as [|l].
  - assert (Hneed : sectors_needed (S fuel) n = divRoundUp n SectorSize)
      by (cbn [sectors_needed]; rewrite Hlv; reflexivity).
    assert (Hnds : 0 <= divRoundUp n SectorSize <= 30).
    { rewrite divRoundUp_sectors by lia.
      pose proof (proj1 MAX_SIZE_values) as V0. rewrite V0 in Hle.
      pose proof (Z.div_mod (n + 127) 128 ltac:(lia)).
      pose proof (Z.mod_pos_bound (n + 127) 128 ltac:(lia)). lia. }
    destruct (alloc_direct_ok (Z.to_nat (divRoundUp n SectorSize)) 0 freeMap
                (dataSectors fresh_header) [])
      as (fm' & secs' & mapping' & Erun & Hclear).
    + change (length (dataSectors fresh_header)) with 30%nat. lia.
    + lia.
    + rewrite Erun. cbn [mbind outcome_bind].
      eexists _, fm'. split; [reflexivity|]. cbn [numBytes numDataSectors children].
      repeat split. lia.
  - assert (Hneed : sectors_needed (S fuel) n
                    = need_chunks (sectors_needed fuel) (MAX_SIZE l) n)
      by (cbn [sectors_needed]; rewrite Hlv; reflexivity).
    assert (HM : 0 < MAX_SIZE l) by (apply MAX_SIZE_pos; lia).
    destruct (alloc_children_ok (Allocate_node fuel) (sectors_needed fuel)
                (MAX_SIZE l) HM (sectors_needed_nonneg fuel))
      with (slots := Z.to_nat NUM_DIRECT) (i := 0%nat) (r := n)
           (freeMap := freeMap) (mapping := @nil Z) (kids := @nil FileHeader)
           (good := @nil Z)
      as (fm' & news & mapping' & newkids & Erun & Hclear & Hsizes & Hlen
          & Hslots & Hpos).
    + intros fm size Hsize Hroom.
      destruct (whichLv_below size l) as (ls & Hls & Hlsl); [lia | lia |].
      destruct (IH size ls fm Hls ltac:(lia) ltac:(lia) Hroom)
        as (kid & fm1 & Ekid & Hnb & _ & Hc & _).
      exists kid, fm1. auto.
    + rewrite (MAX_SIZE_step l) in Hle by lia.
      change (Z.of_nat (Z.to_nat NUM_DIRECT)) with NUM_DIRECT. lia.
    + lia.
    + reflexivity.
    + change ([] ++ replicate (Z.to_nat NUM_DIRECT) INVALID_SECTOR)
        with (dataSectors fresh_header) in Erun.
      rewrite Erun. cbn [mbind outcome_bind].
      eexists _, fm'. split; [reflexivity|].
      cbn [numBytes numDataSectors children dataSectors].
      split; [reflexivity|]. split; [reflexivity|]. split; [lia|].
      split; [exact Hsizes|].
      exists news. split; [|exact Hlen].
      unfold sectors_then_sentinels. auto.
Qed.

Lemma sum_Z_app (a b : list Z) : sum_Z (a ++ b) = sum_Z a + sum_Z b.
Proof. induction a as [|x a IH]; simpl; [reflexivity|]. unfold sum_Z in *. simpl. lia. Qed.

Lemma sum_Z_replicate (k : nat) (x : Z) :
  sum_Z (replicate k x) = Z.of_nat k * x.
Proof.
  induction k as [|k IH]; [reflexivity|].
  change (sum_Z (replicate (S k) x)) with (x + sum_Z (replicate k x)). lia.
Qed.

Lemma chunk_list_is_split (n chunk : Z) :
  0 < chunk -> 0 <= n -> is_split n chunk (chunk_list n chunk).
Proof.
  intros Hc Hn. unfold is_split, chunk_list.
  pose proof (Z.div_mod n chunk ltac:(lia)) as Hdm.
  pose proof (Z.mod_pos_bound n chunk Hc) as Hmod.
  pose proof (Z.div_pos n chunk Hn Hc) as Hdiv.
  split; [|split].
  - rewrite sum_Z_app, sum_Z_replicate, Z2Nat.id by lia.
    destruct (Z.ltb_spec 0 (n mod chunk)); unfold sum_Z; simpl; lia.
  - apply Forall_app. split.
    + apply Forall_replicate. lia.
    + destruct (Z.ltb_spec 0 (n mod chunk)); repeat constructor; lia.
  - intros i x Hi Hlast.
    rewrite length_app, length_replicate in Hlast.
    apply lookup_app_Some in Hi as [Hi|[Hge Hi]].
    + apply lookup_replicate in Hi as [-> _]. reflexivity.
    + rewrite length_replicate in *.
      destruct (0 <? n mod chunk); simpl in *.
      * assert (i = Z.to_nat (n / chunk)) by lia. lia.
      * rewrite lookup_nil in Hi. discriminate.
Qed.

(** C6.  With room enough in the bitmap for the data sectors and the
    headers, [Allocate] of a size above [MAX_SIZE[0]], hence of a level
    [L > 0], answers [TRUE] with one child header for each piece of the
    size cut from the left into pieces of [MAX_SIZE[L-1]] bytes, the last
    one holding what is left; each child has its sector in [dataSectors]
    and the other entries hold the sentinel.  After [create /big 4000] the
    header read back has 4000 bytes and level 1, two children in sectors 14
    and 45, the first of 3840 bytes, the second of 160 bytes, 2 data
    sectors and level 0. *)
Theorem Allocate_splits :
  (forall (freeMap : Bitmap.t) (n : Z),
      MAX_SIZE 0 < n <= MAX_SIZE 3 ->
      sectors_needed LEVEL_LIMIT n <= Bitmap.NumClear freeMap ->
      exists l h freeMap' news,
        whichLv n = Ret (S l)
        /\ Allocate freeMap n = Ret (true, h, freeMap')
        /\ numBytes h = n
        /\ is_split n (MAX_SIZE l) (map numBytes (children h))
        /\ sectors_then_sentinels news (dataSectors h)
        /\ length news = length (children h))
  /\ big_file
     = Ret (4000, Ret 1%nat, [14; 45],
            [(3840, 30, Ret 0%nat); (160, 2, Ret 0%nat)]).
Proof.
  split; [|vm_compute; reflexivity].
  intros freeMap n [Hlow Hhigh] Hroom.
  destruct (whichLv_below n 3) as (l & Hlv & Hl); [lia | exact Hhigh |].
  destruct l as [|l].
  { apply whichLv_Ret_inv in Hlv as (_ & Hle & _). lia. }
  assert (Hn : 0 <= n).
  { pose proof (MAX_SIZE_pos 0). lia. }
  destruct (Allocate_node_ok LEVEL_LIMIT n (S l) freeMap Hlv)
    as (h & fm' & Erun & Hnb & _ & _ & Hsizes & news & Hsecs & Hlen);
    [unfold LEVEL_LIMIT; lia | exact Hn | exact Hroom |].
  exists l, h, fm', news.
  split; [exact Hlv|]. split; [exact Erun|]. split; [exact Hnb|].
  split; [|split; [exact Hsecs | exact Hlen]].
  rewrite Hsizes. apply chunk_list_is_split; [|exact Hn].
  apply MAX_SIZE_pos. lia.
Qed.

Lemma Allocate_splits_witness :
  (MAX_SIZE 0 < 4000 <= MAX_SIZE 3)
  /\ sectors_needed LEVEL_LIMIT 4000
     <= Bitmap.NumClear (replicate 13 true ++ replicate 1011 false)
  /\ exists l h freeMap' news,
       whichLv 4000 = Ret (S l)
       /\ Allocate (replicate 13 true ++ replicate 1011 false) 4000
          = Ret (true, h, freeMap')
       /\ numBytes h = 4000
       /\ is_split 4000 (MAX_SIZE l) (map numBytes (children h))
       /\ sectors_then_sentinels news (dataSectors h)
       /\ length news = length (children h).
Proof.
  assert (Hsize : MAX_SIZE 0 < 4000 <= MAX_SIZE 3)
    by (split; vm_compute; [reflexivity | discriminate]).
  assert (Hroom : sectors_needed LEVEL_LIMIT 4000
                  <= Bitmap.NumClear (replicate 13 true ++ replicate 1011 false))
    by (vm_compute; discriminate).
  split; [exact Hsize|]. split; [exact Hroom|].
  exact (proj1 Allocate_splits _ 4000 Hsize Hroom).
Defined.

(** ** Allocation without room enough *)

(** C3.  What [Create] does when the free sectors do not suffice.  On the
    formatted disk of 16 sectors, 3 of them free, [create /x 500] ends at
    the assertion on the answer of [Allocate]: it does not return.  On the
    formatted disk of 48 sectors, 35 of them free, [create /big 4200] needs
    36 sectors; the second child header finds 2 free sectors for its 3 data
    sectors, its [Allocate] answers [FALSE], the answer is dropped, and
    [Create] returns [TRUE] with the bitmap on disk changed: 2 sectors are
    left free. *)
Theorem Create_without_room {mem : Memory} :
  free_sectors (fst disk16) (snd disk16) = Ret 3
  /\ Create 10 (fst disk16) "/x" 500 (snd disk16) = Abort
  /\ free_sectors (fst disk48) (snd disk48) = Ret 35
  /\ 1 + sectors_needed LEVEL_LIMIT 4200 = 36
  /\ answer (Create 10 (fst disk48) "/big" 4200 (snd disk48)) = Ret true
  /\ free_sectors (fst disk48)
       (disk_after (Create 10 (fst disk48) "/big" 4200 (snd disk48)))
     = Ret 2.
Proof.
  split; [vm_compute; reflexivity|].
  split; [vm_compute; reflexivity|].
  split; [vm_compute; reflexivity|].
  split; [vm_compute; reflexivity|].
  split; vm_compute; reflexivity.
Qed.

(** What [ByteToSector] answers when its assertion holds. *)
Lemma ByteToSector_mapping (h : FileHeader) (offset : Z) :
  0 <= Z.quot offset SectorSize < Z.of_nat (length (dataSectorMapping h)) ->
  Z.of_nat (length (dataSectorMapping h)) = numDataSectors h ->
  exists s,
    dataSectorMapping h !! Z.to_nat (Z.quot offset SectorSize) = Some s
    /\ ByteToSector h offset = Ret s.
Proof.
  intros [Hlo Hhi] Hlen. unfold ByteToSector.
  destruct (lookup_lt_is_Some_2 (dataSectorMapping h)
              (Z.to_nat (Z.quot offset SectorSize))) as [s Hs]; [lia|].
  exists s. split; [exact Hs|]. rewrite Hs.
  apply Z.leb_le in Hlo. apply Z.ltb_lt in Hhi. apply Z.eqb_eq in Hlen.
  rewrite Hlo, Hhi, Hlen. reflexivity.
Qed.

(** C5.  A header built by [Allocate] for which [ByteToSector] does not
    answer.  With 34 sectors free, [Allocate] of 4200 bytes answers [TRUE];
    the header counts 33 data sectors and its vector holds the 30 of the
    first child only, the [Allocate] of the second child having answered
    [FALSE] unheeded.  Offset 0 is within the 33 sectors, and
    [ByteToSector] ends at its assertion. *)
Theorem ByteToSector_after_short_Allocate :
  answer_of (Allocate bitmap48 4200) = Ret true
  /\ numDataSectors (header_of (Allocate bitmap48 4200)) = 33
  /\ dataSectorMapping (header_of (Allocate bitmap48 4200))
     = map Z.of_nat (seq 15 30)
  /\ map (fun k => (numBytes k, numDataSectors k, dataSectorMapping k))
       (children (header_of (Allocate bitmap48 4200)))
     = [(3840, 30, map Z.of_nat (seq 15 30)); (360, 3, [])]
  /\ 0 <= Z.quot 0 SectorSize
     < numDataSectors (header_of (Allocate bitmap48 4200))
  /\ ByteToSector (header_of (Allocate bitmap48 4200)) 0 = Abort.
Proof.
  split; [vm_compute; reflexivity|].
  split; [vm_compute; reflexivity|].
  split; [vm_compute; reflexivity|].
  split; [vm_compute; reflexivity|].
  split; [split; vm_compute; [discriminate | reflexivity]|].
  vm_compute. reflexivity.
Qed.

(** ** Recursive removal *)

Lemma Test_Clear_ne (s s' : Z) (m : Bitmap.t) :
  s <> s' -> Bitmap.Test s (Bitmap.Clear s' m) = Bitmap.Test s m.
Proof.
  intros Hne. unfold Bitmap.Test, Bitmap.Clear.
  destruct (s <? 0) eqn:Hs; [reflexivity|].
  destruct (s' <? 0) eqn:Hs'; [reflexivity|].
  rewrite list_lookup_insert_ne; [reflexivity|]. lia.
Qed.

Lemma Test_Clear_eq (s : Z) (m : Bitmap.t) :
  Bitmap.Test s (Bitmap.Clear s m) = false.
Proof.
  unfold Bitmap.Test, Bitmap.Clear.
  destruct (s <? 0) eqn:Hs; [reflexivity|].
  destruct (decide (Z.to_nat s < length m)%nat) as [Hlt|Hge].
  - rewrite list_lookup_insert_eq by exact Hlt. reflexivity.
  - rewrite list_insert_ge by lia.
    rewrite lookup_ge_None_2 by lia. reflexivity.
Qed.

Lemma Test_clear_all (secs : list Z) :
  forall m s,
    Bitmap.Test s (clear_all secs m)
    = if decide (s ∈ secs) then false else Bitmap.Test s m.
Proof.
  induction secs as [|s0 secs IH]; intros m s; simpl.
  - destruct (decide (s ∈ [])) as [Hin|_]; [|reflexivity].
    inversion Hin.
  - rewrite IH.
    destruct (decide (s ∈ secs)) as [Hin|Hnin].
    + rewrite decide_True by (right; exact Hin). reflexivity.
    + destruct (decide (s = s0)) as [->|Hne].
      * rewrite decide_True by left. apply Test_Clear_eq.
      * rewrite decide_False.
        -- apply Test_Clear_ne. exact Hne.
        -- intros Hin. apply elem_of_cons in Hin as [?|?]; contradiction.
Qed.

Lemma clear_all_app (a b : list Z) (m : Bitmap.t) :
  clear_all (a ++ b) m = clear_all b (clear_all a m).
Proof. unfold clear_all. apply foldl_app. Qed.

Lemma dealloc_direct_frees (n : nat) :
  forall i secs m,
    (i + n <= length secs)%nat ->
    NoDup (take n (drop i secs)) ->
    Forall (fun s => Bitmap.Test s m = true) (take n (drop i secs)) ->
    dealloc_direct n i secs m = Ret (clear_all (take n (drop i secs)) m).
Proof.
  induction n as [|n IH]; intros i secs m Hlen Hnd Hmarked; [reflexivity|].
  destruct (lookup_lt_is_Some_2 secs i) as [s Hs]; [lia|].
  rewrite (drop_S _ _ _ Hs) in *. cbn [take] in *.
  cbn [dealloc_direct]. rewrite Hs.
  apply NoDup_cons in Hnd as [Hnotin Hnd].
  apply Forall_cons in Hmarked as [Hs1 Hmarked].
  rewrite Hs1. cbn [ASSERT mbind outcome_bind].
  rewrite IH; [reflexivity | lia | exact Hnd |].
  apply Forall_forall. intros s' Hs'.
  rewrite Test_Clear_ne.
  - apply (proj1 (Forall_forall _ _) Hmarked). exact Hs'.
  - intros ->. contradiction.
Qed.

Lemma Deallocate_direct (h : FileHeader) (m : Bitmap.t) (data : list Z) :
  direct_sectors h = Ret data ->
  NoDup data ->
  Forall (fun s => Bitmap.Test s m = true) data ->
  Deallocate h m = Ret (clear_all data m).
Proof.
  unfold direct_sectors. intros Hdata Hnd Hmarked.
  apply bind_Ret in Hdata as (u1 & Hlv & Hdata).
  apply bind_Ret in Hdata as (u2 & Hlen & Hdata).
  apply ASSERT_Ret, Z.leb_le in Hlv.
  apply ASSERT_Ret, bool_decide_eq_true in Hlen.
  injection Hdata as <-.
  destruct h as [nb nds secs mapping kids]. cbn [Deallocate].
  cbn [numBytes numDataSectors dataSectors] in *.
  rewrite (whichLv_intro nb 0); [|lia|exact Hlv|intros j Hj; lia].
  cbn [mbind outcome_bind].
  rewrite <- (drop_0 secs) at 2.
  apply dealloc_direct_frees; rewrite ?drop_0; [lia | exact Hnd | exact Hmarked].
Qed.

Lemma marked_after_clear (l secs : list Z) (m : Bitmap.t) :
  Forall (fun s => Bitmap.Test s m = true) secs ->
  (forall s, s ∈ secs -> s ∉ l) ->
  Forall (fun s => Bitmap.Test s (clear_all l m) = true) secs.
Proof.
  intros Hmarked Hdisj. apply Forall_forall. intros s Hs.
  rewrite Test_clear_all. rewrite decide_False by (apply Hdisj; exact Hs).
  apply (proj1 (Forall_forall _ _) Hmarked). exact Hs.
Qed.

Section RemoveAllEntries.

Variable belowR : Directory.t -> Bitmap.t -> outcome (bool * Directory.t * Bitmap.t).
Variable belowS : Directory.t -> outcome (list Z).
Variable fuel : nat.
Variable d : SynchDisk.

Hypothesis below_frees :
  forall sub m secs,
    belowS sub = Ret secs -> NoDup secs ->
    Forall (fun s => Bitmap.Test s m = true) secs ->
    belowR sub m = Ret (true, released sub, clear_all secs m).

Lemma RemoveAll_entries_frees {mem : Memory} (table : Directory.t) :
  forall m secs,
    subtree_entries belowS fuel d table = Ret secs ->
    NoDup secs ->
    Forall (fun s => Bitmap.Test s m = true) secs ->
    Directory.RemoveAll_entries belowR fuel d table m
    = Ret (true, released table, clear_all secs m).
Proof.
  induction table as [|e table IH]; intros m secs Hsecs Hnd Hmarked.
  - simpl in Hsecs. injection Hsecs as <-. reflexivity.
  - cbn [subtree_entries] in Hsecs. cbn [Directory.RemoveAll_entries released map].
    destruct (inUse e) eqn:Huse.
    2:{ rewrite (IH m secs Hsecs Hnd Hmarked). reflexivity. }
    apply bind_Ret in Hsecs as (subs & Hsubs & Hsecs).
    apply bind_Ret in Hsecs as (fh & Hfh & Hsecs).
    apply bind_Ret in Hsecs as (data & Hdata & Hsecs).
    apply bind_Ret in Hsecs as (rest & Hrest & Hsecs).
    injection Hsecs as <-.
    apply NoDup_app in Hnd as (Hnd_subs & Hdisj1 & Hnd).
    apply NoDup_app in Hnd as (Hnd_data & Hdisj2 & Hnd).
    apply NoDup_cons in Hnd as (He & Hnd_rest).
    apply Forall_app in Hmarked as (Hm_subs & Hmarked).
    apply Forall_app in Hmarked as (Hm_data & Hmarked).
    apply Forall_cons in Hmarked as (Hm_e & Hm_rest).
    assert (H1 : (if isDir e
                  then file ← OpenFile.new fuel d (sector e);
                       sub ← Directory.FetchFrom NumDirEntries file d;
                       '(_, _, freeMap1) ← belowR sub m;
                       Ret freeMap1
                  else Ret m) = Ret (clear_all subs m)).
    { destruct (isDir e).
      - apply bind_Ret in Hsubs as (file & Hfile & Hsubs).
        apply bind_Ret in Hsubs as (sub & Hsub & Hsubs).
        rewrite Hfile. cbn [mbind outcome_bind]. rewrite Hsub.
        cbn [mbind outcome_bind].
        rewrite (below_frees sub m subs Hsubs Hnd_subs Hm_subs). reflexivity.
      - injection Hsubs as <-. reflexivity. }
    rewrite H1. cbn [mbind outcome_bind].
    change (FetchFrom fuel d (sector e)) with (FetchFrom_node fuel d (sector e))
      in Hfh.
    rewrite Hfh. cbn [mbind outcome_bind].
    rewrite (Deallocate_direct fh (clear_all subs m) data Hdata Hnd_data).
    2:{ apply marked_after_clear; [exact Hm_data|].
        intros s Hs Hin. apply (Hdisj1 s Hin).
        apply elem_of_app. left. exact Hs. }
    cbn [mbind outcome_bind].
    rewrite (IH (Bitmap.Clear (sector e) (clear_all data (clear_all subs m)))
               rest Hrest Hnd_rest).
    2:{ apply Forall_forall. intros s Hs.
        rewrite Test_Clear_ne by (intros ->; contradiction).
        rewrite !Test_clear_all.
        rewrite decide_False.
        2:{ intros Hin. apply (Hdisj2 s Hin). right. exact Hs. }
        rewrite decide_False.
        2:{ intros Hin. apply (Hdisj1 s Hin).
            apply elem_of_app. right. right. exact Hs. }
        apply (proj1 (Forall_forall _ _) Hm_rest). exact Hs. }
    cbn [mbind outcome_bind].
    rewrite !clear_all_app. reflexivity.
Qed.

End RemoveAllEntries.

(** [RemoveAll] gives back exactly the sectors below the table. *)
Lemma RemoveAll_frees {mem : Memory} (fuel : nat) (d : SynchDisk) :
  forall table m secs,
    subtree fuel d table = Ret secs -> NoDup secs ->
    Forall (fun s => Bitmap.Test s m = true) secs ->
    Directory.RemoveAll fuel d table m
    = Ret (true, released table, clear_all secs m).
Proof.
  induction fuel as [|fuel IH]; intros table m secs Hsecs Hnd Hmarked;
    [discriminate|].
  cbn [Directory.RemoveAll]. cbn [subtree] in Hsecs.
  apply (RemoveAll_entries_frees _ (subtree fuel d)); auto.
Qed.

(** ** Files read and written through their headers *)

Lemma sector_bytes_length (s : Sector) :
  length (sector_bytes s) = Z.to_nat SectorSize.
Proof.
  unfold sector_bytes. rewrite length_take, length_app, length_replicate. lia.
Qed.

Lemma sector_bytes_id (s : Sector) :
  length s = Z.to_nat SectorSize -> sector_bytes s = s.
Proof.
  intros Hlen. unfold sector_bytes. rewrite take_app_length'; auto.
Qed.

Lemma ReadSector_WriteSector (who : Writer) (s : Z) (data : Sector)
    (d d' : SynchDisk) :
  WriteSector who s data d = Ret d' ->
  NumSectors d' = NumSectors d
  /\ ReadSector d' s = Ret (sector_bytes data)
  /\ forall s', s' <> s -> ReadSector d' s' = ReadSector d s'.
Proof.
  unfold WriteSector. intros Hrun.
  apply bind_Ret in Hrun as (u & Hrange & Hrun).
  injection Hrun as <-.
  assert (HN : NumSectors
                 {| image := <[Z.to_nat s := sector_bytes data]> (image d);
                    writes := writes d ++ [(who, s)] |} = NumSectors d).
  { unfold NumSectors. cbn [image]. rewrite length_insert. reflexivity. }
  split; [exact HN|]. split.
  - unfold ReadSector. rewrite HN, Hrange. cbn [ASSERT mbind outcome_bind image].
    apply ASSERT_Ret, andb_prop in Hrange as [Hlo Hhi].
    apply Z.leb_le in Hlo. apply Z.ltb_lt in Hhi. unfold NumSectors in Hhi.
    rewrite list_lookup_insert_eq by lia. cbn [default].
    rewrite sector_bytes_id by apply sector_bytes_length. reflexivity.
  - intros s' Hne. unfold ReadSector. rewrite HN. cbn [image].
    destruct ((0 <=? s') && (s' <? NumSectors d)) eqn:Hr; [|reflexivity].
    cbn [ASSERT mbind outcome_bind].
    apply andb_prop in Hr as [Hlo _]. apply Z.leb_le in Hlo.
    apply ASSERT_Ret, andb_prop in Hrange as [Hlo' _]. apply Z.leb_le in Hlo'.
    rewrite list_lookup_insert_ne by lia. reflexivity.
Qed.

Lemma ReadSector_length (d : SynchDisk) (s : Z) (buf : Sector) :
  ReadSector d s = Ret buf -> length buf = Z.to_nat SectorSize.
Proof.
  unfold ReadSector. intros H. apply bind_Ret in H as (u & _ & H).
  injection H as <-. apply sector_bytes_length.
Qed.

Section FileIO.

Variable file : OpenFile.
Variable N : Z.
Hypothesis Hok : file_ok file N.

Lemma ByteToSector_sector (i : Z) :
  0 <= i < numDataSectors (hdr file) ->
  exists s,
    dataSectorMapping (hdr file) !! Z.to_nat i = Some s
    /\ ByteToSector (hdr file) (i * SectorSize) = Ret s
    /\ 0 <= s < N.
Proof.
  intros Hi. destruct Hok as (Hlen & Hrange & _).
  destruct (ByteToSector_mapping (hdr file) (i * SectorSize)) as (s & Hs & Hrun).
  - rewrite Z.quot_mul by (unfold SectorSize; lia). lia.
  - exact Hlen.
  - rewrite Z.quot_mul in Hs by (unfold SectorSize; lia).
    exists s. split; [exact Hs|]. split; [exact Hrun|].
    apply (proj1 (Forall_forall _ _) Hrange).
    apply list_elem_of_lookup. eauto.
Qed.

Lemma ReadSector_in_range (d : SynchDisk) (s : Z) :
  NumSectors d = N -> 0 <= s < N -> returns (ReadSector d s).
Proof.
  intros HN Hs. unfold ReadSector.
  assert (E : (0 <=? s) && (s <? NumSectors d) = true).
  { apply andb_true_intro. split; [apply Z.leb_le | apply Z.ltb_lt]; lia. }
  rewrite E. eexists. reflexivity.
Qed.

(** Writing the sectors [i .. i + n) of the file comes to an end, leaves
    the other sectors of the disk alone, and is read back. *)
Lemma write_sectors_run (who : Writer) (n : nat) :
  forall i from d,
    NumSectors d = N -> 0 <= i ->
    i + Z.of_nat n <= numDataSectors (hdr file) ->
    exists d',
      OpenFile.write_sectors who file from n i d = Ret d'
      /\ NumSectors d' = N
      /\ (forall s,
             s ∉ take n (drop (Z.to_nat i) (dataSectorMapping (hdr file))) ->
             ReadSector d' s = ReadSector d s)
      /\ (NoDup (take n (drop (Z.to_nat i) (dataSectorMapping (hdr file)))) ->
          exists buf,
            OpenFile.read_sectors file d' n i = Ret buf
            /\ take (length from `min` (n * Z.to_nat SectorSize)) buf
               = take (n * Z.to_nat SectorSize) from).
Proof.
  induction n as [|n IH]; intros i from d HN Hi Hn.
  - exists d. split; [reflexivity|]. split; [exact HN|]. split; [auto|].
    intros _. exists []. split; [reflexivity|].
    rewrite Nat.mul_0_l, Nat.min_0_r. reflexivity.
  - destruct (ByteToSector_sector i) as (s & Hs & Hbts & Hrange); [lia|].
    cbn [OpenFile.write_sectors OpenFile.read_sectors]. rewrite Hbts.
    cbn [mbind outcome_bind].
    rewrite (drop_S _ _ _ Hs). cbn [take].
    destruct (ReadSector_in_range d s HN Hrange) as [old Hold].
    pose proof (ReadSector_length _ _ _ Hold) as Hold_len.
    set (chunk := take (Z.to_nat SectorSize) from).
    set (data := if bool_decide (length chunk < Z.to_nat SectorSize)%nat
                 then chunk ++ drop (length chunk) old else chunk).
    assert (Hdata_len : length data = Z.to_nat SectorSize).
    { subst data. case_bool_decide as Hc.
      - rewrite length_app, length_drop. lia.
      - subst chunk. rewrite length_take in *. lia. }
    assert (Hdata :
              (if bool_decide (length chunk < Z.to_nat SectorSize)%nat
               then old ← ReadSector d s; Ret (chunk ++ drop (length chunk) old)
               else Ret chunk) = Ret data).
    { subst data. case_bool_decide; [rewrite Hold|]; reflexivity. }
    rewrite Hdata. cbn [mbind outcome_bind].
    assert (Hw : returns (WriteSector who s data d)).
    { unfold WriteSector.
      assert (E : (0 <=? s) && (s <? NumSectors d) = true).
      { apply andb_true_intro. split; [apply Z.leb_le | apply Z.ltb_lt]; lia. }
      rewrite E. eexists. reflexivity. }
    destruct Hw as [d1 Hd1]. rewrite Hd1. cbn [mbind outcome_bind].
    destruct (ReadSector_WriteSector _ _ _ _ _ Hd1) as (HN1 & Hread1 & Hframe1).
    rewrite sector_bytes_id in Hread1 by exact Hdata_len.
    destruct (IH (i + 1) (drop (Z.to_nat SectorSize) from) d1)
      as (d' & Hrun & HN' & Hframe & Hback); [lia | lia | lia |].
    replace (Z.to_nat (i + 1)) with (S (Z.to_nat i)) in * by lia.
    exists d'. split; [exact Hrun|]. split; [exact HN'|]. split.
    + intros s' Hs'. apply not_elem_of_cons in Hs' as [Hne Hs'].
      rewrite (Hframe s' Hs'). apply Hframe1. exact Hne.
    + intros Hnd. apply NoDup_cons in Hnd as [Hnotin Hnd].
      destruct (Hback Hnd) as (buf & Hbuf & Htake).
      rewrite (Hframe s Hnotin), Hread1. cbn [mbind outcome_bind].
      rewrite Hbuf. cbn [mbind outcome_bind].
      exists (data ++ buf). split; [reflexivity|].
      rewrite length_drop in Htake.
      destruct (decide (length from < Z.to_nat SectorSize)%nat) as [Hshort|Hfull].
      * assert (Hchunk : chunk = from)
          by (subst chunk; apply take_ge; lia).
        subst data. rewrite bool_decide_true by (rewrite Hchunk; exact Hshort).
        rewrite Hchunk.
        rewrite Nat.min_l by lia.
        rewrite <- app_assoc, take_app_length.
        rewrite take_ge by lia. reflexivity.
      * assert (Hchunk : length chunk = Z.to_nat SectorSize)
          by (subst chunk; rewrite length_take; lia).
        subst data. rewrite bool_decide_false by lia.
        replace (length from `min` (S n * Z.to_nat SectorSize))%nat
          with (length chunk
                + ((length from - Z.to_nat SectorSize)
                     `min` (n * Z.to_nat SectorSize)))%nat by lia.
        rewrite take_app_add.
        rewrite Htake.
        replace (S n * Z.to_nat SectorSize)%nat
          with (Z.to_nat SectorSize + n * Z.to_nat SectorSize)%nat by lia.
        subst chunk. rewrite <- take_take_drop. reflexivity.
Qed.

End FileIO.

Section FileIO_whole.

Variable file : OpenFile.
Variable N : Z.
Hypothesis Hok : file_ok file N.

(** Writing a file from its start comes to an end, touches only the
    sectors of the file, and the bytes are read back, as far as the file
    is long. *)
Lemma WriteAt_run (who : Writer) (from : list Z) (d : SynchDisk) :
  NumSectors d = N ->
  exists d',
    OpenFile.WriteAt who file from d = Ret d'
    /\ NumSectors d' = N
    /\ (forall s, s ∉ dataSectorMapping (hdr file) ->
                  ReadSector d' s = ReadSector d s)
    /\ (NoDup (dataSectorMapping (hdr file)) ->
        OpenFile.ReadAt file (Z.of_nat (length from)) d'
        = Ret (take (Z.to_nat (OpenFile.clip file (Z.of_nat (length from))))
                 from)).
Proof.
  intros HN. unfold OpenFile.WriteAt, OpenFile.ReadAt.
  destruct ((Z.of_nat (length from) <=? 0) || (FileLength (hdr file) <=? 0))
    eqn:Hempty.
  - exists d. split; [reflexivity|]. split; [exact HN|]. split; [auto|].
    intros _. f_equal. symmetry.
    apply orb_prop in Hempty as [H|H]; apply Z.leb_le in H.
    + destruct from; [apply take_nil | simpl in H; lia].
    + unfold OpenFile.clip.
      destruct (Z.ltb_spec (FileLength (hdr file)) (Z.of_nat (length from))).
      * replace (Z.to_nat (FileLength (hdr file))) with 0%nat by lia.
        reflexivity.
      * assert (length from = 0%nat) by lia.
        destruct from; [apply take_nil | discriminate].
  - apply orb_false_elim in Hempty as [Hlen Hfl].
    apply Z.leb_gt in Hlen. apply Z.leb_gt in Hfl.
    set (L := OpenFile.clip file (Z.of_nat (length from))).
    assert (HL : 0 < L <= Z.of_nat (length from) /\ L <= FileLength (hdr file)).
    { subst L. unfold OpenFile.clip.
      destruct (Z.ltb_spec (FileLength (hdr file)) (Z.of_nat (length from))); lia. }
    destruct Hok as (Hmap & Hrange & Hfit).
    set (n := Z.to_nat (Z.quot (L - 1) SectorSize + 1)).
    assert (Hn : Z.of_nat n <= numDataSectors (hdr file)
                 /\ (Z.to_nat L <= n * Z.to_nat SectorSize)%nat).
    { subst n. unfold SectorSize in *.
      rewrite Z.quot_div_nonneg by lia.
      pose proof (Z.div_mod (L - 1) 128 ltac:(lia)).
      pose proof (Z.mod_pos_bound (L - 1) 128 ltac:(lia)).
      assert (0 <= (L - 1) / 128) by (apply Z.div_pos; lia).
      split; [|lia].
      assert ((L - 1) / 128 < numDataSectors (hdr file)); [|lia].
      apply Z.div_lt_upper_bound; lia. }
    destruct (write_sectors_run file N Hok who n 0 (take (Z.to_nat L) from) d)
      as (d' & Hrun & HN' & Hframe & Hback); [exact HN | lia | lia |].
    exists d'. split; [exact Hrun|]. split; [exact HN'|]. split.
    + intros s Hs. apply Hframe. intros Hin. apply Hs.
      rewrite drop_0 in Hin.
      apply (subseteq_take n (dataSectorMapping (hdr file))). exact Hin.
    + intros Hnd. destruct Hback as (buf & Hbuf & Htake).
      { change (Z.to_nat 0) with 0%nat. rewrite drop_0.
        eapply sublist_NoDup; [exact Hnd | apply sublist_take]. }
      rewrite Hbuf. cbn [mbind outcome_bind]. f_equal.
      rewrite length_take in Htake.
      rewrite (Nat.min_l (Z.to_nat L) (length from)) in Htake by lia.
      rewrite Nat.min_l in Htake by lia.
      rewrite Htake. rewrite take_take. f_equal. lia.
Qed.

End FileIO_whole.

(** *** The bitmap in its file *)

Lemma byte_of_bits_testbit (m : Bitmap.t) (j k : nat) :
  (k < 8)%nat ->
  Z.testbit (PersistentBitmap.byte_of_bits m j mod 256) (Z.of_nat k)
  = Bitmap.Test (Z.of_nat (8 * j + k)) m.
Proof.
  intros Hk. unfold PersistentBitmap.byte_of_bits. cbn [seq foldr].
  do 8 (destruct k as [|k];
        [ generalize (Bitmap.Test (Z.of_nat (8 * j + 0)) m);
          generalize (Bitmap.Test (Z.of_nat (8 * j + 1)) m);
          generalize (Bitmap.Test (Z.of_nat (8 * j + 2)) m);
          generalize (Bitmap.Test (Z.of_nat (8 * j + 3)) m);
          generalize (Bitmap.Test (Z.of_nat (8 * j + 4)) m);
          generalize (Bitmap.Test (Z.of_nat (8 * j + 5)) m);
          generalize (Bitmap.Test (Z.of_nat (8 * j + 6)) m);
          generalize (Bitmap.Test (Z.of_nat (8 * j + 7)) m);
          intros [] [] [] [] [] [] [] []; reflexivity |]).
  lia.
Qed.

Lemma bytes_of_bits_length (m : Bitmap.t) :
  (length m <= 8 * length (PersistentBitmap.bytes_of_bits m))%nat.
Proof.
  unfold PersistentBitmap.bytes_of_bits. rewrite length_map, length_seq.
  unfold PersistentBitmap.numBytes_of, divRoundUp, PersistentBitmap.BitsInWord,
    sizeof_int.
  rewrite Z.quot_div_nonneg, Z.rem_mod_nonneg by lia.
  pose proof (Z.div_mod (Z.of_nat (length m)) 32 ltac:(lia)).
  pose proof (Z.mod_pos_bound (Z.of_nat (length m)) 32 ltac:(lia)).
  set (q := Z.of_nat (length m) / 32) in *.
  set (r := Z.of_nat (length m) mod 32) in *.
  clearbody q r.
  destruct (Z.ltb_spec 0 r); lia.
Qed.

(** The bits written are the bits read, when the file is long enough for
    all of them. *)
Lemma bits_of_bytes_of_bits (m : Bitmap.t) (L : nat) :
  (length m <= 8 * L)%nat ->
  PersistentBitmap.bits_of_bytes (length m)
    (take L (PersistentBitmap.bytes_of_bits m)) = m.
Proof.
  intros HL. apply list_eq. intros i.
  unfold PersistentBitmap.bits_of_bytes. rewrite list_lookup_fmap.
  destruct (decide (i < length m)%nat) as [Hi|Hi].
  2:{ rewrite lookup_ge_None_2 by (rewrite length_seq; lia).
      rewrite lookup_ge_None_2 by lia. reflexivity. }
  rewrite lookup_seq_lt by exact Hi. cbn [fmap option_fmap option_map].
  change (0 + i)%nat with i.
  destruct (lookup_lt_is_Some_2 m i Hi) as [b Hb]. rewrite Hb. f_equal.
  pose proof (bytes_of_bits_length m) as Hlen.
  pose proof (Nat.div_mod_eq i 8) as Hdm.
  pose proof (Nat.mod_upper_bound i 8 ltac:(lia)) as Hmod.
  unfold byte_at. rewrite lookup_take_lt by lia.
  unfold PersistentBitmap.bytes_of_bits at 1. rewrite list_lookup_fmap.
  rewrite lookup_seq_lt.
  2:{ unfold PersistentBitmap.bytes_of_bits in Hlen.
      rewrite length_map, length_seq in Hlen. lia. }
  cbn [fmap option_fmap option_map default].
  change (0 + i / 8)%nat with (i / 8)%nat. unfold id.
  rewrite byte_of_bits_testbit by exact Hmod.
  replace (8 * (i / 8) + i mod 8)%nat with i by lia.
  unfold Bitmap.Test. destruct (Z.ltb_spec (Z.of_nat i) 0); [lia|].
  rewrite Nat2Z.id, Hb. reflexivity.
Qed.

Lemma clear_all_length (secs : list Z) :
  forall m, length (clear_all secs m) = length m.
Proof.
  induction secs as [|s secs IH]; intros m; [reflexivity|].
  simpl. rewrite IH. unfold Bitmap.Clear.
  destruct (s <? 0); [reflexivity | apply length_insert].
Qed.

Lemma persisted_bitmap_length (fs : FileSystem) (d : SynchDisk) (m : Bitmap.t) :
  persisted_bitmap fs d = Ret m -> length m = Z.to_nat (NumSectors d).
Proof.
  unfold persisted_bitmap, PersistentBitmap.new. intros H.
  apply bind_Ret in H as (bs & _ & H). injection H as <-.
  unfold PersistentBitmap.bits_of_bytes. rewrite length_map, length_seq.
  reflexivity.
Qed.

(** The bitmap written back is the bitmap read afterwards. *)
Lemma persisted_bitmap_WriteBack (fs : FileSystem) (d d' : SynchDisk)
    (m : Bitmap.t) :
  file_ok (freeMapFile fs) (NumSectors d) ->
  NoDup (dataSectorMapping (hdr (freeMapFile fs))) ->
  NumSectors d <= 8 * FileLength (hdr (freeMapFile fs)) ->
  length m = Z.to_nat (NumSectors d) ->
  PersistentBitmap.WriteBack m (freeMapFile fs) d = Ret d' ->
  persisted_bitmap fs d' = Ret m.
Proof.
  intros Hok Hnd Hlong Hlen Hrun.
  destruct (WriteAt_run (freeMapFile fs) (NumSectors d) Hok ByBitmap
              (PersistentBitmap.bytes_of_bits m) d eq_refl)
    as (d'' & Hrun' & HN & _ & Hback).
  unfold PersistentBitmap.WriteBack in Hrun. rewrite Hrun in Hrun'.
  injection Hrun' as <-. specialize (Hback Hnd).
  unfold persisted_bitmap, PersistentBitmap.new. rewrite HN.
  assert (HN0 : 0 <= NumSectors d) by (unfold NumSectors; lia).
  assert (Hbytes : Z.of_nat (length (PersistentBitmap.bytes_of_bits m))
                   = PersistentBitmap.numBytes_of (NumSectors d)).
  { unfold PersistentBitmap.bytes_of_bits. rewrite length_map, length_seq, Hlen.
    rewrite (Z2Nat.id (NumSectors d)) by lia.
    apply Z2Nat.id.
    unfold PersistentBitmap.numBytes_of, divRoundUp, PersistentBitmap.BitsInWord,
      sizeof_int.
    rewrite Z.quot_div_nonneg, Z.rem_mod_nonneg by lia.
    assert (0 <= NumSectors d / 32) by (apply Z.div_pos; lia).
    destruct (0 <? NumSectors d mod 32); lia. }
  rewrite Hbytes in Hback. rewrite Hback. cbn [mbind outcome_bind]. f_equal.
  rewrite <- Hlen. apply bits_of_bytes_of_bits.
  pose proof (bytes_of_bits_length m) as Hb.
  unfold OpenFile.clip.
  destruct (Z.ltb_spec (FileLength (hdr (freeMapFile fs)))
              (PersistentBitmap.numBytes_of (NumSectors d))); lia.
Qed.

Lemma formatted_runs {mem : Memory}
    : script 10 1024 [] = Ret (fst formatted, snd formatted).
Proof. vm_compute. reflexivity. Qed.

Lemma tree4_runs {mem : Memory} :
  script 10 1024 (OpMkdir "/d" :: scenario4) = Ret (fst tree4, snd tree4).
Proof. vm_compute. reflexivity. Qed.

Lemma tree4_removed_runs {mem : Memory} :
  Remove 10 (fst tree4) "/d" true (snd tree4) = Ret (true, tree4_removed).
Proof. vm_compute. reflexivity. Qed.

Lemma formatted_free :
  persisted_bitmap (fst formatted) (snd formatted)
  ≫= (fun m => Ret (Bitmap.NumClear m)) = Ret 1011.
Proof. vm_compute. reflexivity. Qed.

Lemma tree4_removed_free :
  persisted_bitmap (fst tree4) tree4_removed
  ≫= (fun m => Ret (Bitmap.NumClear m)) = Ret 1000.
Proof. vm_compute. reflexivity. Qed.

(** The sentence of the specification fails for [mkdir /d; mkdir /d/e;
    create /d/e/f 10]: the removal answers [TRUE], and 11 sectors more
    than after the format stay taken, the header of [/d] and the ten
    sectors of its table. *)
Lemma recursive_remove_restores_bitmap_fails :
  ~ recursive_remove_restores_bitmap.
Proof.
  intros H.
  destruct (H 10%nat 1024%nat "/d"%string scenario4 _ _ _ _
              formatted_runs tree4_runs) as (d' & Hrun & Hbitmap & _).
  { repeat constructor. }
  rewrite tree4_removed_runs in Hrun.
  pose proof tree4_removed_free as Hfree. pose proof formatted_free as Hfree0.
  revert Hrun Hfree Hbitmap Hfree0.
  generalize tree4_removed, (fst tree4), (fst formatted), (snd formatted).
  intros x fs' fs d0 Hrun Hfree Hbitmap Hfree0.
  injection Hrun as <-.
  rewrite Hbitmap, Hfree0 in Hfree. discriminate Hfree.
Qed.

(** C2.  The recursive removal of a directory answers [TRUE] and leaves
    the directory where it was.  On the formatted disk of 1024 sectors
    after [mkdir /d], [mkdir /d/e] and [create /d/e/f 10], the call
    [Remove("/d", TRUE)] answers [TRUE]; afterwards [/d] is still found as
    a directory, its entry in the root and its header in sector 13, and
    the bitmap on the disk has 24 sectors marked, as it had right after
    [mkdir /d], against 13 after the format: the header of [/d] and the
    ten sectors of its table stay taken.  The removal of a file does what
    this one misses: after [create /a 10] on the same disk,
    [Remove("/a", FALSE)] brings the bitmap back to the 13 sectors of the
    format and [/a] is found no more. *)
Theorem recursivelyRemove_keeps_directory {mem : Memory} :
  Remove 10 (fst tree4) "/d" true (snd tree4) = Ret (true, tree4_removed)
  /\ find 10 tree4_removed FileFinder_new "/d" DIR (directoryFile (fst tree4))
     = Ret {| exist := true; pFhSector := 1; fhSector := 13; filename := "d" |}
  /\ persisted_bitmap (fst formatted) (snd formatted)
     = Ret (replicate 13 true ++ replicate 1011 false)
  /\ persisted_bitmap (fst tree4) tree4_removed
     = Ret (replicate 24 true ++ replicate 1000 false)
  /\ persisted_bitmap (fst tree4) tree4_removed
     = persisted_bitmap (fst tree4)
         (snd (state_of (script 10 1024 [OpMkdir "/d"])))
  /\ ('(ok, d1) ← Remove 10 (fst (state_of one_file)) "/a" false
                    (snd (state_of one_file));
      m ← persisted_bitmap (fst (state_of one_file)) d1;
      f ← find 10 d1 FileFinder_new "/a" FILE
             (directoryFile (fst (state_of one_file)));
      Ret (ok, m, exist f))
     = Ret (true, replicate 13 true ++ replicate 1011 false, false).
Proof.
  split; [vm_compute; reflexivity|].
  split; [vm_compute; reflexivity|].
  split; [vm_compute; reflexivity|].
  split; [vm_compute; reflexivity|].
  split; vm_compute; reflexivity.
Qed.

(** What the recursive removal does free: everything below the
    directory.  Let a path name a directory; let the sectors of the
    files and directories below it, headers and data, be all different
    and all marked in the bitmap, every header among them direct; let the
    file of the directory and the file of the bitmap be served by their
    headers.  Then the recursive removal answers [TRUE]; the bitmap read
    from the disk afterwards is the bitmap of before with exactly those
    sectors cleared; the table written for the directory has no entry in
    use; and no sector of the disk is written but those of that table and
    of the bitmap.  The header and the table of the directory itself stay
    marked, and its entry stays in its parent. *)
Lemma recursive_remove_frees_below {mem : Memory} (fuel : nat) (fs : FileSystem)
    (d : SynchDisk) (nm : string) (f : FileFinder) (freeMap : Bitmap.t)
    (openfh : OpenFile) (dir : Directory.t) (secs : list Z) :
  find fuel d FileFinder_new nm DIR (directoryFile fs) = Ret f ->
  exist f = true ->
  persisted_bitmap fs d = Ret freeMap ->
  OpenFile.new fuel d (fhSector f) = Ret openfh ->
  Directory.FetchFrom NumDirEntries openfh d = Ret dir ->
  subtree fuel d dir = Ret secs ->
  NoDup secs ->
  Forall (fun s => Bitmap.Test s freeMap = true) secs ->
  file_ok openfh (NumSectors d) ->
  file_ok (freeMapFile fs) (NumSectors d) ->
  NoDup (dataSectorMapping (hdr (freeMapFile fs))) ->
  NumSectors d <= 8 * FileLength (hdr (freeMapFile fs)) ->
  exists d',
    Remove fuel fs nm true d = Ret (true, d')
    /\ persisted_bitmap fs d' = Ret (clear_all secs freeMap)
    /\ (forall s,
           Bitmap.Test s (clear_all secs freeMap)
           = if decide (s ∈ secs) then false else Bitmap.Test s freeMap)
    /\ (exists d1,
           Directory.WriteBack (released dir) openfh d = Ret d1
           /\ PersistentBitmap.WriteBack (clear_all secs freeMap)
                (freeMapFile fs) d1 = Ret d')
    /\ Forall (fun e => inUse e = false) (released dir)
    /\ (forall s,
           s ∉ dataSectorMapping (hdr openfh) ->
           s ∉ dataSectorMapping (hdr (freeMapFile fs)) ->
           ReadSector d' s = ReadSector d s).
Proof.
  intros Hfind Hexist Hbitmap Hopen Hdir Hsecs Hnd Hmarked Hok_dir Hok_map
    Hnd_map Hlong.
  destruct (WriteAt_run openfh (NumSectors d) Hok_dir ByDirectory
              (Directory.table_bytes (released dir)) d eq_refl)
    as (d1 & Hw1 & HN1 & Hframe1 & _).
  rewrite <- HN1 in Hok_map, Hlong.
  destruct (WriteAt_run (freeMapFile fs) (NumSectors d1) Hok_map ByBitmap
              (PersistentBitmap.bytes_of_bits (clear_all secs freeMap)) d1
              eq_refl)
    as (d' & Hw2 & HN2 & Hframe2 & _).
  exists d'. split; [|split; [|split; [|split; [|split]]]].
  - unfold Remove, recursivelyRemove. rewrite Hfind.
    cbn [mbind outcome_bind]. rewrite Hexist. cbn [negb].
    change (PersistentBitmap.new (freeMapFile fs) (NumSectors d) d)
      with (persisted_bitmap fs d).
    rewrite Hbitmap. cbn [mbind outcome_bind].
    rewrite Hopen. cbn [mbind outcome_bind].
    rewrite Hdir. cbn [mbind outcome_bind].
    rewrite (RemoveAll_frees fuel d dir freeMap secs Hsecs Hnd Hmarked).
    cbn [mbind outcome_bind ASSERT].
    unfold Directory.WriteBack. rewrite Hw1. cbn [mbind outcome_bind].
    unfold PersistentBitmap.WriteBack. rewrite Hw2. reflexivity.
  - apply (persisted_bitmap_WriteBack fs d1 d'); try assumption.
    rewrite clear_all_length, HN1.
    apply (persisted_bitmap_length fs d). exact Hbitmap.
  - intros s. apply Test_clear_all.
  - exists d1. split; assumption.
  - unfold released. apply Forall_map, Forall_forall. intros e _.
    destruct (inUse e) eqn:E; [reflexivity | exact E].
  - intros s Hs1 Hs2. rewrite (Hframe2 s Hs2). apply Hframe1. exact Hs1.
Qed.

Lemma file_ok_intro (file : OpenFile) (n : Z) :
  Z.of_nat (length (dataSectorMapping (hdr file))) = numDataSectors (hdr file) ->
  forallb (fun s => (0 <=? s) && (s <? n)) (dataSectorMapping (hdr file)) = true ->
  (FileLength (hdr file) <=? numDataSectors (hdr file) * SectorSize) = true ->
  file_ok file n.
Proof.
  intros H1 H2 H3. split; [exact H1|]. split.
  - apply Forall_forall. intros s Hs.
    rewrite forallb_forall in H2. apply list_elem_of_In in Hs.
    specialize (H2 s Hs). apply andb_prop in H2 as [Ha Hb].
    apply Z.leb_le in Ha. apply Z.ltb_lt in Hb. lia.
  - apply Z.leb_le. exact H3.
Qed.

(** So it is for the tree of [/d]: what lies below it is given back. *)
Example recursive_remove_frees_below_tree4 {mem : Memory} :
  (find 10 (snd tree4) FileFinder_new "/d" DIR (directoryFile (fst tree4))
   = Ret tree4_finder
   /\ exist tree4_finder = true
   /\ persisted_bitmap (fst tree4) (snd tree4) = Ret tree4_bitmap
   /\ subtree 10 (snd tree4) tree4_table = Ret tree4_below
   /\ tree4_below = map Z.of_nat (seq 36 1 ++ seq 35 1 ++ seq 25 10 ++ seq 24 1)
   /\ NoDup tree4_below
   /\ Forall (fun s => Bitmap.Test s tree4_bitmap = true) tree4_below)
  /\ exists d',
       Remove 10 (fst tree4) "/d" true (snd tree4) = Ret (true, d')
       /\ persisted_bitmap (fst tree4) d'
          = Ret (clear_all tree4_below tree4_bitmap).
Proof.
  assert (H1 : find 10 (snd tree4) FileFinder_new "/d" DIR
                 (directoryFile (fst tree4)) = Ret tree4_finder)
    by (vm_compute; reflexivity).
  assert (H2 : exist tree4_finder = true) by (vm_compute; reflexivity).
  assert (H3 : persisted_bitmap (fst tree4) (snd tree4) = Ret tree4_bitmap)
    by (vm_compute; reflexivity).
  assert (H4 : OpenFile.new 10 (snd tree4) (fhSector tree4_finder)
               = Ret tree4_file) by (vm_compute; reflexivity).
  assert (H5 : Directory.FetchFrom NumDirEntries tree4_file (snd tree4)
               = Ret tree4_table) by (vm_compute; reflexivity).
  assert (H6 : subtree 10 (snd tree4) tree4_table = Ret tree4_below)
    by (vm_compute; reflexivity).
  assert (H6' : tree4_below
                = map Z.of_nat (seq 36 1 ++ seq 35 1 ++ seq 25 10 ++ seq 24 1))
    by (vm_compute; reflexivity).
  assert (H7 : NoDup tree4_below)
    by (apply (bool_decide_unpack _); vm_compute; exact I).
  assert (H8 : Forall (fun s => Bitmap.Test s tree4_bitmap = true) tree4_below)
    by (apply (bool_decide_unpack _); vm_compute; exact I).
  assert (H9 : file_ok tree4_file (NumSectors (snd tree4)))
    by (apply file_ok_intro; vm_compute; reflexivity).
  assert (H10 : file_ok (freeMapFile (fst tree4)) (NumSectors (snd tree4)))
    by (apply file_ok_intro; vm_compute; reflexivity).
  assert (H11 : NoDup (dataSectorMapping (hdr (freeMapFile (fst tree4)))))
    by (apply (bool_decide_unpack _); vm_compute; exact I).
  assert (H12 : NumSectors (snd tree4)
                <= 8 * FileLength (hdr (freeMapFile (fst tree4))))
    by (vm_compute; discriminate).
  split; [exact (conj H1 (conj H2 (conj H3 (conj H6 (conj H6' (conj H7 H8))))))|].
  destruct (recursive_remove_frees_below 10 (fst tree4) (snd tree4) "/d"
              tree4_finder tree4_bitmap tree4_file tree4_table tree4_below
              H1 H2 H3 H4 H5 H6 H7 H8 H9 H10 H11 H12)
    as (d' & Hrun & Hbitmap & _).
  exists d'. exact (conj Hrun Hbitmap).
Qed.

(** * Properties of the code beyond the claims *)

(** ** Paths and their components *)

Lemma append_assoc (a b c : string) :
  String.append (String.append a b) c = String.append a (String.append b c).
Proof.
  induction a as [|x a IH]; [reflexivity|].
  change (String x (String.append (String.append a b) c)
          = String x (String.append a (String.append b c))).
  rewrite IH. reflexivity.
Qed.

Lemma append_one (x : ascii) (a : string) :
  String.append (String x EmptyString) a = String x a.
Proof. reflexivity. Qed.

Lemma append_empty_r (a : string) : String.append a EmptyString = a.
Proof.
  induction a as [|x a IH]; [reflexivity|].
  change (String x (String.append a EmptyString) = String x a).
  rewrite IH. reflexivity.
Qed.

Lemma join_path_snoc (l : list string) (a b : string) :
  join_path (l ++ [String.append a b]) = String.append (join_path (l ++ [a])) b.
Proof.
  induction l as [|c l IH]; [reflexivity|].
  assert (Hstep : forall x, join_path ((c :: l) ++ [x])
                            = String.append c (String "/" (join_path (l ++ [x]))))
    by (intros x; destruct l; reflexivity).
  rewrite !Hstep, IH, append_assoc. reflexivity.
Qed.

Lemma join_path_slash (l : list string) (a : string) :
  join_path ((l ++ [a]) ++ [EmptyString])
  = String.append (join_path (l ++ [a])) "/".
Proof.
  induction l as [|c l IH]; [reflexivity|].
  assert (Hstep : forall k, k <> [] ->
                    join_path (c :: k)
                    = String.append c (String "/" (join_path k)))
    by (intros [|y k] Hk; [congruence | reflexivity]).
  change (((c :: l) ++ [a]) ++ [EmptyString])
    with (c :: ((l ++ [a]) ++ [EmptyString])).
  change ((c :: l) ++ [a]) with (c :: (l ++ [a])).
  rewrite !Hstep, IH, append_assoc by (destruct l; discriminate).
  reflexivity.
Qed.

Lemma count_slashes_append (a b : string) :
  count_slashes (String.append a b) = (count_slashes a + count_slashes b)%nat.
Proof.
  induction a as [|x a IH]; [reflexivity|].
  change (count_slashes (String x (String.append a b))
          = (count_slashes (String x a) + count_slashes b)%nat).
  simpl. rewrite IH. lia.
Qed.

Lemma splitPath_loop_join (str : string) :
  forall result token i r t j,
    splitPath_loop str result token i = (r, t, j) ->
    join_path (r ++ [t])
    = String.append (join_path (result ++ [token])) (c_str str)
    /\ length r = (length result + count_slashes (c_str str))%nat
    /\ (Forall (fun c => count_slashes c = O) result ->
        count_slashes token = O ->
        Forall (fun c => count_slashes c = O) (r ++ [t])).
Proof.
  induction str as [|c str IH]; intros result token i r t j Hrun.
  - simpl in Hrun. inversion Hrun; subst. simpl.
    rewrite append_empty_r. split; [reflexivity|]. split; [lia|].
    intros Hr Ht. apply Forall_app. split; [exact Hr | repeat constructor; exact Ht].
  - simpl in Hrun. simpl. destruct (is_NUL c) eqn:Hnul.
    + inversion Hrun; subst. simpl. rewrite append_empty_r.
      split; [reflexivity|]. split; [lia|].
      intros Hr Ht. apply Forall_app.
      split; [exact Hr | repeat constructor; exact Ht].
    + destruct (is_slash c) eqn:Hslash.
      * apply IH in Hrun as (Hjoin & Hlen & Hall).
        assert (Hc : c = "/"%char) by (apply Ascii.eqb_eq; exact Hslash).
        subst c. simpl.
        rewrite Hjoin, join_path_slash, append_assoc, append_one.
        split; [reflexivity|]. split.
        { rewrite Hlen, length_app. simpl. lia. }
        intros Hr Ht. apply Hall; [|reflexivity].
        apply Forall_app. split; [exact Hr | repeat constructor; exact Ht].
      * apply IH in Hrun as (Hjoin & Hlen & Hall).
        simpl. rewrite Hslash.
        unfold string_push in Hjoin.
        rewrite join_path_snoc, append_assoc, append_one in Hjoin.
        split; [exact Hjoin|]. split; [exact Hlen|].
        intros Hr Ht. apply Hall; [exact Hr|].
        unfold string_push. rewrite count_slashes_append, Ht. simpl.
        rewrite Hslash. reflexivity.
Qed.

Lemma splitPath_components (nm : string) :
  join_path (fst (splitPath nm)) = c_str nm
  /\ length (fst (splitPath nm)) = S (count_slashes (c_str nm))
  /\ Forall (fun c => count_slashes c = O) (fst (splitPath nm)).
Proof.
  unfold splitPath.
  destruct (splitPath_loop nm [] EmptyString 0) as [[r t] j] eqn:Hrun.
  apply splitPath_loop_join in Hrun as (Hjoin & Hlen & Hall).
  cbn [fst]. split; [exact Hjoin|]. split.
  - rewrite length_app, Hlen. simpl. lia.
  - apply Hall; [constructor | reflexivity].
Qed.

(** X1.  [splitPath] cuts the C string at its slashes and nowhere else:
    putting the components together again with a slash between two of
    them gives the string back; there is one component more than there
    are slashes; and no component holds a slash. *)
Theorem splitPath_join (nm : string) :
  join_path (fst (splitPath nm)) = c_str nm
  /\ length (fst (splitPath nm)) = S (count_slashes (c_str nm))
  /\ Forall (fun c => count_slashes c = O) (fst (splitPath nm)).
Proof. exact (splitPath_components nm). Qed.

Lemma splitPath_no_slash (nm : string) :
  count_slashes (c_str nm) = O -> fst (splitPath nm) = [c_str nm].
Proof.
  intros H. destruct (splitPath_components nm) as (Hjoin & Hlen & _).
  rewrite H in Hlen.
  destruct (fst (splitPath nm)) as [|x [|y l]]; simpl in Hlen; try lia.
  simpl in Hjoin. rewrite Hjoin. reflexivity.
Qed.

Lemma find_no_slash {mem : Memory}
    (fuel : nat) (d : SynchDisk) (nm : string) (dir : bool)
    (root : OpenFile) :
  count_slashes (c_str nm) = O -> strlen nm < PATH_NAME_MAX_LEN ->
  find fuel d FileFinder_new nm dir root
  = Ret {| exist := true; pFhSector := INVALID_SECTOR;
           fhSector := INVALID_SECTOR; filename := c_str nm |}.
Proof.
  intros Hslash Hlen. unfold find.
  pose proof (splitPath_no_slash nm Hslash) as Hpath.
  pose proof (splitPath_flag nm) as Hflag.
  destruct (splitPath nm) as [path exceed]. simpl in Hpath, Hflag. subst path.
  assert (exceed = false) as -> by (rewrite Hflag; apply Z.leb_gt; exact Hlen).
  destruct (String.eqb_spec (c_str nm) "/") as [E|_].
  { rewrite E in Hslash. discriminate Hslash. }
  reflexivity.
Qed.

(** X2.  A name without any slash, shorter than the limit, is reported as
    found although nothing is looked up: the finder says [exist] with both
    sectors invalid, whatever the disk holds.  So [Create] and [Mkdir] of
    such a name answer [FALSE] and leave the disk as it is, and [Open]
    stops at its assertion.  The empty name is among them. *)
Theorem name_without_slash {mem : Memory}
    (fuel : nat) (fs : FileSystem) (d : SynchDisk)
    (nm : string) :
  count_slashes (c_str nm) = O -> strlen nm < PATH_NAME_MAX_LEN ->
  (forall dir,
      find fuel d FileFinder_new nm dir (directoryFile fs)
      = Ret {| exist := true; pFhSector := INVALID_SECTOR;
               fhSector := INVALID_SECTOR; filename := c_str nm |})
  /\ (forall initialSize, Create fuel fs nm initialSize d = Ret (false, d))
  /\ Mkdir fuel fs nm d = Ret (false, d)
  /\ Open fuel fs nm d = Abort.
Proof.
  intros Hslash Hlen.
  split; [intros dir; apply find_no_slash; assumption|].
  unfold Create, Mkdir, createFileOrDir, Open.
  rewrite !find_no_slash by assumption.
  repeat split; reflexivity.
Qed.

Lemma name_without_slash_witness :
  count_slashes (c_str "notes") = O /\ strlen "notes" < PATH_NAME_MAX_LEN
  /\ Create 10 (fst formatted) "notes" 100 (snd formatted)
     = Ret (false, snd formatted)
  /\ Open 10 (fst formatted) "" (snd formatted) = Abort.
Proof.
  split; [reflexivity|]. split; [reflexivity|]. split.
  - apply (name_without_slash 10 (fst formatted) (snd formatted) "notes");
      reflexivity.
  - apply (name_without_slash 10 (fst formatted) (snd formatted) "");
      reflexivity.
Defined.

(** X3.  The path of the root: [find] answers it without reading the
    disk when a directory is asked for, and stops at its assertion when a
    file is asked for.  So [Mkdir] of the root answers [FALSE] and leaves
    the disk as it is, while [Create] and [Open], which look the path up
    as a file first, abort: the root cannot be opened. *)
Theorem root_path {mem : Memory}
    (fuel : nat) (fs : FileSystem) (d : SynchDisk) (nm : string) :
  c_str nm = "/"%string ->
  find fuel d FileFinder_new nm DIR (directoryFile fs)
  = Ret {| exist := true; pFhSector := INVALID_SECTOR;
           fhSector := DirectorySector; filename := EmptyString |}
  /\ find fuel d FileFinder_new nm FILE (directoryFile fs) = Abort
  /\ Mkdir fuel fs nm d = Ret (false, d)
  /\ (forall initialSize, Create fuel fs nm initialSize d = Abort)
  /\ Open fuel fs nm d = Abort.
Proof.
  intros Hroot.
  assert (Hfind : forall dir,
             find fuel d FileFinder_new nm dir (directoryFile fs)
             = (_ ← ASSERT dir;
                Ret {| exist := true; pFhSector := INVALID_SECTOR;
                       fhSector := DirectorySector; filename := EmptyString |})).
  { intros dir. unfold find. rewrite splitPath_c_str, Hroot. reflexivity. }
  unfold Mkdir, Create, createFileOrDir, Open. rewrite !Hfind.
  repeat split; reflexivity.
Qed.

Lemma root_path_witness :
  c_str "/" = "/"%string
  /\ Mkdir 10 (fst formatted) "/" (snd formatted) = Ret (false, snd formatted)
  /\ Open 10 (fst formatted) "/" (snd formatted) = Abort.
Proof.
  split; [reflexivity|].
  destruct (root_path 10 (fst formatted) (snd formatted) "/" eq_refl)
    as (_ & _ & Hm & _ & Ho).
  exact (conj Hm Ho).
Defined.

Lemma find_loop_missing {mem : Memory}
    (fuel : nat) (d : SynchDisk) (dir : bool) :
  forall mid first f file sec parent psec c rest,
    (if first : bool then sec = DirectorySector else fhSector f = sec) ->
    walks fuel d file sec mid parent psec ->
    dir_lookup fuel d parent c DIR = Ret INVALID_SECTOR ->
    rest <> [] ->
    find_loop fuel d dir (mid ++ c :: rest) first f file =
    Ret {| exist := exist f; pFhSector := psec; fhSector := INVALID_SECTOR;
           filename := filename f |}.
Proof.
  induction mid as [|c0 mid IH];
    intros first f file sec parent psec c rest Hsec Hwalk Hlook Hrest.
  - inversion Hwalk; subst. cbn [app find_loop].
    unfold dir_lookup in Hlook.
    apply bind_Ret in Hlook as (table & Htable & Hfind).
    rewrite Htable. cbn [mbind outcome_bind].
    assert (Hm : match rest with [] => dir | _ => DIR end = DIR)
      by (destruct rest; [congruence | reflexivity]).
    rewrite Hm. inversion Hfind as [Hs]. rewrite Hs.
    assert (Hp : (if first then DirectorySector else fhSector f) = psec)
      by (destruct first; congruence).
    rewrite Hp. reflexivity.
  - inversion Hwalk as [|? ? ? s0 file1 ? ? ? Hl0 Hs0 Ho0 Hw0]; subst.
    change ((c0 :: mid) ++ c :: rest) with (c0 :: (mid ++ c :: rest)).
    cbn [find_loop].
    unfold dir_lookup in Hl0.
    apply bind_Ret in Hl0 as (table & Htable & Hfind).
    rewrite Htable. cbn [mbind outcome_bind].
    assert (Hm : match mid ++ c :: rest with [] => dir | _ => DIR end = DIR)
      by (destruct mid; reflexivity).
    rewrite Hm. inversion Hfind as [Hs]. rewrite Hs.
    cbn [fhSector set_fhSector].
    destruct (Z.eqb_spec s0 INVALID_SECTOR) as [E|E]; [contradiction|].
    rewrite Ho0. cbn [mbind outcome_bind].
    rewrite (IH false
               (set_fhSector
                  (set_pFhSector f
                     (if first then DirectorySector else fhSector f)) s0)
               file1 s0 parent psec c rest eq_refl Hw0 Hlook Hrest).
    reflexivity.
Qed.

Lemma last_app_nonempty {A} (l rest : list A) (dflt : A) :
  rest <> [] -> List.last (l ++ rest) dflt = List.last rest dflt.
Proof.
  intros Hrest. induction l as [|y l IH]; [reflexivity|].
  simpl. rewrite IH. destruct (l ++ rest) eqn:E; [|reflexivity].
  apply app_eq_nil in E as [_ E]. contradiction.
Qed.

Lemma stray_file_runs {mem : Memory} :
  Create 10 (fst formatted) "/x/y" 10 (snd formatted)
  = Ret (true, snd stray_file).
Proof. vm_compute. reflexivity. Qed.

Lemma stray_file_found {mem : Memory} :
  find 10 (snd stray_file) FileFinder_new "/y" FILE
    (directoryFile (fst stray_file))
  = Ret {| exist := true; pFhSector := 1; fhSector := 13; filename := "y" |}.
Proof. vm_compute. reflexivity. Qed.

(** X4.  A path one of whose directories is missing: the walk stops at
    the first name that is not a directory of the directory reached so
    far, and the finder says "not found" but keeps the sector of that
    last directory as the parent.  [createFileOrDir] only asserts that a
    parent sector is there, so the new object is entered, under its last
    name, in the deepest directory that exists: on the formatted disk
    [create /x/y 10] answers [TRUE] and makes the file [/y]. *)
Theorem find_missing_directory {mem : Memory} :
  (forall (fuel : nat) (d : SynchDisk) (root : OpenFile) (nm : string)
          (dir : bool) (x c : string) (mid rest : list string)
          (parent : OpenFile) (psec : Z),
      splitPath nm = (x :: mid ++ c :: rest, false) ->
      rest <> [] ->
      walks fuel d root DirectorySector mid parent psec ->
      dir_lookup fuel d parent c DIR = Ret INVALID_SECTOR ->
      find fuel d FileFinder_new nm dir root
      = Ret {| exist := false; pFhSector := psec;
               fhSector := INVALID_SECTOR;
               filename := List.last rest EmptyString |})
  /\ Create 10 (fst formatted) "/x/y" 10 (snd formatted)
     = Ret (true, snd stray_file)
  /\ find 10 (snd stray_file) FileFinder_new "/y" FILE
       (directoryFile (fst stray_file))
     = Ret {| exist := true; pFhSector := 1; fhSector := 13;
              filename := "y" |}.
Proof.
  split; [|split; [exact stray_file_runs | exact stray_file_found]].
  intros fuel d root nm dir x c mid rest parent psec Hsplit Hrest Hwalk Hlook.
  unfold find. rewrite Hsplit.
  destruct (String.eqb_spec (c_str nm) "/") as [E|_].
  { rewrite splitPath_c_str, E in Hsplit. vm_compute in Hsplit.
    inversion Hsplit as [[Hx Hl]]. destruct mid as [|m mid].
    - inversion Hl; subst. congruence.
    - inversion Hl as [[Hm Hl']]. destruct mid; discriminate Hl'. }
  cbn [tail].
  rewrite (find_loop_missing fuel d dir mid true _ root DirectorySector
             parent psec c rest eq_refl Hwalk Hlook Hrest).
  cbn [exist pFhSector filename set_filename FileFinder_new].
  f_equal. f_equal.
  replace (x :: mid ++ c :: rest) with ((x :: mid ++ [c]) ++ rest)
    by (simpl; rewrite <- app_assoc; reflexivity).
  apply last_app_nonempty. exact Hrest.
Qed.

Lemma find_missing_directory_witness :
  splitPath "/x/y" = (EmptyString :: [] ++ "x"%string :: ["y"%string], false)
  /\ dir_lookup 10 (snd formatted) (directoryFile (fst formatted)) "x" DIR
     = Ret INVALID_SECTOR
  /\ find 10 (snd formatted) FileFinder_new "/x/y" FILE
       (directoryFile (fst formatted))
     = Ret {| exist := false; pFhSector := DirectorySector;
              fhSector := INVALID_SECTOR; filename := "y" |}.
Proof.
  assert (H1 : splitPath "/x/y"
               = (EmptyString :: [] ++ "x"%string :: ["y"%string], false))
    by reflexivity.
  assert (H2 : dir_lookup 10 (snd formatted) (directoryFile (fst formatted))
                 "x" DIR = Ret INVALID_SECTOR)
    by (vm_compute; reflexivity).
  split; [exact H1|]. split; [exact H2|].
  exact (proj1 find_missing_directory 10%nat (snd formatted)
           (directoryFile (fst formatted)) "/x/y"%string FILE EmptyString
           "x"%string [] ["y"%string] (directoryFile (fst formatted))
           DirectorySector H1 ltac:(discriminate)
           (walks_nil 10 (snd formatted) (directoryFile (fst formatted))
              DirectorySector) H2).
Defined.

(** ** Offsets and sizes at their bounds *)

(** X5.  [ByteToSector] returns exactly when the vector has
    [numDataSectors] entries, at least one, and the quotient of the
    offset by the sector size, taken as C takes it, is an index of the
    vector.  The division rounds towards zero: an offset between
    [-SectorSize] and 0 passes the assertion and is served by the first
    sector of the file.  In every other case, that of a file without any
    data sector among them, the call ends in the assertion failure. *)
Theorem ByteToSector_bounds (h : FileHeader) (offset : Z) :
  (Z.of_nat (length (dataSectorMapping h)) = numDataSectors h ->
   0 < numDataSectors h ->
   - SectorSize < offset < numDataSectors h * SectorSize ->
   exists s,
     dataSectorMapping h !! Z.to_nat (Z.quot offset SectorSize) = Some s
     /\ ByteToSector h offset = Ret s
     /\ (offset < SectorSize -> dataSectorMapping h !! O = Some s))
  /\ (Z.of_nat (length (dataSectorMapping h)) <> numDataSectors h
      \/ numDataSectors h <= 0
      \/ offset <= - SectorSize
      \/ numDataSectors h * SectorSize <= offset ->
      ByteToSector h offset = Abort).
Proof.
  unfold ByteToSector, SectorSize. cbv zeta. split.
  - intros Hlen Hpos Hoff.
    assert (Hq : 0 <= Z.quot offset 128 < numDataSectors h).
    { destruct (Z_lt_le_dec offset 0) as [Hneg|Hnn].
      - assert (Z.quot offset 128 = 0); [|lia].
        apply Z.quot_small_iff; lia.
      - rewrite Z.quot_div_nonneg by lia. split.
        + apply Z.div_pos; lia.
        + apply Z.div_lt_upper_bound; lia. }
    destruct (lookup_lt_is_Some_2 (dataSectorMapping h)
                (Z.to_nat (Z.quot offset 128))) as [s Hs]; [lia|].
    exists s. split; [exact Hs|]. split.
    + rewrite Hs, Hlen.
      replace (0 <=? Z.quot offset 128) with true by (symmetry; apply Z.leb_le; lia).
      replace (Z.quot offset 128 <? numDataSectors h) with true
        by (symmetry; apply Z.ltb_lt; lia).
      rewrite Z.eqb_refl. reflexivity.
    + intros Hfirst.
      assert (Hz : Z.quot offset 128 = 0).
      { apply Z.quot_small_iff; lia. }
      rewrite Hz in Hs. exact Hs.
  - intros Hbad.
    destruct ((0 <=? Z.quot offset 128)
              && (Z.quot offset 128 <? Z.of_nat (length (dataSectorMapping h)))
              && (Z.of_nat (length (dataSectorMapping h)) =? numDataSectors h))
      eqn:Htest; [|reflexivity].
    exfalso.
    apply andb_prop in Htest as [Htest Heq].
    apply andb_prop in Htest as [Hlo Hhi].
    apply Z.leb_le in Hlo. apply Z.ltb_lt in Hhi. apply Z.eqb_eq in Heq.
    destruct Hbad as [Hbad|[Hbad|[Hbad|Hbad]]]; [contradiction|lia| |].
    + assert (Z.quot offset 128 <= -1); [|lia].
      rewrite <- (Z.opp_involutive offset), Z.quot_opp_l by lia.
      rewrite Z.quot_div_nonneg by lia.
      assert (1 <= (- offset) / 128); [|lia].
      apply Z.div_le_lower_bound; lia.
    + assert (numDataSectors h <= Z.quot offset 128); [|lia].
      rewrite Z.quot_div_nonneg by lia.
      apply Z.div_le_lower_bound; lia.
Qed.

Lemma ByteToSector_bounds_witness :
  ByteToSector
    {| numBytes := 200; numDataSectors := 2; dataSectors := [];
       dataSectorMapping := [7; 9]; children := [] |} (-5) = Ret 7
  /\ ByteToSector
       {| numBytes := 200; numDataSectors := 2; dataSectors := [];
          dataSectorMapping := [7; 9]; children := [] |} 256 = Abort
  /\ ByteToSector
       {| numBytes := 0; numDataSectors := 0; dataSectors := [];
          dataSectorMapping := []; children := [] |} (-5) = Abort.
Proof.
  split; [|split].
  - destruct (proj1 (ByteToSector_bounds
                       {| numBytes := 200; numDataSectors := 2;
                          dataSectors := []; dataSectorMapping := [7; 9];
                          children := [] |} (-5)))
      as (s & Hs & Hrun & _); [reflexivity | reflexivity | split; reflexivity |].
    injection Hs as <-. exact Hrun.
  - apply (proj2 (ByteToSector_bounds
                    {| numBytes := 200; numDataSectors := 2;
                       dataSectors := []; dataSectorMapping := [7; 9];
                       children := [] |} 256)).
    right. right. right. discriminate.
  - apply (proj2 (ByteToSector_bounds
                    {| numBytes := 0; numDataSectors := 0;
                       dataSectors := []; dataSectorMapping := [];
                       children := [] |} (-5))).
    right. left. discriminate.
Defined.

Lemma Allocate_true_size (freeMap freeMap' : Bitmap.t) (size : Z)
    (h : FileHeader) :
  Allocate freeMap size = Ret (true, h, freeMap') -> size <= MAX_SIZE 3.
Proof.
  unfold Allocate, LEVEL_LIMIT. rewrite Allocate_node_unfold. cbv zeta.
  destruct (Bitmap.NumClear freeMap <? divRoundUp size SectorSize);
    [intros H; discriminate H|].
  intros H. apply bind_Ret in H as (lv & Hlv & _).
  apply whichLv_Ret_inv in Hlv as (Hlt & Hle & _).
  destruct (decide (lv = 3%nat)) as [->|Hne]; [exact Hle|].
  pose proof (MAX_SIZE_mono lv 3 ltac:(lia) ltac:(lia)). lia.
Qed.

(** X6.  [Create] answers [TRUE] only for a size between 0 and
    [MAX_SIZE[3]], and only for a path that [find] did not report as a
    file: a negative size fails the assertion on the size, a size past the
    last threshold cannot be allocated. *)
Theorem Create_true_inv {mem : Memory}
    (fuel : nat) (fs : FileSystem) (nm : string)
    (initialSize : Z) (d d' : SynchDisk) :
  Create fuel fs nm initialSize d = Ret (true, d') ->
  0 <= initialSize <= MAX_SIZE 3
  /\ exists f,
       find fuel d FileFinder_new nm FILE (directoryFile fs) = Ret f
       /\ exist f = false /\ pFhSector f <> INVALID_SECTOR.
Proof.
  unfold Create, createFileOrDir. intros Hrun.
  apply bind_Ret in Hrun as (f & Hfind & Hrun).
  destruct (exist f) eqn:Hexist; [discriminate|].
  apply bind_Ret in Hrun as (u1 & Hparent & Hrun).
  apply bind_Ret in Hrun as (freeMap & _ & Hrun).
  destruct (Bitmap.FindAndSet freeMap) as [sec freeMap1].
  apply bind_Ret in Hrun as (u2 & _ & Hrun).
  apply bind_Ret in Hrun as (openPfh & _ & Hrun).
  apply bind_Ret in Hrun as (pDir & _ & Hrun).
  destruct (Directory.Add pDir (filename f) sec FILE) as [ok pDir1].
  apply bind_Ret in Hrun as (u3 & _ & Hrun).
  apply bind_Ret in Hrun as (u4 & Hsize & Hrun).
  apply bind_Ret in Hrun as ([[ok' fh] freeMap2] & Halloc & Hrun).
  apply bind_Ret in Hrun as (u5 & Hok & _).
  apply ASSERT_Ret in Hsize, Hok, Hparent. subst ok'.
  change (if FILE then Z.of_nat NumDirEntries * sizeof_DirectoryEntry
          else initialSize) with initialSize in Hsize, Halloc.
  apply Z.leb_le in Hsize.
  apply Allocate_true_size in Halloc.
  split; [lia|]. exists f. split; [exact Hfind|]. split; [exact Hexist|].
  apply negb_true_iff in Hparent. apply Z.eqb_neq in Hparent. exact Hparent.
Qed.

Lemma Create_true_inv_witness :
  Create 10 (fst formatted) "/x/y" 10 (snd formatted)
  = Ret (true, snd stray_file)
  /\ 0 <= 10 <= MAX_SIZE 3.
Proof.
  split; [exact stray_file_runs|].
  exact (proj1 (Create_true_inv 10 (fst formatted) "/x/y" 10 (snd formatted)
                  (snd stray_file) stray_file_runs)).
Defined.

(** ** The table of open files *)

Lemma table_at_Some (table : OpenFileTable) (k : nat) (slot : option OpenFile) :
  table !! k = Some slot -> table_at table (Z.of_nat k) = Ret slot.
Proof.
  intros H. unfold table_at.
  destruct (Z.ltb_spec (Z.of_nat k) 0) as [Hneg|_]; [lia|].
  rewrite Nat2Z.id, H. reflexivity.
Qed.

Lemma free_id_first (table : OpenFileTable) (j : nat) :
  forall k i,
    (i + j < length table)%nat -> (j < k)%nat ->
    (forall x, (i <= x < i + j)%nat -> exists file, table !! x = Some (Some file)) ->
    table !! (i + j)%nat = Some None ->
    free_id k (Z.of_nat i) table = Ret (Z.of_nat (i + j)).
Proof.
  induction j as [|j IH]; intros k i Hlen Hk Hbusy Hfree.
  - destruct k as [|k]; [lia|]. simpl.
    rewrite Nat.add_0_r in *. rewrite (table_at_Some _ _ _ Hfree). reflexivity.
  - destruct k as [|k]; [lia|]. simpl.
    destruct (Hbusy i) as [file Hfile]; [lia|].
    rewrite (table_at_Some _ _ _ Hfile). simpl.
    replace (Z.of_nat i + 1) with (Z.of_nat (S i)) by lia.
    rewrite (IH k (S i)).
    + f_equal. lia.
    + lia.
    + lia.
    + intros x Hx. apply Hbusy. lia.
    + replace (S i + j)%nat with (i + S j)%nat by lia. exact Hfree.
Qed.

Lemma free_id_full (table : OpenFileTable) :
  forall k i,
    (i + k <= length table)%nat ->
    (forall x, (i <= x < i + k)%nat -> exists file, table !! x = Some (Some file)) ->
    free_id k (Z.of_nat i) table = Ret (Z.of_nat (i + k)).
Proof.
  induction k as [|k IH]; intros i Hlen Hbusy.
  - simpl. f_equal. lia.
  - simpl. destruct (Hbusy i) as [file Hfile]; [lia|].
    rewrite (table_at_Some _ _ _ Hfile). simpl.
    replace (Z.of_nat i + 1) with (Z.of_nat (S i)) by lia.
    rewrite (IH (S i)).
    + f_equal. lia.
    + lia.
    + intros x Hx. apply Hbusy. lia.
Qed.

(** X7.  [OpenAFile] hands out the smallest identifier that is free: with
    the places before [k] taken and place [k] empty, the file that [Open]
    returns is put in place [k], [k] is the answer, and no other place
    changes.  With all twenty places taken the answer is [-1], the table
    stays as it is and the name is not even looked up, so that a name
    [Open] would abort on does no harm. *)
Theorem OpenAFile_smallest_free {mem : Memory} (fuel : nat) (fs : FileSystem)
    (table : OpenFileTable) (nm : string) (d : SynchDisk) :
  length table = Z.to_nat FILE_OPEN_LIMIT ->
  (forall (k : nat) (file : OpenFile),
      table !! k = Some None ->
      (forall x, (x < k)%nat -> exists f, table !! x = Some (Some f)) ->
      Open fuel fs nm d = Ret file ->
      OpenAFile fuel fs table nm d
      = Ret (Z.of_nat k, <[k := Some file]> table)
      /\ 0 <= Z.of_nat k < FILE_OPEN_LIMIT
      /\ length (<[k := Some file]> table) = Z.to_nat FILE_OPEN_LIMIT)
  /\ ((forall x, (x < 20)%nat -> exists f, table !! x = Some (Some f)) ->
      OpenAFile fuel fs table nm d = Ret (-1, table)).
Proof.
  intros Hlen. change (Z.to_nat FILE_OPEN_LIMIT) with 20%nat in *. split.
  - intros k file Hfree Hbusy Hopen.
    assert (Hk : (k < 20)%nat).
    { apply lookup_lt_Some in Hfree. lia. }
    unfold OpenAFile.
    pose proof (free_id_first table k 20 0) as Hid.
    change (Z.of_nat 0) with 0 in Hid. rewrite Hid; clear Hid;
      [|lia|lia| |exact Hfree].
    + simpl. destruct (Z.eqb_spec (Z.of_nat k) 20) as [E|_]; [lia|].
      rewrite Hopen, Nat2Z.id. simpl.
      split; [reflexivity|]. split; [unfold FILE_OPEN_LIMIT; lia|].
      rewrite length_insert. exact Hlen.
    + intros x Hx. apply Hbusy. lia.
  - intros Hbusy. unfold OpenAFile.
    pose proof (free_id_full table 20 0) as Hid.
    change (Z.of_nat 0) with 0 in Hid. rewrite Hid; clear Hid;
      [reflexivity | lia |].
    intros x Hx. apply Hbusy. lia.
Qed.

Lemma OpenAFile_smallest_free_witness :
  OpenAFile 10 (fst stray_file) OpenFileTable_new "/y" (snd stray_file)
  = Ret (0, <[O := Some (value (Open 10 (fst stray_file) "/y" (snd stray_file))
                          {| hdr := fresh_header; seekPosition := 0 |})]>
              OpenFileTable_new).
Proof.
  assert (Hopen : Open 10 (fst stray_file) "/y" (snd stray_file)
                  = Ret (value (Open 10 (fst stray_file) "/y" (snd stray_file))
                           {| hdr := fresh_header; seekPosition := 0 |}))
    by (vm_compute; reflexivity).
  apply (proj1 (OpenAFile_smallest_free 10 (fst stray_file) OpenFileTable_new
                  "/y" (snd stray_file) eq_refl) O _ eq_refl);
    [intros x Hx; lia | exact Hopen].
Defined.

Lemma isValidFileId_lookup (table : OpenFileTable) (id : Z)
    (slot : option OpenFile) :
  0 <= id < FILE_OPEN_LIMIT -> table !! Z.to_nat id = Some slot ->
  isValidFileId table id = Ret (bool_decide (slot <> None))
  /\ table_at table id = Ret slot.
Proof.
  intros Hid Hslot. unfold isValidFileId, table_at.
  destruct (Z.leb_spec 0 id) as [_|?]; [|lia].
  destruct (Z.ltb_spec id FILE_OPEN_LIMIT) as [_|?]; [|lia].
  destruct (Z.ltb_spec id 0) as [?|_]; [lia|].
  rewrite Hslot. split; reflexivity.
Qed.

Lemma isValidFileId_outside (table : OpenFileTable) (id : Z) :
  id < 0 \/ FILE_OPEN_LIMIT <= id -> isValidFileId table id = Ret false.
Proof.
  intros Hid. unfold isValidFileId.
  destruct (Z.leb_spec 0 id) as [?|?]; [|reflexivity].
  destruct (Z.ltb_spec id FILE_OPEN_LIMIT) as [?|?]; [lia | reflexivity].
Qed.

(** X8.  [CloseFile] answers 1 exactly for an identifier of the table
    whose place holds a file: the place is emptied and no other place
    changes, so the identifier is not valid any more and closing it a
    second time answers [-1].  For an identifier outside the table, or
    one whose place is empty, the answer is [-1] and the table stays as
    it is. *)
Theorem CloseFile_valid_only (table : OpenFileTable) (id : Z) :
  length table = Z.to_nat FILE_OPEN_LIMIT ->
  (forall file,
      0 <= id < FILE_OPEN_LIMIT ->
      table !! Z.to_nat id = Some (Some file) ->
      CloseFile table id = Ret (1, <[Z.to_nat id := None]> table)
      /\ isValidFileId (<[Z.to_nat id := None]> table) id = Ret false
      /\ CloseFile (<[Z.to_nat id := None]> table) id
         = Ret (-1, <[Z.to_nat id := None]> table)
      /\ forall id', id' <> id ->
           isValidFileId (<[Z.to_nat id := None]> table) id'
           = isValidFileId table id')
  /\ (id < 0 \/ FILE_OPEN_LIMIT <= id \/ table !! Z.to_nat id = Some None ->
      CloseFile table id = Ret (-1, table)).
Proof.
  intros Hlen. split.
  - intros file Hid Hslot.
    destruct (isValidFileId_lookup table id _ Hid Hslot) as [Hvalid _].
    assert (Hcleared : <[Z.to_nat id := None]> table !! Z.to_nat id = Some None).
    { apply list_lookup_insert_eq. apply lookup_lt_Some in Hslot. exact Hslot. }
    destruct (isValidFileId_lookup _ id _ Hid Hcleared) as [Hvalid' _].
    split; [unfold CloseFile; rewrite Hvalid; reflexivity|].
    split; [exact Hvalid'|].
    split; [unfold CloseFile; rewrite Hvalid'; reflexivity|].
    intros id' Hne. unfold isValidFileId, table_at.
    destruct ((0 <=? id') && (id' <? FILE_OPEN_LIMIT)) eqn:Hrange;
      [|reflexivity].
    apply andb_prop in Hrange as [Hlo _]. apply Z.leb_le in Hlo.
    rewrite list_lookup_insert_ne by lia. reflexivity.
  - intros [Hout|[Hout|Hempty]].
    + unfold CloseFile. rewrite isValidFileId_outside by lia. reflexivity.
    + unfold CloseFile. rewrite isValidFileId_outside by lia. reflexivity.
    + unfold CloseFile.
      destruct (Z_lt_le_dec id 0) as [?|Hlo];
        [rewrite isValidFileId_outside by lia; reflexivity|].
      destruct (Z_lt_le_dec id FILE_OPEN_LIMIT) as [Hhi|?];
        [|rewrite isValidFileId_outside by lia; reflexivity].
      destruct (isValidFileId_lookup table id _ (conj Hlo Hhi) Hempty)
        as [Hvalid _].
      rewrite Hvalid. reflexivity.
Qed.

Lemma CloseFile_valid_only_witness :
  CloseFile (<[3%nat := Some {| hdr := fresh_header; seekPosition := 0 |}]>
               OpenFileTable_new) 3
  = Ret (1, OpenFileTable_new)
  /\ CloseFile OpenFileTable_new 3 = Ret (-1, OpenFileTable_new)
  /\ CloseFile OpenFileTable_new 20 = Ret (-1, OpenFileTable_new).
Proof.
  assert (Hlen : length (<[3%nat := Some {| hdr := fresh_header;
                                            seekPosition := 0 |}]>
                           OpenFileTable_new)
                 = Z.to_nat FILE_OPEN_LIMIT) by reflexivity.
  split; [|split].
  - apply (proj1 (CloseFile_valid_only
                    (<[3%nat := Some {| hdr := fresh_header;
                                        seekPosition := 0 |}]>
                       OpenFileTable_new) 3 Hlen)
             {| hdr := fresh_header; seekPosition := 0 |});
      [split; [discriminate | reflexivity] | reflexivity].
  - apply (proj2 (CloseFile_valid_only OpenFileTable_new 3 eq_refl)).
    right. right. reflexivity.
  - apply (proj2 (CloseFile_valid_only OpenFileTable_new 20 eq_refl)).
    right. left. discriminate.
Defined.

Lemma free_id_inv (table : OpenFileTable) :
  forall k i r,
    0 <= i -> free_id k i table = Ret r ->
    i <= r <= i + Z.of_nat k
    /\ (r < i + Z.of_nat k -> table !! Z.to_nat r = Some None).
Proof.
  induction k as [|k IH]; intros i r Hi Hrun.
  - simpl in Hrun. injection Hrun as <-. lia.
  - simpl in Hrun. apply bind_Ret in Hrun as (slot & Hslot & Hrun).
    unfold table_at in Hslot.
    destruct (Z.ltb_spec i 0) as [?|_]; [discriminate|].
    destruct (table !! Z.to_nat i) as [slot'|] eqn:Hlook; [|discriminate].
    injection Hslot as ->.
    destruct slot as [file|].
    + apply IH in Hrun as [Hr Hfree]; [|lia]. split; [lia|].
      intros Hlt. apply Hfree. lia.
    + injection Hrun as <-. split; [lia|]. intros _. exact Hlook.
Qed.

(** X9.  What [OpenAFile] hands out, [CloseFile] takes back: an answer
    other than [-1] is an identifier between 0 and 19 whose place was
    empty; it is valid in the new table, which has twenty places still;
    and closing it answers 1 and gives the table of before. *)
Theorem OpenAFile_then_CloseFile {mem : Memory} (fuel : nat) (fs : FileSystem)
    (table table' : OpenFileTable) (nm : string) (d : SynchDisk) (id : Z) :
  length table = Z.to_nat FILE_OPEN_LIMIT ->
  OpenAFile fuel fs table nm d = Ret (id, table') ->
  id <> -1 ->
  0 <= id < FILE_OPEN_LIMIT
  /\ table !! Z.to_nat id = Some None
  /\ (exists file, Open fuel fs nm d = Ret file
                   /\ table' = <[Z.to_nat id := Some file]> table)
  /\ length table' = Z.to_nat FILE_OPEN_LIMIT
  /\ isValidFileId table' id = Ret true
  /\ CloseFile table' id = Ret (1, table).
Proof.
  intros Hlen Hrun Hid. unfold OpenAFile in Hrun.
  apply bind_Ret in Hrun as (r & Hfree & Hrun).
  apply free_id_inv in Hfree as [Hr Hempty]; [|lia].
  destruct (Z.eqb_spec r 20) as [E|Hne].
  { injection Hrun as <- _. congruence. }
  apply bind_Ret in Hrun as (file & Hopen & Hrun).
  injection Hrun as <- <-.
  assert (Hrange : 0 <= r < FILE_OPEN_LIMIT) by (unfold FILE_OPEN_LIMIT; lia).
  specialize (Hempty ltac:(lia)).
  assert (Hnew : <[Z.to_nat r := Some file]> table !! Z.to_nat r
                 = Some (Some file)).
  { apply list_lookup_insert_eq. apply lookup_lt_Some in Hempty. exact Hempty. }
  destruct (isValidFileId_lookup _ r _ Hrange Hnew) as [Hvalid _].
  split; [exact Hrange|]. split; [exact Hempty|].
  split; [exists file; split; [exact Hopen | reflexivity]|].
  split; [rewrite length_insert; exact Hlen|].
  split; [exact Hvalid|].
  unfold CloseFile. rewrite Hvalid. simpl.
  rewrite list_insert_insert_eq, list_insert_id by exact Hempty. reflexivity.
Qed.

Lemma OpenAFile_then_CloseFile_witness :
  CloseFile
    (<[O := Some (value (Open 10 (fst stray_file) "/y" (snd stray_file))
                    {| hdr := fresh_header; seekPosition := 0 |})]>
       OpenFileTable_new) 0
  = Ret (1, OpenFileTable_new).
Proof.
  assert (Hrun : OpenAFile 10 (fst stray_file) OpenFileTable_new "/y"
                   (snd stray_file)
                 = Ret (0, <[O := Some (value (Open 10 (fst stray_file) "/y"
                                                 (snd stray_file))
                                          {| hdr := fresh_header;
                                             seekPosition := 0 |})]>
                             OpenFileTable_new))
    by (vm_compute; reflexivity).
  apply (OpenAFile_then_CloseFile 10 (fst stray_file) OpenFileTable_new _
           "/y" (snd stray_file) 0 eq_refl Hrun).
  discriminate.
Defined.

Section DescriptorGuards.

Variable OpenFile_Read :
  OpenFile -> Z -> SynchDisk -> outcome (Z * list Z * OpenFile).
Variable OpenFile_Write :
  OpenFile -> list Z -> Z -> SynchDisk -> outcome (Z * OpenFile * SynchDisk).

(** X10.  [ReadFile] and [WriteFile_] reach the file only with a buffer,
    a count that is not negative and a valid identifier.  Without one of
    them the answer is [-1] whatever [OpenFile::Read] and
    [OpenFile::Write] do, and neither the table nor the disk changes; so
    it is for every identifier once it is closed.  With all three the
    answer is the one of the file, whose place in the table is the only
    one to change. *)
Theorem ReadFile_WriteFile_guard (table : OpenFileTable)
    (buffer : option (list Z)) (size id : Z) (d : SynchDisk) :
  length table = Z.to_nat FILE_OPEN_LIMIT ->
  (buffer = None \/ size < 0 \/ isValidFileId table id = Ret false ->
   ReadFile OpenFile_Read table buffer size id d = Ret (-1, [], table)
   /\ WriteFile_ OpenFile_Write table buffer size id d = Ret (-1, table, d))
  /\ (forall file from,
         buffer = Some from -> 0 <= size -> 0 <= id < FILE_OPEN_LIMIT ->
         table !! Z.to_nat id = Some (Some file) ->
         ReadFile OpenFile_Read table buffer size id d
         = ('(n, bytes, file') ← OpenFile_Read file size d;
            Ret (n, bytes, <[Z.to_nat id := Some file']> table))
         /\ WriteFile_ OpenFile_Write table buffer size id d
            = ('(n, file', d') ← OpenFile_Write file from size d;
               Ret (n, <[Z.to_nat id := Some file']> table, d')))
  /\ (forall file,
         0 <= id < FILE_OPEN_LIMIT ->
         table !! Z.to_nat id = Some (Some file) ->
         ReadFile OpenFile_Read (<[Z.to_nat id := None]> table) buffer size id d
         = Ret (-1, [], <[Z.to_nat id := None]> table)).
Proof.
  intros Hlen. split; [|split].
  - intros Hbad. unfold ReadFile, WriteFile_.
    destruct buffer as [from|]; [|split; reflexivity].
    destruct (Z.leb_spec 0 size) as [Hsize|_]; [|split; reflexivity].
    destruct Hbad as [Hbad|[Hbad|Hbad]]; [discriminate | lia |].
    rewrite Hbad. split; reflexivity.
  - intros file from -> Hsize Hid Hslot. unfold ReadFile, WriteFile_.
    destruct (Z.leb_spec 0 size) as [_|?]; [|lia].
    destruct (isValidFileId_lookup table id _ Hid Hslot) as [Hvalid Hat].
    rewrite Hvalid, Hat. split; reflexivity.
  - intros file Hid Hslot.
    assert (Hcleared : <[Z.to_nat id := None]> table !! Z.to_nat id = Some None).
    { apply list_lookup_insert_eq. apply lookup_lt_Some in Hslot. exact Hslot. }
    destruct (isValidFileId_lookup _ id _ Hid Hcleared) as [Hvalid _].
    unfold ReadFile. destruct buffer; [|reflexivity].
    destruct (0 <=? size); [|reflexivity].
    rewrite Hvalid. reflexivity.
Qed.

End DescriptorGuards.

Lemma ReadFile_WriteFile_guard_witness :
  ReadFile (fun _ _ _ => Abort) OpenFileTable_new (Some [1; 2]) 2 5
    (blank_disk 4)
  = Ret (-1, [], OpenFileTable_new)
  /\ WriteFile_ (fun _ _ _ _ => Abort) OpenFileTable_new (Some [1; 2]) 2 5
       (blank_disk 4)
     = Ret (-1, OpenFileTable_new, blank_disk 4).
Proof.
  apply (proj1 (ReadFile_WriteFile_guard (fun _ _ _ => Abort)
                  (fun _ _ _ _ => Abort) OpenFileTable_new (Some [1; 2]) 2 5
                  (blank_disk 4) eq_refl)).
  right. right. reflexivity.
Defined.

(** ** Sectors taken from the bitmap *)

Lemma Test_Mark (s s' : Z) (m : Bitmap.t) :
  0 <= s' < Z.of_nat (length m) ->
  Bitmap.Test s (Bitmap.Mark s' m) = Bitmap.Test s m || bool_decide (s = s').
Proof.
  intros Hs'. unfold Bitmap.Test, Bitmap.Mark.
  destruct (Z.ltb_spec s' 0) as [?|_]; [lia|].
  destruct (Z.ltb_spec s 0) as [Hneg|Hpos].
  - rewrite bool_decide_eq_false_2 by lia. reflexivity.
  - destruct (decide (s = s')) as [->|Hne].
    + rewrite list_lookup_insert_eq by lia.
      rewrite bool_decide_eq_true_2 by reflexivity.
      simpl. rewrite orb_true_r. reflexivity.
    + rewrite list_lookup_insert_ne by lia.
      rewrite bool_decide_eq_false_2 by exact Hne.
      rewrite orb_false_r. reflexivity.
Qed.

Lemma Test_lookup (k : nat) (m : Bitmap.t) (b : bool) :
  m !! k = Some b -> Bitmap.Test (Z.of_nat k) m = b.
Proof.
  intros H. unfold Bitmap.Test.
  destruct (Z.ltb_spec (Z.of_nat k) 0) as [?|_]; [lia|].
  rewrite Nat2Z.id, H. reflexivity.
Qed.

Lemma Test_true_range (s : Z) (m : Bitmap.t) :
  Bitmap.Test s m = true -> 0 <= s < Z.of_nat (length m).
Proof.
  unfold Bitmap.Test. destruct (Z.ltb_spec s 0) as [?|Hpos]; [discriminate|].
  destruct (m !! Z.to_nat s) eqn:E; [|discriminate].
  intros _. apply lookup_lt_Some in E. lia.
Qed.

Lemma takes_nil (m : Bitmap.t) : takes m [] m.
Proof.
  split; [constructor|]. split; [constructor|]. split; [reflexivity|].
  intros s. rewrite bool_decide_eq_false_2 by (apply not_elem_of_nil).
  rewrite orb_false_r. reflexivity.
Qed.

Lemma takes_app (m m1 m2 : Bitmap.t) (a b : list Z) :
  takes m a m1 -> takes m1 b m2 -> takes m (a ++ b) m2.
Proof.
  intros (Na & Fa & La & Ta) (Nb & Fb & Lb & Tb).
  split; [|split; [|split]].
  - apply NoDup_app. split; [exact Na|]. split; [|exact Nb].
    intros s Hsa Hsb.
    rewrite Forall_forall in Fb. destruct (Fb s Hsb) as [_ Hclear].
    rewrite Ta, bool_decide_eq_true_2, orb_true_r in Hclear by exact Hsa.
    discriminate.
  - apply Forall_app. split; [exact Fa|].
    rewrite Forall_forall in Fb |- *. intros s Hs.
    destruct (Fb s Hs) as [Hr Hclear]. rewrite La in Hr. split; [exact Hr|].
    rewrite Ta in Hclear. apply orb_false_elim in Hclear as [Hclear _].
    exact Hclear.
  - rewrite Lb. exact La.
  - intros s. rewrite Tb, Ta, <- orb_assoc. f_equal.
    destruct (decide (s ∈ a)) as [Ha|Ha], (decide (s ∈ b)) as [Hb|Hb].
    + rewrite !bool_decide_eq_true_2; [reflexivity| | |]; try assumption.
      apply elem_of_app. left. exact Ha.
    + rewrite (bool_decide_eq_true_2 _ Ha), (bool_decide_eq_false_2 _ Hb).
      rewrite bool_decide_eq_true_2; [reflexivity|].
      apply elem_of_app. left. exact Ha.
    + rewrite (bool_decide_eq_false_2 _ Ha), (bool_decide_eq_true_2 _ Hb).
      rewrite bool_decide_eq_true_2; [reflexivity|].
      apply elem_of_app. right. exact Hb.
    + rewrite (bool_decide_eq_false_2 _ Ha), (bool_decide_eq_false_2 _ Hb).
      rewrite bool_decide_eq_false_2; [reflexivity|].
      intros Hab. apply elem_of_app in Hab as [?|?]; contradiction.
Qed.

Lemma FindAndSet_cases (m : Bitmap.t) :
  (Bitmap.FindAndSet m = (-1, m) /\ Bitmap.NumClear m = 0)
  \/ exists s, Bitmap.FindAndSet m = (s, Bitmap.Mark s m) /\ takes m [s] (Bitmap.Mark s m).
Proof.
  unfold Bitmap.FindAndSet.
  destruct (BitmapFacts.find_clear_spec m 0 ltac:(lia)) as [[Hnone Hfind]|(k & Hfind & Hk)].
  - left. rewrite Hfind. simpl. split; [reflexivity | exact Hnone].
  - right. rewrite Hfind. exists (0 + Z.of_nat k).
    destruct (Z.ltb_spec (0 + Z.of_nat k) 0) as [?|_]; [lia|].
    split; [reflexivity|].
    assert (Hr : 0 <= 0 + Z.of_nat k < Z.of_nat (length m)).
    { apply lookup_lt_Some in Hk. lia. }
    split; [apply NoDup_singleton|]. split.
    + repeat constructor; [lia | lia |].
      rewrite Z.add_0_l. apply Test_lookup. exact Hk.
    + split.
      * unfold Bitmap.Mark. destruct (0 + Z.of_nat k <? 0); [reflexivity|].
        apply length_insert.
      * intros s. rewrite Test_Mark by exact Hr. f_equal.
        apply bool_decide_ext. rewrite list_elem_of_singleton. reflexivity.
Qed.

Lemma takes_keeps_marks (m m' : Bitmap.t) (taken : list Z) :
  takes m taken m' -> keeps_marks m m'.
Proof.
  intros (_ & _ & Hlen & Htest). split; [exact Hlen|].
  intros s Hs. rewrite Htest, Hs. reflexivity.
Qed.

Lemma keeps_marks_refl (m : Bitmap.t) : keeps_marks m m.
Proof. split; [reflexivity | auto]. Qed.

Lemma keeps_marks_trans (m1 m2 m3 : Bitmap.t) :
  keeps_marks m1 m2 -> keeps_marks m2 m3 -> keeps_marks m1 m3.
Proof.
  intros [L1 T1] [L2 T2]. split; [congruence | auto].
Qed.

Lemma FindAndSet_keeps_marks (m : Bitmap.t) :
  keeps_marks m (snd (Bitmap.FindAndSet m)).
Proof.
  destruct (FindAndSet_cases m) as [[E _]|(s & E & Ht)]; rewrite E; simpl.
  - apply keeps_marks_refl.
  - eapply takes_keeps_marks. exact Ht.
Qed.

Lemma alloc_direct_keeps_marks (n : nat) :
  forall i m secs mapping m' secs' mapping',
    alloc_direct n i m secs mapping = Ret (m', secs', mapping') ->
    keeps_marks m m'.
Proof.
  induction n as [|n IH]; intros i m secs mapping m' secs' mapping' Hrun.
  - simpl in Hrun. injection Hrun as <- _ _. apply keeps_marks_refl.
  - simpl in Hrun. apply bind_Ret in Hrun as (u & _ & Hrun).
    pose proof (FindAndSet_keeps_marks m) as Hk.
    destruct (Bitmap.FindAndSet m) as [s m1]. simpl in Hk.
    apply bind_Ret in Hrun as (u' & _ & Hrun).
    apply IH in Hrun. eapply keeps_marks_trans; eassumption.
Qed.

Section AllocChildrenMarks.

Variable alloc : Bitmap.t -> Z -> outcome (bool * FileHeader * Bitmap.t).
Hypothesis alloc_keeps :
  forall m size ok kid m',
    alloc m size = Ret (ok, kid, m') -> keeps_marks m m'.

Lemma alloc_children_keeps_marks (slots : nat) :
  forall i chunk m r secs mapping kids m' secs' mapping' kids',
    alloc_children alloc slots i chunk m r secs mapping kids
    = Ret (m', secs', mapping', kids') ->
    keeps_marks m m'.
Proof.
  induction slots as [|slots IH];
    intros i chunk m r secs mapping kids m' secs' mapping' kids' Hrun.
  - simpl in Hrun. destruct (r <=? 0); [|discriminate].
    injection Hrun as <- _ _ _. apply keeps_marks_refl.
  - simpl in Hrun. destruct (r <=? 0).
    { injection Hrun as <- _ _ _. apply keeps_marks_refl. }
    pose proof (FindAndSet_keeps_marks m) as Hk.
    destruct (Bitmap.FindAndSet m) as [s m1]. simpl in Hk.
    apply bind_Ret in Hrun as (u & _ & Hrun).
    apply bind_Ret in Hrun as ([[ok kid] m2] & Hkid & Hrun).
    apply alloc_keeps in Hkid. apply IH in Hrun.
    eapply keeps_marks_trans; [exact Hk|].
    eapply keeps_marks_trans; eassumption.
Qed.

End AllocChildrenMarks.

Lemma Allocate_node_keeps_marks (fuel : nat) :
  forall m size ok h m',
    Allocate_node fuel m size = Ret (ok, h, m') ->
    keeps_marks m m' /\ (ok = false -> m' = m).
Proof.
  induction fuel as [|fuel IH]; intros m size ok h m' Hrun; [discriminate|].
  rewrite Allocate_node_unfold in Hrun. cbv zeta in Hrun.
  destruct (Bitmap.NumClear m <? divRoundUp size SectorSize).
  { injection Hrun as <- _ <-. split; [apply keeps_marks_refl | reflexivity]. }
  apply bind_Ret in Hrun as (lv & _ & Hrun).
  destruct lv as [|lv].
  - apply bind_Ret in Hrun as ([[m1 secs] mapping] & Hloop & Hrun).
    injection Hrun as <- _ <-.
    split; [|discriminate]. eapply alloc_direct_keeps_marks. exact Hloop.
  - apply bind_Ret in Hrun as ([[[m1 secs] mapping] kids] & Hloop & Hrun).
    injection Hrun as <- _ <-.
    split; [|discriminate].
    eapply alloc_children_keeps_marks; [|exact Hloop].
    intros m0 size0 ok0 kid0 m0' H0. apply (IH _ _ _ _ _ H0).
Qed.

(** X11.  [Allocate] only ever marks sectors: whatever it answers, the
    bitmap has as many bits as before and every sector that was marked
    still is; and when the answer is [FALSE] the bitmap is the one it was
    given, not a bit of it changed. *)
Theorem Allocate_keeps_marks (freeMap freeMap' : Bitmap.t) (fileSize : Z)
    (ok : bool) (h : FileHeader) :
  Allocate freeMap fileSize = Ret (ok, h, freeMap') ->
  length freeMap' = length freeMap
  /\ (forall s, Bitmap.Test s freeMap = true -> Bitmap.Test s freeMap' = true)
  /\ (ok = false -> freeMap' = freeMap).
Proof.
  intros Hrun. apply Allocate_node_keeps_marks in Hrun as [[Hlen Hkeep] Hno].
  auto.
Qed.

Lemma Allocate_keeps_marks_witness :
  Allocate [true; false; true; false] 300
  = Ret (false, header_of (Allocate [true; false; true; false] 300),
         [true; false; true; false])
  /\ length [true; false; true; false] = 4%nat.
Proof.
  assert (Hrun : Allocate [true; false; true; false] 300
                 = Ret (false,
                        header_of (Allocate [true; false; true; false] 300),
                        [true; false; true; false]))
    by (vm_compute; reflexivity).
  split; [exact Hrun|].
  exact (proj1 (Allocate_keeps_marks _ _ _ _ _ Hrun)).
Defined.

(** ** The sectors of a header tree *)

Lemma header_sectors_eq (h : FileHeader) :
  header_sectors h
  = match whichLv (numBytes h) with
    | Ret (S _) =>
        over_children (fun s kid => s :: header_sectors kid)
          (dataSectors h) (children h)
    | _ => []
    end.
Proof. destruct h; reflexivity. Qed.

Lemma data_sectors_eq (h : FileHeader) :
  data_sectors h
  = match whichLv (numBytes h) with
    | Ret O => take (Z.to_nat (numDataSectors h)) (dataSectors h)
    | Ret (S _) =>
        over_children (fun _ kid => data_sectors kid)
          (dataSectors h) (children h)
    | _ => []
    end.
Proof. destruct h; reflexivity. Qed.

Lemma all_sectors_eq (h : FileHeader) :
  all_sectors h
  = match whichLv (numBytes h) with
    | Ret O => take (Z.to_nat (numDataSectors h)) (dataSectors h)
    | Ret (S _) =>
        over_children (fun s kid => s :: all_sectors kid)
          (dataSectors h) (children h)
    | _ => []
    end.
Proof. destruct h; reflexivity. Qed.

Lemma over_children_nil_kids {A} (g : Z -> FileHeader -> list A) (secs : list Z) :
  over_children g secs [] = [].
Proof. destruct secs as [|s secs]; [reflexivity|]. simpl. destruct (s =? INVALID_SECTOR); reflexivity. Qed.

Lemma over_children_zip {A} (g : Z -> FileHeader -> list A) (news : list Z) :
  forall rest kids,
    length news = length kids ->
    Forall (fun s => s <> INVALID_SECTOR) news ->
    over_children g (news ++ rest) kids = concat (zip_with g news kids).
Proof.
  induction news as [|s news IH]; intros rest kids Hlen Hlive.
  - destruct kids; [|discriminate]. apply over_children_nil_kids.
  - destruct kids as [|kid kids]; [discriminate|].
    inversion Hlive as [|? ? Hs Hlive']; subst.
    simpl. destruct (Z.eqb_spec s INVALID_SECTOR) as [?|_]; [contradiction|].
    rewrite IH; [reflexivity | simpl in Hlen; lia | exact Hlive'].
Qed.

Lemma over_children_perm (kids : list FileHeader) :
  Forall (fun k => all_sectors k ≡ₚ header_sectors k ++ data_sectors k) kids ->
  forall secs,
    over_children (fun s kid => s :: all_sectors kid) secs kids
    ≡ₚ over_children (fun s kid => s :: header_sectors kid) secs kids
       ++ over_children (fun _ kid => data_sectors kid) secs kids.
Proof.
  induction 1 as [|kid kids Hkid _ IH]; intros secs.
  - rewrite !over_children_nil_kids. reflexivity.
  - destruct secs as [|s secs]; [reflexivity|].
    simpl. destruct (s =? INVALID_SECTOR); [reflexivity|].
    rewrite (IH secs), Hkid. simpl. constructor.
    rewrite <- !app_assoc. f_equiv. rewrite !app_assoc. f_equiv.
    apply Permutation_app_comm.
Qed.

Lemma sectors_perm (h : FileHeader) :
  all_sectors h ≡ₚ header_sectors h ++ data_sectors h.
Proof.
  induction h as [nb nds secs mapping kids IH] using FileHeader_nested_ind.
  rewrite all_sectors_eq, header_sectors_eq, data_sectors_eq.
  cbn [numBytes numDataSectors dataSectors children].
  destruct (whichLv nb) as [[|lv]| |]; try reflexivity.
  apply over_children_perm. exact IH.
Qed.

Lemma data_in_all (h : FileHeader) (s : Z) :
  s ∈ data_sectors h -> s ∈ all_sectors h.
Proof.
  intros Hs. rewrite (sectors_perm h). apply elem_of_app. right. exact Hs.
Qed.

Lemma header_in_all (h : FileHeader) (s : Z) :
  s ∈ header_sectors h -> s ∈ all_sectors h.
Proof.
  intros Hs. rewrite (sectors_perm h). apply elem_of_app. left. exact Hs.
Qed.

Lemma live_app_sentinels (news : list Z) (k : nat) :
  Forall (fun s => s <> INVALID_SECTOR) news ->
  live (news ++ replicate k INVALID_SECTOR) = news.
Proof.
  induction 1 as [|s news Hs _ IH].
  - destruct k; reflexivity.
  - simpl. destruct (Z.eqb_spec s INVALID_SECTOR) as [?|_]; [contradiction|].
    rewrite IH. reflexivity.
Qed.

Lemma consistent_mono (l : nat) :
  forall l2 h, (l <= l2)%nat -> consistent l h -> consistent l2 h.
Proof.
  induction l as [|l IH]; intros l2 h Hle Hc.
  - destruct l2 as [|l2]; [exact Hc|].
    simpl in Hc |- *. destruct Hc as (H1 & H2 & H3 & H4 & H5).
    repeat (split; [assumption|]).
    destruct (whichLv (numBytes h)) as [[|lv]| |]; [exact H5 | contradiction..].
  - destruct l2 as [|l2]; [lia|].
    simpl in Hc |- *. destruct Hc as (H1 & H2 & H3 & H4 & H5).
    repeat (split; [assumption|]).
    destruct (whichLv (numBytes h)) as [[|lv]| |]; try exact H5.
    destruct H5 as (Hlen & Hkids & Hmap).
    split; [exact Hlen|]. split; [|exact Hmap].
    eapply Forall_impl; [exact Hkids|].
    intros k Hk. apply (IH l2 k); [lia | exact Hk].
Qed.

Lemma FindAndSet_takes (m : Bitmap.t) :
  0 < Bitmap.NumClear m ->
  exists s m', Bitmap.FindAndSet m = (s, m') /\ 0 <= s
               /\ Bitmap.NumClear m' = Bitmap.NumClear m - 1
               /\ takes m [s] m'.
Proof.
  intros Hfree.
  destruct (BitmapFacts.FindAndSet_some m Hfree) as (s & m' & E & Hs & Hc).
  exists s, m'. split; [exact E|]. split; [exact Hs|]. split; [exact Hc|].
  destruct (FindAndSet_cases m) as [[E' _]|(s' & E' & Ht)].
  - rewrite E in E'. injection E' as -> _. lia.
  - rewrite E in E'. injection E' as -> ->. exact Ht.
Qed.

Lemma alloc_direct_takes (n : nat) :
  forall i m mapping good k,
    length good = i -> (n <= k)%nat ->
    Z.of_nat n <= Bitmap.NumClear m ->
    exists m' news,
      alloc_direct n i m (good ++ replicate k INVALID_SECTOR) mapping
      = Ret (m', (good ++ news) ++ replicate (k - n) INVALID_SECTOR,
             mapping ++ news)
      /\ length news = n
      /\ takes m news m'
      /\ Bitmap.NumClear m' = Bitmap.NumClear m - Z.of_nat n.
Proof.
  induction n as [|n IH]; intros i m mapping good k Hgood Hk Hfree.
  - exists m, []. simpl. rewrite !app_nil_r, Nat.sub_0_r.
    split; [reflexivity|]. split; [reflexivity|].
    split; [apply takes_nil | lia].
  - destruct k as [|k]; [lia|].
    cbn [alloc_direct].
    rewrite bool_decide_true
      by (rewrite length_app, length_replicate; lia).
    cbn [ASSERT mbind outcome_bind].
    destruct (FindAndSet_takes m) as (s & m1 & E & Hs & Hc & Ht); [lia|].
    rewrite E. pose proof Hs as Hs'. apply Z.leb_le in Hs'. rewrite Hs'.
    cbn [ASSERT mbind outcome_bind].
    subst i. rewrite insert_first_sentinel.
    destruct (IH (S (length good)) m1 (mapping ++ [s]) (good ++ [s]) k)
      as (m' & news & Erun & Hlen & Ht' & Hc').
    + rewrite length_app. simpl. lia.
    + lia.
    + lia.
    + exists m', (s :: news). rewrite Erun.
      repeat rewrite <- app_assoc. simpl.
      split; [reflexivity|]. split; [lia|].
      split; [apply (takes_app m m1 m' [s] news Ht Ht') | lia].
Qed.

Lemma zip_with_const_l {A B C} (f : B -> C) (l : list A) :
  forall k, length l = length k -> zip_with (fun _ y => f y) l k = map f k.
Proof.
  induction l as [|x l IH]; intros [|y k] Hlen; try discriminate; [reflexivity|].
  simpl. rewrite IH by (simpl in Hlen; lia). reflexivity.
Qed.

Lemma divRoundUp_split (r M : Z) :
  0 < M -> M mod SectorSize = 0 -> 0 < r ->
  divRoundUp (Z.min r M) SectorSize + divRoundUp (r - Z.min r M) SectorSize
  = divRoundUp r SectorSize.
Proof.
  intros HM Hmod Hr. unfold SectorSize in Hmod.
  destruct (Z.le_gt_cases r M) as [Hle|Hgt].
  - rewrite Z.min_l, Z.sub_diag by lia.
    rewrite (divRoundUp_sectors 0) by lia.
    change ((0 + 127) / 128) with 0. lia.
  - rewrite Z.min_r by lia. rewrite !divRoundUp_sectors by lia.
    pose proof (Z.div_mod M 128 ltac:(lia)) as HMdiv.
    rewrite Hmod in HMdiv.
    replace (M + 127) with (127 + (M / 128) * 128) by lia.
    replace (r + 127) with ((r - M + 127) + (M / 128) * 128) by lia.
    rewrite !Z.div_add by lia.
    change (127 / 128) with 0. lia.
Qed.

Section AllocChildrenBuilt.

Variable alloc : Bitmap.t -> Z -> outcome (bool * FileHeader * Bitmap.t).
Variable need : Z -> Z.
Variable M : Z.
Variable l' : nat.

Hypothesis M_pos : 0 < M.
Hypothesis M_sectors : M mod SectorSize = 0.
Hypothesis need_nonneg : forall size, 0 <= size -> 0 <= need size.
Hypothesis alloc_built :
  forall m size,
    0 < size <= M -> need size <= Bitmap.NumClear m ->
    Z.of_nat (length m) <= 2147483648 ->
    exists kid m',
      alloc m size = Ret (true, kid, m')
      /\ Bitmap.NumClear m' = Bitmap.NumClear m - need size
      /\ built l' m size kid m'.

Lemma alloc_children_built (slots : nat) :
  forall i r m mapping kids good,
    0 <= r <= Z.of_nat slots * M ->
    need_chunks need M r <= Bitmap.NumClear m ->
    length good = i ->
    Z.of_nat (length m) <= 2147483648 ->
    Forall (fun s => Bitmap.Test s m = true) mapping ->
    exists m' news newkids,
      alloc_children alloc slots i M m r
        (good ++ replicate slots INVALID_SECTOR) mapping kids
      = Ret (m',
             (good ++ news) ++ replicate (slots - length news) INVALID_SECTOR,
             mapping ++ concat (map data_sectors newkids), kids ++ newkids)
      /\ Bitmap.NumClear m' = Bitmap.NumClear m - need_chunks need M r
      /\ length news = length newkids
      /\ (length news <= slots)%nat
      /\ Forall (consistent l') newkids
      /\ takes m
           (concat (zip_with (fun s kid => s :: all_sectors kid) news newkids))
           m'
      /\ foldl (fun acc kid => merge_into acc (dataSectorMapping kid))
           mapping newkids
         = mapping ++ concat (map data_sectors newkids)
      /\ Z.of_nat (length (concat (map data_sectors newkids)))
         = divRoundUp r SectorSize
      /\ Forall (fun s => 0 <= s < Z.of_nat (length m)) news.
Proof.
  induction slots as [|slots IH]; intros i r m mapping kids good
    Hr Hfree Hgood Hsize Hmarked.
  - assert (r = 0) by lia. subst r.
    exists m, [], []. cbn [alloc_children].
    rewrite ?app_nil_r, (need_chunks_zero need M M_pos).
    simpl. rewrite ?app_nil_r.
    split; [reflexivity|]. split; [lia|]. split; [reflexivity|].
    split; [lia|]. split; [constructor|]. split; [apply takes_nil|].
    split; [reflexivity|]. split; [reflexivity | constructor].
  - destruct (Z.leb_spec r 0) as [Hr0|Hr0].
    { assert (r = 0) by lia. subst r.
      exists m, [], []. cbn [alloc_children].
      rewrite ?app_nil_r, (need_chunks_zero need M M_pos).
      simpl. rewrite ?app_nil_r.
      split; [reflexivity|]. split; [lia|]. split; [reflexivity|].
      split; [lia|]. split; [constructor|]. split; [apply takes_nil|].
      split; [reflexivity|]. split; [reflexivity | constructor]. }
    cbn [alloc_children].
    destruct (Z.leb_spec r 0) as [?|_]; [lia|].
    assert (Hone : 1 + need (Z.min r M) <= need_chunks need M r
                   /\ need_chunks need M r
                      = 1 + need (Z.min r M) + need_chunks need M (r - Z.min r M)).
    { destruct (Z.le_gt_cases M r) as [Hfull|Hrest].
      - rewrite Z.min_r by lia.
        destruct (need_chunks_full need M M_pos need_nonneg r Hfull) as [E Hpos].
        lia.
      - rewrite Z.min_l by lia.
        rewrite (need_chunks_rest need M r) by lia.
        rewrite Z.sub_diag, (need_chunks_zero need M M_pos). lia. }
    destruct Hone as [Hone Hsplit].
    pose proof (need_nonneg (Z.min r M) ltac:(lia)) as Hn0.
    destruct (FindAndSet_takes m) as (s & m1 & E & Hs & Hc & Ht); [lia|].
    rewrite E. pose proof Hs as Hs'. apply Z.leb_le in Hs'. rewrite Hs'.
    cbn [ASSERT mbind outcome_bind].
    pose proof Ht as (_ & Hs_range & Hlen1 & Htest1).
    destruct (alloc_built m1 (Z.min r M)) as (kid & m2 & Ekid & Hc2 & Hbuilt);
      [lia | lia | rewrite Hlen1; exact Hsize |].
    rewrite Ekid. cbn [mbind outcome_bind].
    destruct Hbuilt as (Hnb & Hnds & Hcons & Ht2 & Hmap & Hcount).
    pose proof Ht2 as (_ & Hkid_clear & Hlen2 & Htest2).
    (* the vector of the child is new, and is appended *)
    assert (Hmerge : merge_into mapping (dataSectorMapping kid)
                     = mapping ++ data_sectors kid).
    { unfold merge_into, list_Z_eqb. rewrite Hmap.
      rewrite bool_decide_eq_false_2; [reflexivity|].
      intros Heq.
      destruct (data_sectors kid) as [|x rest] eqn:Hdata.
      - simpl in Hcount.
        pose proof (divRoundUp_sectors (Z.min r M) ltac:(lia)) as Hd.
        assert (1 <= (Z.min r M + 127) / 128)
          by (apply Z.div_le_lower_bound; lia).
        lia.
      - assert (Hx : x ∈ all_sectors kid).
        { apply data_in_all. rewrite Hdata. apply list_elem_of_here. }
        rewrite Forall_forall in Hkid_clear.
        destruct (Hkid_clear x Hx) as [_ Hclear].
        subst mapping. inversion Hmarked as [|? ? Hxm _]; subst.
        rewrite Htest1, Hxm in Hclear. discriminate. }
    rewrite Hmerge.
    subst i. rewrite insert_first_sentinel.
    destruct (IH (S (length good)) (r - Z.min r M) m2
                (mapping ++ data_sectors kid) (kids ++ [kid]) (good ++ [s]))
      as (m' & news & newkids & Erun & Hclear & Hlen & Hslots & Hkids & Ht3
          & Hfold & Hcount' & Hrange).
    + destruct (Z.le_gt_cases M r);
        [rewrite Z.min_r by lia|rewrite Z.min_l by lia]; nia.
    + lia.
    + rewrite length_app. simpl. lia.
    + rewrite Hlen2, Hlen1. exact Hsize.
    + apply Forall_app. split.
      * eapply Forall_impl; [exact Hmarked|]. intros x Hx. simpl in Hx.
        rewrite Htest2, Htest1, Hx. reflexivity.
      * apply Forall_forall. intros x Hx.
        rewrite Htest2. rewrite bool_decide_eq_true_2 by (apply data_in_all; exact Hx).
        apply orb_true_r.
    + exists m', (s :: news), (kid :: newkids). rewrite Erun.
      repeat rewrite <- app_assoc. simpl.
      split; [reflexivity|]. split; [lia|]. split; [lia|]. split; [lia|].
      split; [constructor; assumption|]. split.
      { apply (takes_app m m1 m' [s] _ Ht).
        apply (takes_app m1 m2 m' _ _ Ht2 Ht3). }
      split.
      { rewrite Hmerge, Hfold, <- app_assoc. reflexivity. }
      split.
      { rewrite length_app, Nat2Z.inj_add, Hcount, Hcount'.
        apply divRoundUp_split; [exact M_pos | exact M_sectors | lia]. }
      constructor.
      * inversion Hs_range as [|? ? [Hs1 _] _]; subst. exact Hs1.
      * rewrite Hlen2, Hlen1 in Hrange. exact Hrange.
Qed.

End AllocChildrenBuilt.

Lemma int_range_sector (s n : Z) :
  0 <= s < n -> n <= 2147483648 -> int_range s.
Proof. unfold int_range. lia. Qed.

Lemma sentinels_int_range (k : nat) :
  Forall int_range (replicate k INVALID_SECTOR).
Proof.
  apply Forall_replicate. unfold int_range, INVALID_SECTOR. lia.
Qed.

Lemma divRoundUp_bounds (n : Z) :
  0 <= n -> 0 <= divRoundUp n SectorSize <= n
            /\ (n <= MAX_SIZE_L0 -> divRoundUp n SectorSize <= NUM_DIRECT).
Proof.
  intros Hn. rewrite divRoundUp_sectors by exact Hn.
  pose proof (Z.div_mod (n + 127) 128 ltac:(lia)).
  pose proof (Z.mod_pos_bound (n + 127) 128 ltac:(lia)).
  change MAX_SIZE_L0 with 3840. change NUM_DIRECT with 30. lia.
Qed.

Lemma Allocate_node_built (fuel : nat) :
  forall n l m,
    whichLv n = Ret l -> (l < fuel)%nat -> 0 <= n ->
    sectors_needed fuel n <= Bitmap.NumClear m ->
    Z.of_nat (length m) <= 2147483648 ->
    exists h m',
      Allocate_node fuel m n = Ret (true, h, m')
      /\ Bitmap.NumClear m' = Bitmap.NumClear m - sectors_needed fuel n
      /\ built l m n h m'.
Proof.
  induction fuel as [|fuel IH]; intros n l m Hlv Hl Hn Hfree Hsize; [lia|].
  rewrite Allocate_node_unfold. cbv zeta.
  pose proof (sectors_needed_data (S fuel) n l Hlv Hl Hn) as Hdata.
  destruct (Z.ltb_spec (Bitmap.NumClear m) (divRoundUp n SectorSize))
    as [Hfew|_]; [lia|].
  rewrite Hlv. cbn [mbind outcome_bind].
  pose proof (whichLv_Ret_inv n l Hlv) as (Hl4 & Hle & _).
  assert (Hmax : n <= MAX_SIZE 3).
  { destruct (decide (l = 3%nat)) as [->|?]; [exact Hle|].
    pose proof (MAX_SIZE_mono l 3 ltac:(lia) ltac:(lia)). lia. }
  pose proof (proj2 (proj2 (proj2 MAX_SIZE_values))) as V3. rewrite V3 in Hmax.
  destruct (divRoundUp_bounds n Hn) as [Hnds Hnds0].
  destruct l as [|l].
  - assert (Hneed : sectors_needed (S fuel) n = divRoundUp n SectorSize)
      by (cbn [sectors_needed]; rewrite Hlv; reflexivity).
    pose proof (proj1 MAX_SIZE_values) as V0. rewrite V0 in Hle.
    specialize (Hnds0 Hle). change NUM_DIRECT with 30 in Hnds0.
    destruct (alloc_direct_takes (Z.to_nat (divRoundUp n SectorSize)) 0 m []
                [] (Z.to_nat NUM_DIRECT))
      as (m' & news & Erun & Hlen & Ht & Hc).
    + reflexivity.
    + change (Z.to_nat NUM_DIRECT) with 30%nat. lia.
    + lia.
    + change ([] ++ replicate (Z.to_nat NUM_DIRECT) INVALID_SECTOR)
        with (dataSectors fresh_header) in Erun.
      rewrite Erun. cbn [mbind outcome_bind app].
      eexists _, m'. split; [reflexivity|]. split; [lia|].
      assert (Htake : take (Z.to_nat (divRoundUp n SectorSize))
                        (news ++ replicate
                                   (Z.to_nat NUM_DIRECT
                                    - Z.to_nat (divRoundUp n SectorSize))
                                   INVALID_SECTOR) = news).
      { rewrite <- Hlen. apply take_app_length. }
      pose proof Ht as (_ & Hrange & _ & _).
      unfold built. rewrite all_sectors_eq, data_sectors_eq.
      cbn [numBytes numDataSectors dataSectors dataSectorMapping children].
      rewrite Hlv, Htake.
      split; [reflexivity|]. split; [reflexivity|]. split.
      { simpl. cbn [numBytes numDataSectors dataSectors dataSectorMapping children].
        rewrite Hlv, Htake.
        split.
        { rewrite length_app, length_replicate, Hlen.
          change (Z.to_nat NUM_DIRECT) with 30%nat. lia. }
        split; [unfold int_range; lia|]. split; [unfold int_range; lia|].
        split.
        { apply Forall_app. split; [|apply sentinels_int_range].
          eapply Forall_impl; [exact Hrange|]. intros s [Hs _].
          exact (int_range_sector s (Z.of_nat (length m)) Hs Hsize). }
        split; [reflexivity|]. split; [|reflexivity].
        change NUM_DIRECT with 30. lia. }
      split; [exact Ht|]. split; [reflexivity|]. lia.
  - assert (Hneed : sectors_needed (S fuel) n
                    = need_chunks (sectors_needed fuel) (MAX_SIZE l) n)
      by (cbn [sectors_needed]; rewrite Hlv; reflexivity).
    assert (HM : 0 < MAX_SIZE l) by (apply MAX_SIZE_pos; lia).
    assert (HMs : MAX_SIZE l mod SectorSize = 0)
      by (apply MAX_SIZE_sectors; lia).
    destruct (alloc_children_built (Allocate_node fuel) (sectors_needed fuel)
                (MAX_SIZE l) l HM HMs (sectors_needed_nonneg fuel))
      with (slots := Z.to_nat NUM_DIRECT) (i := 0%nat) (r := n)
           (m := m) (mapping := @nil Z) (kids := @nil FileHeader)
           (good := @nil Z)
      as (m' & news & newkids & Erun & Hclear & Hlen & Hslots & Hkids & Ht
          & Hfold & Hcount & Hrange).
    + intros fm size Hsz Hroom Hfm.
      destruct (whichLv_below size l) as (ls & Hls & Hlsl); [lia | lia |].
      destruct (IH size ls fm Hls ltac:(lia) ltac:(lia) Hroom Hfm)
        as (kid & fm1 & Ekid & Hc & Hb).
      exists kid, fm1. split; [exact Ekid|]. split; [exact Hc|].
      destruct Hb as (B1 & B2 & B3 & B4 & B5 & B6).
      repeat (split; [assumption|]).
      split; [apply (consistent_mono ls l kid Hlsl B3)|].
      repeat (split; [assumption|]). assumption.
    + rewrite (MAX_SIZE_step l) in Hle by lia.
      change (Z.of_nat (Z.to_nat NUM_DIRECT)) with NUM_DIRECT. lia.
    + lia.
    + reflexivity.
    + exact Hsize.
    + constructor.
    + change ([] ++ replicate (Z.to_nat NUM_DIRECT) INVALID_SECTOR)
        with (dataSectors fresh_header) in Erun.
      rewrite Erun. cbn [mbind outcome_bind app].
      cbn [app] in Hfold.
      eexists _, m'. split; [reflexivity|]. split; [lia|].
      assert (Hlive : Forall (fun s => s <> INVALID_SECTOR) news).
      { eapply Forall_impl; [exact Hrange|]. intros s Hs. simpl in Hs.
        unfold INVALID_SECTOR. lia. }
      unfold built. rewrite all_sectors_eq, data_sectors_eq.
      cbn [numBytes numDataSectors dataSectors dataSectorMapping children].
      rewrite Hlv, !over_children_zip by assumption.
      rewrite (zip_with_const_l data_sectors news newkids Hlen).
      split; [reflexivity|]. split; [reflexivity|]. split.
      { simpl. cbn [numBytes numDataSectors dataSectors dataSectorMapping children].
        rewrite Hlv.
        split.
        { rewrite length_app, length_replicate.
          change (Z.to_nat NUM_DIRECT) with 30%nat in *. lia. }
        split; [unfold int_range; lia|]. split; [unfold int_range; lia|].
        split.
        { apply Forall_app. split; [|apply sentinels_int_range].
          eapply Forall_impl; [exact Hrange|]. intros s Hs.
          exact (int_range_sector s (Z.of_nat (length m)) Hs Hsize). }
        split; [rewrite live_app_sentinels by exact Hlive; lia|].
        split; [exact Hkids|].
        unfold merged. rewrite Hfold. reflexivity. }
      split; [exact Ht|]. split; [reflexivity | exact Hcount].
Qed.

Lemma divRoundUp_covers (n : Z) :
  0 <= n -> n <= divRoundUp n SectorSize * SectorSize.
Proof.
  intros Hn. rewrite divRoundUp_sectors by exact Hn. unfold SectorSize.
  pose proof (Z.div_mod (n + 127) 128 ltac:(lia)).
  pose proof (Z.mod_pos_bound (n + 127) 128 ltac:(lia)). lia.
Qed.

Lemma whichLv_in_range (n : Z) :
  n <= MAX_SIZE 3 -> exists l, whichLv n = Ret l /\ (l < 4)%nat.
Proof.
  intros Hn. destruct (whichLv_below n 3) as (l & Hl & Hle); [lia | exact Hn |].
  exists l. split; [exact Hl | lia].
Qed.

(** X12.  With room for the data sectors and for the headers below the
    first, [Allocate] answers [TRUE] and what it leaves is sound.  The
    sectors of the new header tree are exactly the bits that changed: all
    of them were free, no two are the same, and no other bit moved.  The
    tree is consistent, its vector lists the data sectors of the leaves in
    file order, one for every sector of the size, so that [ByteToSector]
    serves every offset of the file. *)
Theorem Allocate_with_room (m : Bitmap.t) (n : Z) :
  0 <= n <= MAX_SIZE 3 ->
  sectors_needed LEVEL_LIMIT n <= Bitmap.NumClear m ->
  Z.of_nat (length m) <= 2147483648 ->
  exists h m',
    Allocate m n = Ret (true, h, m')
    /\ numBytes h = n
    /\ numDataSectors h = divRoundUp n SectorSize
    /\ takes m (all_sectors h) m'
    /\ Bitmap.NumClear m' = Bitmap.NumClear m - sectors_needed LEVEL_LIMIT n
    /\ consistent 3 h
    /\ dataSectorMapping h = data_sectors h
    /\ Z.of_nat (length (dataSectorMapping h)) = numDataSectors h
    /\ NoDup (dataSectorMapping h)
    /\ forall offset,
         0 <= offset < n ->
         exists s, ByteToSector h offset = Ret s /\ s ∈ dataSectorMapping h.
Proof.
  intros Hn Hroom Hsize.
  destruct (whichLv_in_range n (proj2 Hn)) as (l & Hlv & Hl).
  destruct (Allocate_node_built LEVEL_LIMIT n l m Hlv Hl (proj1 Hn) Hroom Hsize)
    as (h & m' & Erun & Hclear & Hnb & Hnds & Hcons & Ht & Hmap & Hcount).
  exists h, m'. split; [exact Erun|].
  split; [exact Hnb|]. split; [exact Hnds|]. split; [exact Ht|].
  split; [exact Hclear|].
  split; [apply (consistent_mono l 3 h); [lia | exact Hcons]|].
  split; [exact Hmap|].
  split; [rewrite Hmap, Hnds; exact Hcount|].
  split.
  { rewrite Hmap. destruct Ht as (Hnodup & _).
    rewrite (sectors_perm h) in Hnodup.
    apply NoDup_app in Hnodup as (_ & _ & Hd). exact Hd. }
  intros offset Hoff.
  destruct (ByteToSector_mapping h offset) as (s & Hs & Hrun).
  - rewrite Hmap, Hcount.
    pose proof (divRoundUp_covers n (proj1 Hn)) as Hcov.
    unfold SectorSize in *. rewrite Z.quot_div_nonneg by lia. split.
    + apply Z.div_pos; lia.
    + apply Z.div_lt_upper_bound; lia.
  - rewrite Hmap, Hnds. exact Hcount.
  - exists s. split; [exact Hrun|].
    apply list_elem_of_lookup. eexists. exact Hs.
Qed.

Lemma Allocate_with_room_witness :
  (0 <= 4000 <= MAX_SIZE 3)
  /\ sectors_needed LEVEL_LIMIT 4000
     <= Bitmap.NumClear (replicate 13 true ++ replicate 1011 false)
  /\ exists h m',
       Allocate (replicate 13 true ++ replicate 1011 false) 4000
       = Ret (true, h, m')
       /\ takes (replicate 13 true ++ replicate 1011 false) (all_sectors h) m'
       /\ NoDup (dataSectorMapping h).
Proof.
  assert (H1 : 0 <= 4000 <= MAX_SIZE 3) by (vm_compute; split; discriminate).
  assert (H2 : sectors_needed LEVEL_LIMIT 4000
               <= Bitmap.NumClear (replicate 13 true ++ replicate 1011 false))
    by (vm_compute; discriminate).
  assert (H3 : Z.of_nat (length (replicate 13 true ++ replicate 1011 false))
               <= 2147483648)
    by (vm_compute; discriminate).
  split; [exact H1|]. split; [exact H2|].
  destruct (Allocate_with_room _ 4000 H1 H2 H3)
    as (h & m' & Hrun & _ & _ & Ht & _ & _ & _ & _ & Hnd & _).
  exists h, m'. split; [exact Hrun|]. split; [exact Ht | exact Hnd].
Defined.

(** ** Giving sectors back *)

Lemma Deallocate_eq (h : FileHeader) (m : Bitmap.t) :
  Deallocate h m
  = (lv ← whichLv (numBytes h);
     match lv with
     | O => dealloc_direct (Z.to_nat (numDataSectors h)) 0 (dataSectors h) m
     | S _ => dealloc_children Deallocate (dataSectors h) (children h) m
     end).
Proof. destruct h; reflexivity. Qed.

Lemma dealloc_children_frees (secs : list Z) :
  forall kids m,
    length kids = length (live secs) ->
    Forall (fun k => forall m,
                NoDup (data_sectors k) ->
                Forall (fun s => Bitmap.Test s m = true) (data_sectors k) ->
                Deallocate k m = Ret (clear_all (data_sectors k) m)) kids ->
    NoDup (over_children (fun _ kid => data_sectors kid) secs kids) ->
    Forall (fun s => Bitmap.Test s m = true)
      (over_children (fun _ kid => data_sectors kid) secs kids) ->
    dealloc_children Deallocate secs kids m
    = Ret (clear_all (over_children (fun _ kid => data_sectors kid) secs kids) m).
Proof.
  induction secs as [|s secs IH]; intros kids m Hlen Hkids Hnodup Hmarked.
  - destruct kids; reflexivity.
  - destruct kids as [|kid kids].
    + simpl in Hlen |- *.
      destruct (s =? INVALID_SECTOR); [reflexivity|]. discriminate Hlen.
    + simpl in Hlen, Hnodup, Hmarked |- *.
      destruct (s =? INVALID_SECTOR); [reflexivity|].
      inversion Hkids as [|? ? Hkid Hkids']; subst.
      apply NoDup_app in Hnodup as (Hn1 & Hdisj & Hn2).
      apply Forall_app in Hmarked as [Hm1 Hm2].
      rewrite (Hkid m Hn1 Hm1). cbn [mbind outcome_bind].
      rewrite (IH kids (clear_all (data_sectors kid) m)).
      * rewrite clear_all_app. reflexivity.
      * simpl in Hlen. lia.
      * exact Hkids'.
      * exact Hn2.
      * apply marked_after_clear; [exact Hm2|].
        intros x Hx Hx'. exact (Hdisj x Hx' Hx).
Qed.

Lemma Deallocate_consistent (l : nat) :
  forall h m,
    consistent l h ->
    NoDup (data_sectors h) ->
    Forall (fun s => Bitmap.Test s m = true) (data_sectors h) ->
    Deallocate h m = Ret (clear_all (data_sectors h) m).
Proof.
  induction l as [|l IH]; intros h m Hc Hnodup Hmarked.
  - simpl in Hc. destruct Hc as (Hlen & _ & _ & _ & Hc).
    rewrite data_sectors_eq in Hnodup, Hmarked |- *.
    destruct (whichLv (numBytes h)) as [[|lv]| |] eqn:Hlv; try contradiction.
    destruct Hc as (_ & Hnds & _).
    apply Deallocate_direct; [|exact Hnodup | exact Hmarked].
    unfold direct_sectors.
    apply whichLv_Ret_inv in Hlv as (_ & Hle & _).
    change (MAX_SIZE 0) with MAX_SIZE_L0 in Hle.
    apply Z.leb_le in Hle. rewrite Hle. simpl.
    rewrite bool_decide_true; [reflexivity|].
    rewrite Hlen. change NUM_DIRECT with 30 in *. lia.
  - simpl in Hc. destruct Hc as (Hlen & _ & _ & _ & Hc).
    rewrite data_sectors_eq in Hnodup, Hmarked |- *.
    destruct (whichLv (numBytes h)) as [[|lv]| |] eqn:Hlv; try contradiction.
    + destruct Hc as (_ & Hnds & _).
      apply Deallocate_direct; [|exact Hnodup | exact Hmarked].
      unfold direct_sectors.
      apply whichLv_Ret_inv in Hlv as (_ & Hle & _).
      change (MAX_SIZE 0) with MAX_SIZE_L0 in Hle.
      apply Z.leb_le in Hle. rewrite Hle. simpl.
      rewrite bool_decide_true; [reflexivity|].
      rewrite Hlen. change NUM_DIRECT with 30 in *. lia.
    + destruct Hc as (Hkidlen & Hkids & _).
      rewrite Deallocate_eq, Hlv. cbn [mbind outcome_bind].
      apply dealloc_children_frees; [exact Hkidlen| |exact Hnodup|exact Hmarked].
      eapply Forall_impl; [exact Hkids|].
      intros k Hk m0 Hn0 Hm0. apply IH; assumption.
Qed.

Lemma bitmap_ext (m m' : Bitmap.t) :
  length m' = length m ->
  (forall s, Bitmap.Test s m' = Bitmap.Test s m) ->
  m' = m.
Proof.
  intros Hlen Htest. apply list_eq. intros k.
  destruct (m !! k) as [b|] eqn:E.
  - destruct (lookup_lt_is_Some_2 m' k) as [b' E'].
    { rewrite Hlen. apply lookup_lt_Some in E. exact E. }
    rewrite E'. f_equal.
    rewrite <- (Test_lookup k m' b' E'), <- (Test_lookup k m b E). apply Htest.
  - apply lookup_ge_None in E. apply lookup_ge_None. lia.
Qed.

Lemma takes_nil_eq (m m' : Bitmap.t) : takes m [] m' -> m' = m.
Proof.
  intros (_ & _ & Hlen & Htest). apply bitmap_ext; [exact Hlen|].
  intros s. rewrite Htest.
  rewrite bool_decide_eq_false_2 by apply not_elem_of_nil.
  apply orb_false_r.
Qed.

Lemma takes_NumClear (taken : list Z) :
  forall m m',
    takes m taken m' ->
    Bitmap.NumClear m' = Bitmap.NumClear m - Z.of_nat (length taken).
Proof.
  induction taken as [|s taken IH]; intros m m' Ht.
  - apply takes_nil_eq in Ht. subst m'. simpl. lia.
  - destruct Ht as (Hnodup & Hfree & Hlen & Htest).
    inversion Hnodup as [|? ? Hnotin Hnodup']; subst.
    inversion Hfree as [|? ? [Hrange Hclear] Hfree']; subst.
    assert (Hlook : m !! Z.to_nat s = Some false).
    { destruct (lookup_lt_is_Some_2 m (Z.to_nat s)) as [b Hb]; [lia|].
      pose proof (Test_lookup _ _ _ Hb) as Hb'.
      rewrite Z2Nat.id, Hclear in Hb' by lia. subst b. exact Hb. }
    rewrite (IH (Bitmap.Mark s m) m').
    + unfold Bitmap.Mark. destruct (Z.ltb_spec s 0) as [?|_]; [lia|].
      rewrite (BitmapFacts.NumClear_insert m _ Hlook). simpl length. lia.
    + assert (HlenM : length (Bitmap.Mark s m) = length m).
      { unfold Bitmap.Mark. destruct (s <? 0); [reflexivity|].
        apply length_insert. }
      split; [exact Hnodup'|]. split; [|split].
      * rewrite Forall_forall in Hfree' |- *. intros x Hx.
        destruct (Hfree' x Hx) as [Hxr Hxc].
        rewrite HlenM. split; [exact Hxr|].
        rewrite Test_Mark by exact Hrange.
        rewrite Hxc, bool_decide_eq_false_2; [reflexivity|].
        intros ->. contradiction.
      * rewrite HlenM. exact Hlen.
      * intros x. rewrite Htest, Test_Mark by exact Hrange.
        rewrite <- orb_assoc. f_equal.
        destruct (decide (x = s)) as [->|Hne].
        -- rewrite (bool_decide_eq_true_2 (s = s)) by reflexivity.
           rewrite (bool_decide_eq_true_2 (s ∈ s :: taken))
             by apply list_elem_of_here.
           reflexivity.
        -- rewrite (bool_decide_eq_false_2 (x = s)) by exact Hne. simpl.
           apply bool_decide_ext. rewrite elem_of_cons. tauto.
Qed.

Lemma over_children_nonempty {A} (g1 : Z -> FileHeader -> list A)
    (g2 : FileHeader -> list Z) (secs : list Z) (kids : list FileHeader) :
  over_children g1 secs kids <> [] ->
  over_children (fun s kid => s :: g2 kid) secs kids <> [].
Proof.
  destruct secs as [|s secs];
    [intros H; exfalso; apply H; destruct kids; reflexivity|].
  destruct kids as [|kid kids]; simpl; destruct (s =? INVALID_SECTOR);
    try (intros H; exfalso; apply H; reflexivity).
  intros _. discriminate.
Qed.

(** X13.  [Deallocate] gives back the data sectors and nothing else.  On
    a consistent header whose data sectors are all different and all
    marked it returns, and the bitmap it leaves is the one it was given
    with exactly those sectors cleared: every other bit, those of the
    sectors that hold the headers below it among them, is as it was. *)
Theorem Deallocate_frees_data_only (l : nat) (h : FileHeader) (m : Bitmap.t) :
  consistent l h ->
  NoDup (data_sectors h) ->
  Forall (fun s => Bitmap.Test s m = true) (data_sectors h) ->
  exists m',
    Deallocate h m = Ret m'
    /\ length m' = length m
    /\ forall s,
         Bitmap.Test s m'
         = if decide (s ∈ data_sectors h) then false else Bitmap.Test s m.
Proof.
  intros Hc Hnodup Hmarked. exists (clear_all (data_sectors h) m).
  split; [apply (Deallocate_consistent l); assumption|].
  split; [apply clear_all_length|].
  intros s. apply Test_clear_all.
Qed.

(** X14.  [Allocate] and then [Deallocate]: the data sectors come back,
    the sectors taken for the headers below the first do not.  The bitmap
    after the two calls is the bitmap of before with the sectors of those
    headers marked.  For a file of at most [MAX_SIZE[0]] bytes there is no
    such header and the bitmap is the one of before; for a bigger file at
    least one sector stays taken for good. *)
Theorem Allocate_then_Deallocate (m : Bitmap.t) (n : Z) :
  0 <= n <= MAX_SIZE 3 ->
  sectors_needed LEVEL_LIMIT n <= Bitmap.NumClear m ->
  Z.of_nat (length m) <= 2147483648 ->
  exists h m' m'',
    Allocate m n = Ret (true, h, m')
    /\ Deallocate h m' = Ret m''
    /\ takes m (header_sectors h) m''
    /\ Bitmap.NumClear m''
       = Bitmap.NumClear m - Z.of_nat (length (header_sectors h))
    /\ (n <= MAX_SIZE 0 -> m'' = m)
    /\ (MAX_SIZE 0 < n -> Bitmap.NumClear m'' < Bitmap.NumClear m).
Proof.
  intros Hn Hroom Hsize.
  destruct (whichLv_in_range n (proj2 Hn)) as (l & Hlv & Hl).
  destruct (Allocate_node_built LEVEL_LIMIT n l m Hlv Hl (proj1 Hn) Hroom Hsize)
    as (h & m' & Erun & Hclear & Hnb & Hnds & Hcons & Ht & Hmap & Hcount).
  pose proof Ht as (Hnodup & Hfree & Hlen & Htest).
  pose proof (sectors_perm h) as Hperm.
  pose proof Hnodup as Hnodup'. rewrite Hperm in Hnodup'.
  apply NoDup_app in Hnodup' as (Hnh & Hdisj & Hnd).
  assert (Hmarked : Forall (fun s => Bitmap.Test s m' = true) (data_sectors h)).
  { apply Forall_forall. intros s Hs. rewrite Htest.
    rewrite bool_decide_eq_true_2 by (apply data_in_all; exact Hs).
    apply orb_true_r. }
  pose proof (Deallocate_consistent l h m' Hcons Hnd Hmarked) as Hdealloc.
  assert (Ht'' : takes m (header_sectors h) (clear_all (data_sectors h) m')).
  { split; [exact Hnh|]. split; [|split].
    - rewrite Forall_forall in Hfree |- *. intros s Hs.
      apply Hfree. apply header_in_all. exact Hs.
    - rewrite clear_all_length. exact Hlen.
    - intros s. rewrite Test_clear_all.
      destruct (decide (s ∈ data_sectors h)) as [Hd|Hd].
      + rewrite Forall_forall in Hfree.
        destruct (Hfree s (data_in_all h s Hd)) as [_ Hc]. rewrite Hc.
        rewrite bool_decide_eq_false_2; [reflexivity|].
        intros Hh. exact (Hdisj s Hh Hd).
      + rewrite Htest. f_equal. apply bool_decide_ext.
        rewrite Hperm, elem_of_app. tauto. }
  exists h, m', (clear_all (data_sectors h) m').
  split; [exact Erun|]. split; [exact Hdealloc|]. split; [exact Ht''|].
  split; [apply takes_NumClear; exact Ht''|]. split.
  - intros Hsmall. apply takes_nil_eq.
    assert (Hl0 : whichLv n = Ret O).
    { apply whichLv_intro; [lia | exact Hsmall | intros j Hj; lia]. }
    rewrite header_sectors_eq, Hnb, Hl0 in Ht''. exact Ht''.
  - intros Hbig. rewrite (takes_NumClear _ _ _ Ht'').
    assert (Hne : header_sectors h <> []).
    { apply whichLv_Ret_inv in Hlv as Hinv. destruct Hinv as (_ & Hle & Hgt).
      destruct l as [|l]; [lia|].
      rewrite header_sectors_eq, Hnb, Hlv.
      apply (over_children_nonempty (fun _ kid => data_sectors kid)).
      intros Hempty.
      rewrite data_sectors_eq, Hnb, Hlv, Hempty in Hcount. simpl in Hcount.
      pose proof (divRoundUp_sectors n ltac:(lia)) as Hd.
      change (MAX_SIZE 0) with 3840 in Hbig.
      assert (1 <= (n + 127) / 128) by (apply Z.div_le_lower_bound; lia).
      lia. }
    destruct (header_sectors h); [congruence | simpl; lia].
Qed.

Lemma Allocate_then_Deallocate_witness :
  (0 <= 4000 <= MAX_SIZE 3)
  /\ sectors_needed LEVEL_LIMIT 4000
     <= Bitmap.NumClear (replicate 13 true ++ replicate 1011 false)
  /\ exists h m' m'',
       Allocate (replicate 13 true ++ replicate 1011 false) 4000
       = Ret (true, h, m')
       /\ Deallocate h m' = Ret m''
       /\ Bitmap.NumClear m''
          < Bitmap.NumClear (replicate 13 true ++ replicate 1011 false).
Proof.
  assert (H1 : 0 <= 4000 <= MAX_SIZE 3) by (vm_compute; split; discriminate).
  assert (H2 : sectors_needed LEVEL_LIMIT 4000
               <= Bitmap.NumClear (replicate 13 true ++ replicate 1011 false))
    by (vm_compute; discriminate).
  assert (H3 : Z.of_nat (length (replicate 13 true ++ replicate 1011 false))
               <= 2147483648)
    by (vm_compute; discriminate).
  assert (H4 : MAX_SIZE 0 < 4000) by reflexivity.
  split; [exact H1|]. split; [exact H2|].
  destruct (Allocate_then_Deallocate _ 4000 H1 H2 H3)
    as (h & m' & m'' & Hrun & Hfree & _ & _ & _ & Hleak).
  exists h, m', m''. split; [exact Hrun|]. split; [exact Hfree|].
  exact (Hleak H4).
Defined.

Lemma small_header_consistent : consistent 0 small_header.
Proof.
  split; [reflexivity|]. split; [unfold int_range; vm_compute; split; [discriminate | reflexivity]|].
  split; [unfold int_range; vm_compute; split; [discriminate | reflexivity]|].
  split; [apply (bool_decide_unpack _); vm_compute; exact I|].
  vm_compute. split; [reflexivity|]. split; [discriminate | reflexivity].
Qed.

Lemma Deallocate_frees_data_only_witness :
  consistent 0 small_header
  /\ data_sectors small_header = [0; 1; 3]
  /\ Deallocate small_header [true; true; true; true; false]
     = Ret [false; false; true; false; false].
Proof.
  assert (Hd : data_sectors small_header = [0; 1; 3]) by reflexivity.
  split; [exact small_header_consistent|]. split; [exact Hd|].
  destruct (Deallocate_frees_data_only 0 small_header
              [true; true; true; true; false] small_header_consistent)
    as (m' & Hrun & Hlen & Htest).
  - rewrite Hd. apply (bool_decide_unpack _). vm_compute. exact I.
  - rewrite Hd. apply (bool_decide_unpack _). vm_compute. exact I.
  - rewrite Hrun. f_equal. apply bitmap_ext; [exact Hlen|].
    intros s. rewrite Htest, Hd.
    destruct (decide (s = 0)) as [->|H0]; [reflexivity|].
    destruct (decide (s = 1)) as [->|H1]; [reflexivity|].
    destruct (decide (s = 2)) as [->|H2]; [reflexivity|].
    destruct (decide (s = 3)) as [->|H3]; [reflexivity|].
    destruct (decide (s = 4)) as [->|H4]; [reflexivity|].
    rewrite decide_False.
    + unfold Bitmap.Test. destruct (Z.ltb_spec s 0); [reflexivity|].
      assert (5 <= Z.to_nat s)%nat by lia.
      rewrite !lookup_ge_None_2 by (simpl; lia). reflexivity.
    + rewrite !elem_of_cons, elem_of_nil. lia.
Defined.

(** ** Headers on the disk *)

Lemma int_bytes_length (z : Z) : length (int_bytes z) = 4%nat.
Proof. reflexivity. Qed.

Lemma byte_at_app_r (pre rest : list Z) (i : nat) :
  byte_at (pre ++ rest) (length pre + i) = byte_at rest i.
Proof.
  unfold byte_at. rewrite lookup_app_r by lia.
  replace (length pre + i - length pre)%nat with i by lia. reflexivity.
Qed.

Lemma int_at_app_r (pre rest : list Z) (off : nat) :
  int_at (pre ++ rest) (length pre + off) = int_at rest off.
Proof.
  unfold int_at.
  replace (length pre + off + 1)%nat with (length pre + (off + 1))%nat by lia.
  replace (length pre + off + 2)%nat with (length pre + (off + 2))%nat by lia.
  replace (length pre + off + 3)%nat with (length pre + (off + 3))%nat by lia.
  rewrite !byte_at_app_r. reflexivity.
Qed.

Lemma int_at_int_bytes (z : Z) (rest : list Z) :
  int_range z -> int_at (int_bytes z ++ rest) 0 = z.
Proof.
  unfold int_range. intros Hz. unfold int_at, byte_at, int_bytes. simpl.
  rewrite !Z.mod_mod by lia.
  pose proof (Z.div_mod z 256 ltac:(lia)) as E0.
  pose proof (Z.mod_pos_bound z 256 ltac:(lia)) as B0.
  pose proof (Z.div_mod (z / 256) 256 ltac:(lia)) as E1.
  pose proof (Z.mod_pos_bound (z / 256) 256 ltac:(lia)) as B1.
  pose proof (Z.div_mod (z / 256 / 256) 256 ltac:(lia)) as E2.
  pose proof (Z.mod_pos_bound (z / 256 / 256) 256 ltac:(lia)) as B2.
  pose proof (Z.div_mod (z / 256 / 256 / 256) 256 ltac:(lia)) as E3.
  pose proof (Z.mod_pos_bound (z / 256 / 256 / 256) 256 ltac:(lia)) as B3.
  replace (z / 65536) with (z / 256 / 256)
    by (rewrite Z.div_div by lia; reflexivity).
  replace (z / 16777216) with (z / 256 / 256 / 256)
    by (rewrite !Z.div_div by lia; reflexivity).
  destruct (Z.ltb_spec
              (z mod 256 + 256 * ((z / 256) mod 256)
               + 65536 * ((z / 256 / 256) mod 256)
               + 16777216 * ((z / 256 / 256 / 256) mod 256)) 2147483648); lia.
Qed.

Lemma int_at_concat (l : list Z) :
  forall (i : nat) (x : Z) (rest : list Z),
    l !! i = Some x -> int_range x ->
    int_at (concat (map int_bytes l) ++ rest) (4 * i) = x.
Proof.
  induction l as [|y l IH]; intros i x rest Hi Hx; [discriminate|].
  destruct i as [|i].
  - injection Hi as ->.
    change (concat (map int_bytes (x :: l)))
      with (int_bytes x ++ concat (map int_bytes l)).
    rewrite <- app_assoc. apply int_at_int_bytes. exact Hx.
  - simpl in Hi.
    change (concat (map int_bytes (y :: l)))
      with (int_bytes y ++ concat (map int_bytes l)).
    rewrite <- app_assoc.
    replace (4 * S i)%nat with (length (int_bytes y) + 4 * i)%nat
      by (rewrite int_bytes_length; lia).
    rewrite int_at_app_r. apply IH; assumption.
Qed.

Lemma concat_int_bytes_length (l : list Z) :
  length (concat (map int_bytes l)) = (4 * length l)%nat.
Proof.
  induction l as [|y l IH]; [reflexivity|].
  change (concat (map int_bytes (y :: l)))
    with (int_bytes y ++ concat (map int_bytes l)).
  rewrite length_app, IH, int_bytes_length. simpl. lia.
Qed.

Lemma header_bytes_length (h : FileHeader) :
  length (dataSectors h) = Z.to_nat NUM_DIRECT ->
  length (header_bytes h) = Z.to_nat SectorSize.
Proof.
  intros Hlen. unfold header_bytes.
  rewrite !length_app, concat_int_bytes_length, !int_bytes_length, Hlen.
  reflexivity.
Qed.

Lemma header_bytes_decode (h : FileHeader) :
  length (dataSectors h) = Z.to_nat NUM_DIRECT ->
  int_range (numBytes h) -> int_range (numDataSectors h) ->
  Forall int_range (dataSectors h) ->
  int_at (header_bytes h) 0 = numBytes h
  /\ int_at (header_bytes h) 4 = numDataSectors h
  /\ map (fun i => int_at (header_bytes h) (8 + 4 * i))
       (seq 0 (Z.to_nat NUM_DIRECT))
     = dataSectors h.
Proof.
  intros Hlen Hnb Hnds Hsecs. unfold header_bytes. split; [|split].
  - apply int_at_int_bytes. exact Hnb.
  - change 4%nat with (length (int_bytes (numBytes h)) + 0)%nat.
    rewrite int_at_app_r. apply int_at_int_bytes. exact Hnds.
  - rewrite <- Hlen. apply list_eq. intros i.
    rewrite list_lookup_fmap.
    destruct (dataSectors h !! i) as [x|] eqn:Hx.
    + rewrite lookup_seq_lt by (apply lookup_lt_Some in Hx; exact Hx).
      unfold fmap, option_fmap, option_map. change (0 + i)%nat with i.
      f_equal. rewrite app_assoc.
      change (8 + 4 * i)%nat
        with (length (int_bytes (numBytes h) ++ int_bytes (numDataSectors h))
              + 4 * i)%nat.
      rewrite int_at_app_r.
      rewrite <- (app_nil_r (concat _)).
      apply int_at_concat; [exact Hx|].
      rewrite Forall_forall in Hsecs. apply Hsecs.
      apply list_elem_of_lookup. eexists. exact Hx.
    + rewrite lookup_seq_ge by (apply lookup_ge_None in Hx; exact Hx).
      reflexivity.
Qed.

Lemma FetchFrom_node_unfold {mem : Memory}
    (fuel : nat) (d : SynchDisk) (sector : Z) :
  FetchFrom_node (S fuel) d sector
  = (buf ← ReadSector d sector;
     let nb := int_at buf 0 in
     let nds := int_at buf 4 in
     let secs :=
       map (fun i => int_at buf (8 + 4 * i)) (seq 0 (Z.to_nat NUM_DIRECT)) in
     lv ← whichLv nb;
     match lv with
     | O =>
         mapping ← fetch_direct sector (Z.to_nat nds) 0 secs [];
         Ret {| numBytes := nb; numDataSectors := nds; dataSectors := secs;
                dataSectorMapping := mapping; children := [] |}
     | S _ =>
         '(mapping, kids) ← fetch_children (FetchFrom_node fuel d) secs [] [];
         Ret {| numBytes := nb; numDataSectors := nds; dataSectors := secs;
                dataSectorMapping := mapping; children := kids |}
     end).
Proof. reflexivity. Qed.

Lemma WriteBack_eq (h : FileHeader) (sector : Z) (d : SynchDisk) :
  WriteBack h sector d
  = (d1 ← WriteSector ByFileHeader sector (header_bytes h) d;
     lv ← whichLv (numBytes h);
     match lv with
     | O => Ret d1
     | S _ => write_children WriteBack (dataSectors h) (children h) d1
     end).
Proof. destruct h; reflexivity. Qed.

Lemma WriteSector_ok (who : Writer) (s : Z) (data : Sector) (d : SynchDisk) :
  0 <= s < NumSectors d -> exists d', WriteSector who s data d = Ret d'.
Proof.
  intros Hs. unfold WriteSector.
  destruct (Z.leb_spec 0 s) as [_|?]; [|lia].
  destruct (Z.ltb_spec s (NumSectors d)) as [_|?]; [|lia].
  eexists. reflexivity.
Qed.


Lemma fetch_direct_take {mem : Memory} (sector : Z) (n : nat) :
  forall i secs mapping,
    (i + n <= length secs)%nat ->
    fetch_direct sector n i secs mapping
    = Ret (mapping ++ take n (drop i secs)).
Proof.
  induction n as [|n IH]; intros i secs mapping Hlen.
  - simpl. rewrite app_nil_r. reflexivity.
  - simpl. destruct (lookup_lt_is_Some_2 secs i) as [s Hs]; [lia|].
    rewrite Hs, IH by lia.
    rewrite (drop_S secs s i Hs). simpl. rewrite <- app_assoc. reflexivity.
Qed.

Lemma write_children_fetch {mem : Memory} (fuel : nat) (secs : list Z) :
  forall kids d,
    length kids = length (live secs) ->
    Forall (fun k => forall sector d,
                NoDup (sector :: header_sectors k) ->
                Forall (fun s => 0 <= s < NumSectors d)
                  (sector :: header_sectors k) ->
                writes_back fuel k sector d) kids ->
    NoDup (over_children (fun s kid => s :: header_sectors kid) secs kids) ->
    Forall (fun s => 0 <= s < NumSectors d)
      (over_children (fun s kid => s :: header_sectors kid) secs kids) ->
    exists d',
      write_children WriteBack secs kids d = Ret d'
      /\ NumSectors d' = NumSectors d
      /\ (forall s,
             s ∉ over_children (fun s kid => s :: header_sectors kid) secs kids ->
             ReadSector d' s = ReadSector d s)
      /\ forall d'',
           (forall s,
               s ∈ over_children (fun s kid => s :: header_sectors kid)
                     secs kids ->
               ReadSector d'' s = ReadSector d' s) ->
           forall mapping kids0,
             fetch_children (FetchFrom_node fuel d'') secs mapping kids0
             = Ret (foldl (fun acc kid => merge_into acc (dataSectorMapping kid))
                      mapping kids,
                    kids0 ++ kids).
Proof.
  induction secs as [|s secs IH]; intros kids d Hlen Hkids Hnodup Hrange.
  - destruct kids; [|discriminate]. exists d. simpl.
    split; [reflexivity|]. split; [reflexivity|]. split; [reflexivity|].
    intros d'' _ mapping kids0. rewrite app_nil_r. reflexivity.
  - destruct kids as [|kid kids].
    + simpl in Hlen |- *. destruct (s =? INVALID_SECTOR); [|discriminate].
      exists d. split; [reflexivity|]. split; [reflexivity|].
      split; [reflexivity|].
      intros d'' _ mapping kids0. rewrite app_nil_r. reflexivity.
    + simpl in Hlen, Hnodup, Hrange |- *.
      destruct (s =? INVALID_SECTOR); [discriminate|].
      inversion Hkids as [|? ? Hkid Hkids']; subst.
      change (s :: header_sectors kid
              ++ over_children (fun s kid => s :: header_sectors kid) secs kids)
        with ((s :: header_sectors kid)
              ++ over_children (fun s kid => s :: header_sectors kid) secs kids)
        in Hnodup, Hrange.
      apply NoDup_app in Hnodup as (Hn1 & Hdisj & Hn2).
      apply Forall_app in Hrange as [Hr1 Hr2].
      destruct (Hkid s d Hn1 Hr1) as (d1 & Ew & Hnum1 & Hframe1 & Hfetch1).
      unfold FetchFrom in Hfetch1.
      rewrite Ew. cbn [mbind outcome_bind].
      destruct (IH kids d1) as (d' & Ew' & Hnum' & Hframe' & Hfetch').
      * simpl in Hlen. lia.
      * exact Hkids'.
      * exact Hn2.
      * rewrite Hnum1. exact Hr2.
      * exists d'. split; [exact Ew'|]. split; [congruence|]. split.
        { intros x Hx.
          change (s :: header_sectors kid
                  ++ over_children (fun s kid => s :: header_sectors kid)
                       secs kids)
            with ((s :: header_sectors kid)
                  ++ over_children (fun s kid => s :: header_sectors kid)
                       secs kids) in Hx.
          apply not_elem_of_app in Hx as [Hx1 Hx2].
          rewrite (Hframe' x Hx2). apply Hframe1. exact Hx1. }
        intros d'' Hagree mapping kids0.
        rewrite (Hfetch1 d'').
        -- cbn [mbind outcome_bind].
           rewrite (Hfetch' d''); [rewrite <- app_assoc; reflexivity|].
           intros x Hx. apply Hagree.
           apply list_elem_of_further. apply elem_of_app. right. exact Hx.
        -- intros x Hx. rewrite (Hagree x).
           ++ apply Hframe'. intros Hx'. exact (Hdisj x Hx Hx').
           ++ change (x ∈ (s :: header_sectors kid)
                          ++ over_children
                               (fun s kid => s :: header_sectors kid) secs kids).
              apply elem_of_app. left. exact Hx.
Qed.

Lemma FetchFrom_header_bytes {mem : Memory}
    (fuel : nat) (d : SynchDisk) (sector : Z)
    (h : FileHeader) :
  length (dataSectors h) = Z.to_nat NUM_DIRECT ->
  int_range (numBytes h) -> int_range (numDataSectors h) ->
  Forall int_range (dataSectors h) ->
  ReadSector d sector = Ret (sector_bytes (header_bytes h)) ->
  FetchFrom_node (S fuel) d sector
  = (lv ← whichLv (numBytes h);
     match lv with
     | O =>
         mapping ← fetch_direct sector (Z.to_nat (numDataSectors h)) 0
                     (dataSectors h) [];
         Ret {| numBytes := numBytes h; numDataSectors := numDataSectors h;
                dataSectors := dataSectors h;
                dataSectorMapping := mapping; children := [] |}
     | S _ =>
         '(mapping, kids) ←
           fetch_children (FetchFrom_node fuel d) (dataSectors h) [] [];
         Ret {| numBytes := numBytes h; numDataSectors := numDataSectors h;
                dataSectors := dataSectors h;
                dataSectorMapping := mapping; children := kids |}
     end).
Proof.
  intros Hlen Hnb Hnds Hsecs Hread.
  rewrite FetchFrom_node_unfold, Hread. cbn [mbind outcome_bind]. cbv zeta.
  rewrite (sector_bytes_id (header_bytes h)) by (apply header_bytes_length; exact Hlen).
  destruct (header_bytes_decode h Hlen Hnb Hnds Hsecs) as (E0 & E4 & Es).
  rewrite E0, E4, Es. reflexivity.
Qed.

Lemma writes_back_direct {mem : Memory}
    (fuel : nat) (h : FileHeader) (sector : Z)
    (d : SynchDisk) :
  length (dataSectors h) = Z.to_nat NUM_DIRECT ->
  int_range (numBytes h) -> int_range (numDataSectors h) ->
  Forall int_range (dataSectors h) ->
  whichLv (numBytes h) = Ret O ->
  children h = [] ->
  numDataSectors h <= NUM_DIRECT ->
  dataSectorMapping h = take (Z.to_nat (numDataSectors h)) (dataSectors h) ->
  0 <= sector < NumSectors d ->
  writes_back (S fuel) h sector d.
Proof.
  intros Hlen Hnb Hnds Hsecs Hlv Hkids Hn Hmap Hsector.
  destruct (WriteSector_ok ByFileHeader sector (header_bytes h) d Hsector)
    as [d1 Ew].
  destruct (ReadSector_WriteSector _ _ _ _ _ Ew) as (Hnum & Hread & Hframe).
  exists d1. rewrite WriteBack_eq, Ew, Hlv. cbn [mbind outcome_bind].
  split; [reflexivity|]. split; [exact Hnum|]. split.
  { intros s Hs. apply Hframe. intros ->. apply Hs. apply list_elem_of_here. }
  intros d'' Hagree. unfold FetchFrom.
  rewrite (FetchFrom_header_bytes fuel d'' sector h Hlen Hnb Hnds Hsecs)
    by (rewrite Hagree by apply list_elem_of_here; exact Hread).
  rewrite Hlv. cbn [mbind outcome_bind].
  rewrite fetch_direct_take
    by (rewrite Hlen; change NUM_DIRECT with 30 in *; lia).
  rewrite drop_0, app_nil_l. cbn [mbind outcome_bind].
  rewrite <- Hmap, <- Hkids. destruct h; reflexivity.
Qed.

Lemma WriteBack_FetchFrom_consistent {mem : Memory} (l : nat) :
  forall h sector d fuel,
    consistent l h -> (l < fuel)%nat ->
    NoDup (sector :: header_sectors h) ->
    Forall (fun s => 0 <= s < NumSectors d) (sector :: header_sectors h) ->
    writes_back fuel h sector d.
Proof.
  induction l as [|l IH]; intros h sector d fuel Hc Hfuel Hnodup Hrange;
    (destruct fuel as [|fuel]; [lia|]);
    simpl in Hc; destruct Hc as (Hlen & Hnb & Hnds & Hsecs & Hc);
    inversion Hrange as [|? ? Hsector Hrange']; subst.
  - destruct (whichLv (numBytes h)) as [[|lv]| |] eqn:Hlv; try contradiction.
    destruct Hc as (Hkids & Hn & Hmap).
    apply writes_back_direct; assumption.
  - destruct (whichLv (numBytes h)) as [[|lv]| |] eqn:Hlv; try contradiction.
    { destruct Hc as (Hkids & Hn & Hmap).
      apply writes_back_direct; assumption. }
    destruct Hc as (Hkidlen & Hkids & Hmap).
    assert (Hhs : header_sectors h
                  = over_children (fun s kid => s :: header_sectors kid)
                      (dataSectors h) (children h))
      by (rewrite header_sectors_eq, Hlv; reflexivity).
    rewrite Hhs in Hnodup, Hrange'.
    inversion Hnodup as [|? ? Hnotin Hnodup']; subst.
    destruct (WriteSector_ok ByFileHeader sector (header_bytes h) d Hsector)
      as [d1 Ew].
    destruct (ReadSector_WriteSector _ _ _ _ _ Ew) as (Hnum & Hread & Hframe).
    destruct (write_children_fetch fuel (dataSectors h) (children h) d1)
      as (d' & Ew' & Hnum' & Hframe' & Hfetch').
    + exact Hkidlen.
    + eapply Forall_impl; [exact Hkids|].
      intros k Hk sector0 d0 Hn0 Hr0.
      apply (IH k sector0 d0 fuel Hk); [lia | exact Hn0 | exact Hr0].
    + exact Hnodup'.
    + rewrite Hnum. exact Hrange'.
    + exists d'. rewrite WriteBack_eq, Ew, Hlv. cbn [mbind outcome_bind].
      split; [exact Ew'|]. split; [congruence|]. split.
      { intros s Hs. rewrite Hhs in Hs. apply not_elem_of_cons in Hs as [Hs1 Hs2].
        rewrite (Hframe' s Hs2). apply Hframe. exact Hs1. }
      intros d'' Hagree. rewrite Hhs in Hagree. unfold FetchFrom.
      rewrite (FetchFrom_header_bytes fuel d'' sector h Hlen Hnb Hnds Hsecs).
      * rewrite Hlv. cbn [mbind outcome_bind].
        rewrite (Hfetch' d'').
        -- cbn [mbind outcome_bind app]. fold (merged (children h)).
           rewrite <- Hmap. destruct h; reflexivity.
        -- intros s Hs. apply Hagree. apply list_elem_of_further. exact Hs.
      * rewrite Hagree by apply list_elem_of_here.
        rewrite (Hframe' sector Hnotin). exact Hread.
Qed.

(** X15.  A header written is the header read: [WriteBack] of a
    consistent header to a sector of the disk, the sectors of the headers
    below it being on the disk too, different from one another and from
    that sector, returns and writes those sectors only; [FetchFrom] of the
    same sector then builds the very same header, vector and children
    included. *)
Theorem WriteBack_then_FetchFrom {mem : Memory}
    (l fuel : nat) (h : FileHeader) (sector : Z)
    (d : SynchDisk) :
  consistent l h -> (l < fuel)%nat ->
  NoDup (sector :: header_sectors h) ->
  Forall (fun s => 0 <= s < NumSectors d) (sector :: header_sectors h) ->
  exists d',
    WriteBack h sector d = Ret d'
    /\ FetchFrom fuel d' sector = Ret h
    /\ NumSectors d' = NumSectors d
    /\ forall s, s ∉ sector :: header_sectors h ->
                 ReadSector d' s = ReadSector d s.
Proof.
  intros Hc Hfuel Hnodup Hrange.
  destruct (WriteBack_FetchFrom_consistent l h sector d fuel Hc Hfuel Hnodup
              Hrange) as (d' & Ew & Hnum & Hframe & Hfetch).
  exists d'. split; [exact Ew|]. split; [|split; [exact Hnum | exact Hframe]].
  apply Hfetch. reflexivity.
Qed.

Lemma WriteBack_then_FetchFrom_witness :
  consistent 0 small_header
  /\ exists d',
       WriteBack small_header 2 (blank_disk 8) = Ret d'
       /\ FetchFrom 1 d' 2 = Ret small_header.
Proof.
  split; [exact small_header_consistent|].
  destruct (WriteBack_then_FetchFrom 0 1 small_header 2 (blank_disk 8)
              small_header_consistent)
    as (d' & Ew & Ef & _).
  - lia.
  - apply (bool_decide_unpack _). vm_compute. exact I.
  - apply (bool_decide_unpack _). vm_compute. exact I.
  - exists d'. exact (conj Ew Ef).
Defined.

(** X16.  What [createFileOrDir] does with a new header: [Allocate] with
    room enough, then [WriteBack] to a sector that was marked before, on a
    disk with one sector for every bit.  Both return, and [FetchFrom] of
    that sector gives back the header that [Allocate] built; the sectors
    written are those of the headers, none of them a data sector of the
    new file. *)
Theorem Allocate_WriteBack_FetchFrom {mem : Memory}
    (m : Bitmap.t) (n sector : Z)
    (d : SynchDisk) :
  0 <= n <= MAX_SIZE 3 ->
  sectors_needed LEVEL_LIMIT n <= Bitmap.NumClear m ->
  Z.of_nat (length m) = NumSectors d -> NumSectors d <= 2147483648 ->
  Bitmap.Test sector m = true ->
  exists h m' d',
    Allocate m n = Ret (true, h, m')
    /\ WriteBack h sector d = Ret d'
    /\ FetchFrom LEVEL_LIMIT d' sector = Ret h
    /\ (forall s, s ∉ sector :: header_sectors h ->
                  ReadSector d' s = ReadSector d s)
    /\ (forall s, s ∈ dataSectorMapping h -> ReadSector d' s = ReadSector d s).
Proof.
  intros Hn Hroom Hlen Hsize Hsector.
  destruct (whichLv_in_range n (proj2 Hn)) as (l & Hlv & Hl).
  destruct (Allocate_node_built LEVEL_LIMIT n l m Hlv Hl (proj1 Hn) Hroom)
    as (h & m' & Erun & Hclear & Hnb & Hnds & Hcons & Ht & Hmap & Hcount);
    [lia|].
  pose proof Ht as (Hnodup & Hfree & _ & _).
  pose proof (sectors_perm h) as Hperm.
  pose proof Hnodup as Hnodup'. rewrite Hperm in Hnodup'.
  apply NoDup_app in Hnodup' as (Hnh & Hdisj & _).
  rewrite Forall_forall in Hfree.
  assert (Hfresh : sector ∉ all_sectors h).
  { intros Hin. destruct (Hfree sector Hin) as [_ Hc]. congruence. }
  destruct (WriteBack_FetchFrom_consistent l h sector d LEVEL_LIMIT Hcons Hl)
    as (d' & Ew & Hnum & Hframe & Hfetch).
  - constructor; [|exact Hnh].
    intros Hin. apply Hfresh. apply header_in_all. exact Hin.
  - constructor; [apply Test_true_range in Hsector; lia|].
    apply Forall_forall. intros s Hs.
    destruct (Hfree s (header_in_all h s Hs)) as [Hr _]. lia.
  - exists h, m', d'. split; [exact Erun|]. split; [exact Ew|].
    split; [apply Hfetch; reflexivity|]. split; [exact Hframe|].
    intros s Hs. apply Hframe. rewrite Hmap in Hs.
    apply not_elem_of_cons. split.
    + intros ->. apply Hfresh. apply data_in_all. exact Hs.
    + intros Hh. exact (Hdisj s Hh Hs).
Qed.

Lemma Allocate_WriteBack_FetchFrom_witness :
  (0 <= 4000 <= MAX_SIZE 3)
  /\ sectors_needed LEVEL_LIMIT 4000
     <= Bitmap.NumClear (replicate 13 true ++ replicate 1011 false)
  /\ Bitmap.Test 5 (replicate 13 true ++ replicate 1011 false) = true
  /\ exists h m' d',
       Allocate (replicate 13 true ++ replicate 1011 false) 4000
       = Ret (true, h, m')
       /\ WriteBack h 5 (blank_disk 1024) = Ret d'
       /\ FetchFrom LEVEL_LIMIT d' 5 = Ret h.
Proof.
  assert (H1 : 0 <= 4000 <= MAX_SIZE 3) by (vm_compute; split; discriminate).
  assert (H2 : sectors_needed LEVEL_LIMIT 4000
               <= Bitmap.NumClear (replicate 13 true ++ replicate 1011 false))
    by (vm_compute; discriminate).
  assert (H3 : Z.of_nat (length (replicate 13 true ++ replicate 1011 false))
               = NumSectors (blank_disk 1024))
    by (vm_compute; reflexivity).
  assert (H4 : NumSectors (blank_disk 1024) <= 2147483648)
    by (vm_compute; discriminate).
  assert (H5 : Bitmap.Test 5 (replicate 13 true ++ replicate 1011 false) = true)
    by reflexivity.
  split; [exact H1|]. split; [exact H2|]. split; [exact H5|].
  destruct (Allocate_WriteBack_FetchFrom _ 4000 5 (blank_disk 1024)
              H1 H2 H3 H4 H5)
    as (h & m' & d' & Ea & Ew & Ef & _).
  exists h, m', d'. split; [exact Ea|]. split; [exact Ew | exact Ef].
Defined.

Lemma seq_NUM_DIRECT_head (f : nat -> Z) :
  map f (seq 0 (Z.to_nat NUM_DIRECT)) = f O :: map f (seq 1 29).
Proof. reflexivity. Qed.

(** X17.  [FetchFrom] trusts the sector it reads: the level comes from
    the size found there and every entry before the first sentinel is
    fetched as a child, whatever it is.  On a sector that holds a size
    above [MAX_SIZE[0]] and names itself as its first child the recursion
    has no end: the call returns for no amount of fuel. *)
Theorem FetchFrom_own_child {mem : Memory}
    (fuel : nat) (d : SynchDisk) (sector : Z)
    (buf : Sector) :
  ReadSector d sector = Ret buf ->
  MAX_SIZE 0 < int_at buf 0 <= MAX_SIZE 3 ->
  int_at buf 8 = sector ->
  FetchFrom fuel d sector = Diverge.
Proof.
  intros Hread Hsize Hself. unfold FetchFrom.
  assert (Hsector : 0 <= sector).
  { unfold ReadSector in Hread.
    destruct (Z.leb_spec 0 sector) as [H|H]; [exact H | discriminate]. }
  induction fuel as [|fuel IH]; [reflexivity|].
  rewrite FetchFrom_node_unfold, Hread. cbn [mbind outcome_bind]. cbv zeta.
  destruct (whichLv_in_range (int_at buf 0) (proj2 Hsize)) as (l & Hlv & Hl).
  rewrite Hlv. cbn [mbind outcome_bind].
  destruct l as [|l].
  { apply whichLv_Ret_inv in Hlv as (_ & Hle & _). lia. }
  rewrite seq_NUM_DIRECT_head. cbn [fetch_children].
  change (8 + 4 * 0)%nat with 8%nat. rewrite Hself.
  destruct (Z.eqb_spec sector INVALID_SECTOR) as [E|_];
    [unfold INVALID_SECTOR in E; lia|].
  rewrite IH. reflexivity.
Qed.

Lemma FetchFrom_own_child_witness :
  ReadSector looping_disk 2
  = Ret (value (ReadSector looping_disk 2) [])
  /\ int_at (value (ReadSector looping_disk 2) []) 0 = 4000
  /\ FetchFrom 100 looping_disk 2 = Diverge.
Proof.
  assert (H1 : ReadSector looping_disk 2
               = Ret (value (ReadSector looping_disk 2) []))
    by (vm_compute; reflexivity).
  assert (H2 : MAX_SIZE 0 < int_at (value (ReadSector looping_disk 2) []) 0
               <= MAX_SIZE 3)
    by (vm_compute; split; [reflexivity | discriminate]).
  assert (H3 : int_at (value (ReadSector looping_disk 2) []) 8 = 2)
    by (vm_compute; reflexivity).
  split; [exact H1|]. split; [vm_compute; reflexivity|].
  exact (FetchFrom_own_child 100 looping_disk 2 _ H1 H2 H3).
Defined.

(** ** Formatting and mounting *)

Lemma NumClear_replicate_false (n : nat) :
  Bitmap.NumClear (replicate n false) = Z.of_nat n.
Proof. induction n as [|n IH]; [reflexivity|]. simpl replicate. cbn [Bitmap.NumClear]. lia. Qed.

Lemma takes_Mark (s : Z) (m : Bitmap.t) :
  0 <= s < Z.of_nat (length m) -> Bitmap.Test s m = false ->
  takes m [s] (Bitmap.Mark s m).
Proof.
  intros Hr Hclear.
  split; [apply NoDup_singleton|]. split; [repeat constructor; [lia | lia | exact Hclear]|].
  split.
  - unfold Bitmap.Mark. destruct (s <? 0); [reflexivity | apply length_insert].
  - intros x. rewrite Test_Mark by exact Hr. f_equal.
    apply bool_decide_ext. rewrite list_elem_of_singleton. reflexivity.
Qed.

Lemma Test_replicate_false (s : Z) (n : nat) :
  Bitmap.Test s (replicate n false) = false.
Proof.
  unfold Bitmap.Test. destruct (s <? 0); [reflexivity|].
  destruct (replicate n false !! Z.to_nat s) as [b|] eqn:E; [|reflexivity].
  apply lookup_replicate in E as [-> _]. reflexivity.
Qed.

Lemma format_bitmap_takes (n : nat) :
  (2 <= n)%nat ->
  takes (replicate n false) [FreeMapSector; DirectorySector] (format_bitmap n).
Proof.
  intros Hn. unfold format_bitmap, FreeMapSector, DirectorySector.
  apply (takes_app _ (Bitmap.Mark 0 (replicate n false)) _ [0] [1]).
  - apply takes_Mark; [rewrite length_replicate; lia|].
    apply Test_replicate_false.
  - assert (Hlen : length (Bitmap.Mark 0 (replicate n false)) = n).
    { unfold Bitmap.Mark. simpl. rewrite length_insert, length_replicate.
      reflexivity. }
    apply takes_Mark; [rewrite Hlen; lia|].
    rewrite Test_Mark by (rewrite length_replicate; lia).
    rewrite Test_replicate_false. reflexivity.
Qed.

Lemma ByteToSector_in (h : FileHeader) (offset s : Z) :
  ByteToSector h offset = Ret s -> s ∈ dataSectorMapping h.
Proof.
  unfold ByteToSector. cbv zeta. intros H.
  apply bind_Ret in H as (u & Hassert & H). apply ASSERT_Ret in Hassert.
  apply andb_prop in Hassert as [Hassert _].
  apply andb_prop in Hassert as [Hlo Hhi].
  apply Z.leb_le in Hlo. apply Z.ltb_lt in Hhi.
  destruct (lookup_lt_is_Some_2 (dataSectorMapping h)
              (Z.to_nat (Z.quot offset SectorSize))) as [x Hx]; [lia|].
  rewrite Hx in H. injection H as <-.
  apply list_elem_of_lookup. eexists. exact Hx.
Qed.

Lemma read_sectors_frame (file : OpenFile) (d d' : SynchDisk) (n : nat) :
  (forall s, s ∈ dataSectorMapping (hdr file) ->
             ReadSector d' s = ReadSector d s) ->
  forall i, OpenFile.read_sectors file d' n i = OpenFile.read_sectors file d n i.
Proof.
  intros Hagree. induction n as [|n IH]; intros i; [reflexivity|].
  simpl. destruct (ByteToSector (hdr file) (i * SectorSize)) as [s| |] eqn:E;
    [|reflexivity..].
  cbn [mbind outcome_bind]. rewrite (Hagree s (ByteToSector_in _ _ _ E)), IH.
  reflexivity.
Qed.

Lemma ReadAt_frame (file : OpenFile) (d d' : SynchDisk) (k : Z) :
  (forall s, s ∈ dataSectorMapping (hdr file) ->
             ReadSector d' s = ReadSector d s) ->
  OpenFile.ReadAt file k d' = OpenFile.ReadAt file k d.
Proof.
  intros Hagree. unfold OpenFile.ReadAt.
  destruct ((k <=? 0) || (FileLength (hdr file) <=? 0)); [reflexivity|].
  cbv zeta. rewrite (read_sectors_frame file d d' _ Hagree). reflexivity.
Qed.

Lemma Allocate_direct (m : Bitmap.t) (n : Z) :
  0 <= n <= MAX_SIZE 0 ->
  divRoundUp n SectorSize <= Bitmap.NumClear m ->
  Z.of_nat (length m) <= 2147483648 ->
  exists h m',
    Allocate m n = Ret (true, h, m')
    /\ Bitmap.NumClear m' = Bitmap.NumClear m - divRoundUp n SectorSize
    /\ built 0 m n h m'
    /\ header_sectors h = []
    /\ all_sectors h = dataSectorMapping h.
Proof.
  intros Hn Hroom Hsize.
  assert (Hlv : whichLv n = Ret O)
    by (apply whichLv_intro; [lia | lia | intros j Hj; lia]).
  assert (Hneed : sectors_needed LEVEL_LIMIT n = divRoundUp n SectorSize)
    by (unfold LEVEL_LIMIT; cbn [sectors_needed]; rewrite Hlv; reflexivity).
  destruct (Allocate_node_built LEVEL_LIMIT n 0 m Hlv ltac:(unfold LEVEL_LIMIT; lia)
              (proj1 Hn) ltac:(lia) Hsize)
    as (h & m' & Erun & Hclear & Hb).
  exists h, m'. split; [exact Erun|]. split; [lia|]. split; [exact Hb|].
  destruct Hb as (Hnb & _ & _ & _ & Hmap & _).
  split.
  - rewrite header_sectors_eq, Hnb, Hlv. reflexivity.
  - rewrite Hmap, all_sectors_eq, data_sectors_eq, Hnb, Hlv. reflexivity.
Qed.

Lemma built_file_ok (m m' : Bitmap.t) (n : Z) (h : FileHeader) (pos : Z) :
  0 <= n -> built 0 m n h m' ->
  file_ok {| hdr := h; seekPosition := pos |} (Z.of_nat (length m))
  /\ NoDup (dataSectorMapping h)
  /\ (forall s, s ∈ dataSectorMapping h -> Bitmap.Test s m = false).
Proof.
  intros Hn (Hnb & Hnds & Hcons & Ht & Hmap & Hcount).
  destruct Ht as (Hnodup & Hfree & _ & _).
  pose proof (sectors_perm h) as Hperm.
  rewrite Hperm in Hnodup. apply NoDup_app in Hnodup as (_ & _ & Hnd).
  rewrite Forall_forall in Hfree.
  split; [|split].
  - unfold file_ok, FileLength. cbn [hdr]. rewrite Hmap, Hnds, Hnb.
    split; [exact Hcount|]. split; [|apply divRoundUp_covers; exact Hn].
    apply Forall_forall. intros s Hs. apply Hfree. apply data_in_all. exact Hs.
  - rewrite Hmap. exact Hnd.
  - intros s Hs. rewrite Hmap in Hs. apply Hfree. apply data_in_all. exact Hs.
Qed.

Lemma empty_table_bytes :
  Z.of_nat (length (Directory.table_bytes (Directory.new NumDirEntries)))
  = DirectoryFileSize
  /\ Directory.bytes_table NumDirEntries
       (Directory.table_bytes (Directory.new NumDirEntries))
     = Directory.new NumDirEntries.
Proof. split; vm_compute; reflexivity. Qed.

Lemma format_room (N : Z) :
  13 <= N ->
  0 <= Z.quot N PersistentBitmap.BitsInByte
  /\ divRoundUp (Z.quot N PersistentBitmap.BitsInByte) SectorSize <= N - 12.
Proof.
  intros HN. unfold PersistentBitmap.BitsInByte.
  rewrite Z.quot_div_nonneg by lia.
  assert (H8 : 0 <= N / 8) by (apply Z.div_pos; lia).
  split; [exact H8|].
  rewrite divRoundUp_sectors by exact H8.
  pose proof (Z.div_mod N 8 ltac:(lia)).
  pose proof (Z.mod_pos_bound N 8 ltac:(lia)).
  pose proof (Z.div_mod (N / 8 + 127) 128 ltac:(lia)).
  pose proof (Z.mod_pos_bound (N / 8 + 127) 128 ltac:(lia)).
  lia.
Qed.

(** X18.  Formatting a disk of at least 13 sectors whose bitmap fits a
    direct header comes to an end, whatever the disk held, and leaves a
    file system that can be mounted: [mount] opens the very two files that
    [format] returned.  The root directory read from the disk has no
    entry in use.  When the number of sectors is a multiple of eight, the
    bitmap read from the disk marks the sectors of the two headers and the
    data sectors of the two files, and no other. *)
Theorem format_then_mount {mem : Memory} (fuel : nat) (d : SynchDisk) :
  13 <= NumSectors d -> FreeMapFileSize d <= MAX_SIZE 0 ->
  exists fs d',
    format (S fuel) d = Ret (fs, d')
    /\ mount (S fuel) d' = Ret fs
    /\ NumSectors d' = NumSectors d
    /\ Directory.FetchFrom NumDirEntries (directoryFile fs) d'
       = Ret (Directory.new NumDirEntries)
    /\ (NumSectors d mod 8 = 0 ->
        exists m,
          persisted_bitmap fs d' = Ret m
          /\ takes (replicate (Z.to_nat (NumSectors d)) false)
               ([FreeMapSector; DirectorySector]
                ++ dataSectorMapping (hdr (freeMapFile fs))
                ++ dataSectorMapping (hdr (directoryFile fs))) m
          /\ Bitmap.NumClear m
             = NumSectors d - 12 - divRoundUp (FreeMapFileSize d) SectorSize).
Proof.
  intros HN Hsmall.
  assert (HN31 : NumSectors d <= 2147483648).
  { unfold FreeMapFileSize, PersistentBitmap.BitsInByte in Hsmall.
    rewrite Z.quot_div_nonneg in Hsmall by lia.
    change (MAX_SIZE 0) with 3840 in Hsmall.
    pose proof (Z.div_mod (NumSectors d) 8 ltac:(lia)).
    pose proof (Z.mod_pos_bound (NumSectors d) 8 ltac:(lia)). lia. }
  destruct (format_room (NumSectors d) HN) as [Hsz0 Hszr].
  fold (FreeMapFileSize d) in Hsz0, Hszr.
  remember (Z.to_nat (NumSectors d)) as n eqn:Hn_def.
  assert (Hnn : Z.of_nat n = NumSectors d) by lia.
  pose proof (format_bitmap_takes n ltac:(lia)) as Ht0.
  pose proof (takes_NumClear _ _ _ Ht0) as Hc0.
  rewrite NumClear_replicate_false in Hc0. simpl length in Hc0.
  pose proof Ht0 as (_ & _ & Hlen0 & Htest0).
  rewrite length_replicate in Hlen0.
  (* the two allocations *)
  destruct (Allocate_direct (format_bitmap n) (FreeMapFileSize d))
    as (mapHdr & fm1 & EA & HcA & HbA & HhA & HallA);
    [lia | lia | lia |].
  pose proof HbA as (HnbA & _ & HconsA & HtA & _ & _).
  pose proof HtA as (_ & _ & Hlen1 & Htest1).
  assert (Hdir : 0 <= DirectoryFileSize <= MAX_SIZE 0
                 /\ divRoundUp DirectoryFileSize SectorSize = 10)
    by (vm_compute; repeat split; discriminate).
  destruct Hdir as [Hdsz Hdneed].
  destruct (Allocate_direct fm1 DirectoryFileSize)
    as (dirHdr & fm2 & EB & HcB & HbB & HhB & HallB);
    [exact Hdsz | lia | lia |].
  pose proof HbB as (HnbB & _ & HconsB & HtB & _ & _).
  pose proof HtB as (_ & _ & Hlen2 & Htest2).
  destruct (built_file_ok _ _ _ _ 0 Hsz0 HbA) as (HokA & HndA & HfreshA).
  destruct (built_file_ok _ _ _ _ 0 (proj1 Hdsz) HbB) as (HokB & HndB & HfreshB).
  rewrite Hlen0, Hnn in HokA. rewrite Hlen1, Hlen0, Hnn in HokB.
  (* the sectors of the two headers are no data sector *)
  assert (Hmarked0 : forall s, s = FreeMapSector \/ s = DirectorySector ->
                               Bitmap.Test s (format_bitmap n) = true).
  { intros s Hs. rewrite Htest0.
    rewrite bool_decide_eq_true_2; [apply orb_true_r|].
    rewrite !elem_of_cons. tauto. }
  assert (HnotA : forall s, s = FreeMapSector \/ s = DirectorySector ->
                            s ∉ dataSectorMapping mapHdr).
  { intros s Hs Hin. pose proof (Hmarked0 s Hs) as Hm.
    rewrite (HfreshA s Hin) in Hm. discriminate. }
  assert (HnotB : forall s, s = FreeMapSector \/ s = DirectorySector ->
                            s ∉ dataSectorMapping dirHdr).
  { intros s Hs Hin. pose proof (HfreshB s Hin) as Hc.
    rewrite Htest1, (Hmarked0 s Hs) in Hc. discriminate. }
  assert (HdisjAB : forall s, s ∈ dataSectorMapping mapHdr ->
                              s ∉ dataSectorMapping dirHdr).
  { intros s HsA HsB. pose proof (HfreshB s HsB) as Hc.
    rewrite Htest1, HallA, (bool_decide_eq_true_2 _ HsA), orb_true_r in Hc.
    discriminate. }
  (* the two headers go to the disk *)
  destruct (WriteBack_FetchFrom_consistent 0 mapHdr FreeMapSector d (S fuel)
              HconsA ltac:(lia))
    as (d1 & Ew1 & Hnum1 & Hframe1 & Hfetch1).
  { rewrite HhA. apply NoDup_singleton. }
  { rewrite HhA. repeat constructor; unfold FreeMapSector; lia. }
  destruct (WriteBack_FetchFrom_consistent 0 dirHdr DirectorySector d1 (S fuel)
              HconsB ltac:(lia))
    as (d2 & Ew2 & Hnum2 & Hframe2 & Hfetch2).
  { rewrite HhB. apply NoDup_singleton. }
  { rewrite HhB, Hnum1. repeat constructor; unfold DirectorySector; lia. }
  rewrite HhA in Hframe1, Hfetch1. rewrite HhB in Hframe2, Hfetch2.
  assert (Hopen_map : forall d'',
             ReadSector d'' FreeMapSector = ReadSector d1 FreeMapSector ->
             OpenFile.new (S fuel) d'' FreeMapSector
             = Ret {| hdr := mapHdr; seekPosition := 0 |}).
  { intros d'' Hagree. unfold OpenFile.new. rewrite (Hfetch1 d''); [reflexivity|].
    intros s Hs. apply list_elem_of_singleton in Hs. subst s. exact Hagree. }
  assert (Hopen_dir : forall d'',
             ReadSector d'' DirectorySector = ReadSector d2 DirectorySector ->
             OpenFile.new (S fuel) d'' DirectorySector
             = Ret {| hdr := dirHdr; seekPosition := 0 |}).
  { intros d'' Hagree. unfold OpenFile.new. rewrite (Hfetch2 d''); [reflexivity|].
    intros s Hs. apply list_elem_of_singleton in Hs. subst s. exact Hagree. }
  assert (H01 : FreeMapSector ∉ [DirectorySector])
    by (rewrite list_elem_of_singleton; discriminate).
  (* the contents of the two files go to the disk *)
  destruct (WriteAt_run {| hdr := mapHdr; seekPosition := 0 |} (NumSectors d)
              HokA ByBitmap (PersistentBitmap.bytes_of_bits fm2) d2)
    as (d3 & Ew3 & Hnum3 & Hframe3 & Hback3); [congruence|].
  destruct (WriteAt_run {| hdr := dirHdr; seekPosition := 0 |} (NumSectors d)
              HokB ByDirectory
              (Directory.table_bytes (Directory.new NumDirEntries)) d3)
    as (d4 & Ew4 & Hnum4 & Hframe4 & Hback4); [exact Hnum3|].
  cbn [hdr] in Hframe3, Hframe4, Hback3, Hback4.
  exists {| freeMapFile := {| hdr := mapHdr; seekPosition := 0 |};
            directoryFile := {| hdr := dirHdr; seekPosition := 0 |} |}, d4.
  split; [|split; [|split; [exact Hnum4|split]]].
  - unfold format. cbv zeta. rewrite <- Hn_def.
    change (Bitmap.Mark DirectorySector
              (Bitmap.Mark FreeMapSector (replicate n false)))
      with (format_bitmap n).
    rewrite EA. cbn [mbind outcome_bind ASSERT].
    rewrite EB. cbn [mbind outcome_bind ASSERT].
    rewrite Ew1. cbn [mbind outcome_bind].
    rewrite Ew2. cbn [mbind outcome_bind].
    rewrite (Hopen_map d2) by (apply Hframe2; exact H01).
    cbn [mbind outcome_bind].
    rewrite (Hopen_dir d2) by reflexivity.
    cbn [mbind outcome_bind].
    unfold PersistentBitmap.WriteBack, Directory.WriteBack.
    rewrite Ew3. cbn [mbind outcome_bind].
    rewrite Ew4. reflexivity.
  - unfold mount.
    rewrite (Hopen_map d4).
    + cbn [mbind outcome_bind]. rewrite (Hopen_dir d4); [reflexivity|].
      rewrite (Hframe4 _ (HnotB _ (or_intror eq_refl))).
      apply Hframe3. apply HnotA. right. reflexivity.
    + rewrite (Hframe4 _ (HnotB _ (or_introl eq_refl))).
      rewrite (Hframe3 _ (HnotA _ (or_introl eq_refl))).
      apply Hframe2. exact H01.
  - cbn [directoryFile]. unfold Directory.FetchFrom.
    destruct empty_table_bytes as [Elen Etable].
    change (Z.of_nat NumDirEntries * sizeof_DirectoryEntry)
      with DirectoryFileSize.
    rewrite <- Elen, (Hback4 HndB). cbn [mbind outcome_bind].
    unfold OpenFile.clip, FileLength. cbn [hdr]. rewrite HnbB, Elen.
    rewrite Z.ltb_irrefl, <- Elen, Nat2Z.id, firstn_all, Etable. reflexivity.
  - intros Hmod. exists fm2.
    assert (Hlong : NumSectors d2 <= 8 * FileLength mapHdr).
    { unfold FileLength. rewrite HnbA, Hnum2, Hnum1.
      unfold FreeMapFileSize, PersistentBitmap.BitsInByte.
      rewrite Z.quot_div_nonneg by lia.
      pose proof (Z.div_mod (NumSectors d) 8 ltac:(lia)). lia. }
    assert (Hpers3 : persisted_bitmap
                       {| freeMapFile := {| hdr := mapHdr; seekPosition := 0 |};
                          directoryFile := {| hdr := dirHdr; seekPosition := 0 |} |}
                       d3 = Ret fm2).
    { apply (persisted_bitmap_WriteBack _ d2 d3 fm2).
      - cbn [freeMapFile]. rewrite Hnum2, Hnum1. exact HokA.
      - exact HndA.
      - exact Hlong.
      - rewrite Hlen2, Hlen1, Hlen0, Hnum2, Hnum1. lia.
      - exact Ew3. }
    split; [|split].
    + unfold persisted_bitmap, PersistentBitmap.new in Hpers3 |- *.
      cbn [freeMapFile] in Hpers3 |- *.
      rewrite Hnum4, <- Hnum3.
      rewrite (ReadAt_frame _ d3 d4); [exact Hpers3|].
      intros s Hs. apply Hframe4. apply HdisjAB. exact Hs.
    + cbn [freeMapFile directoryFile hdr].
      apply (takes_app _ (format_bitmap n) _ _ _ Ht0).
      rewrite <- HallA, <- HallB.
      apply (takes_app _ fm1 _ _ _ HtA HtB).
    + lia.
Qed.

Lemma format_then_mount_witness :
  13 <= NumSectors (blank_disk 1024)
  /\ FreeMapFileSize (blank_disk 1024) <= MAX_SIZE 0
  /\ exists fs d',
       format 10 (blank_disk 1024) = Ret (fs, d')
       /\ mount 10 d' = Ret fs.
Proof.
  assert (H1 : 13 <= NumSectors (blank_disk 1024)) by (vm_compute; discriminate).
  assert (H2 : FreeMapFileSize (blank_disk 1024) <= MAX_SIZE 0)
    by (vm_compute; discriminate).
  split; [exact H1|]. split; [exact H2|].
  destruct (format_then_mount 9 (blank_disk 1024) H1 H2)
    as (fs & d' & Ef & Em & _).
  exists fs, d'. exact (conj Ef Em).
Defined.

(** ** Giving back what is not marked, and the sectors of a file header *)

Lemma Test_Clear_true (s x : Z) (m : Bitmap.t) :
  Bitmap.Test x (Bitmap.Clear s m) = true -> Bitmap.Test x m = true /\ x <> s.
Proof.
  intros H. destruct (decide (x = s)) as [->|Hne].
  - rewrite Test_Clear_eq in H. discriminate.
  - rewrite Test_Clear_ne in H by exact Hne. auto.
Qed.

Lemma dealloc_direct_inv (n : nat) :
  forall i secs m m',
    dealloc_direct n i secs m = Ret m' ->
    NoDup (take n (drop i secs))
    /\ Forall (fun s => Bitmap.Test s m = true) (take n (drop i secs))
    /\ m' = clear_all (take n (drop i secs)) m.
Proof.
  induction n as [|n IH]; intros i secs m m' Hrun.
  - simpl in Hrun. injection Hrun as <-. simpl.
    split; [constructor|]. split; [constructor | reflexivity].
  - simpl in Hrun. destruct (secs !! i) as [s|] eqn:Hs; [|discriminate].
    apply bind_Ret in Hrun as (u & Hassert & Hrun).
    apply ASSERT_Ret in Hassert.
    apply IH in Hrun as (Hnodup & Hmarked & ->).
    rewrite (drop_S secs s i Hs). simpl.
    rewrite Forall_forall in Hmarked.
    split; [|split; [|reflexivity]].
    + constructor; [|exact Hnodup].
      intros Hin. apply Hmarked, Test_Clear_true in Hin as [_ Hne]. congruence.
    + constructor; [exact Hassert|].
      apply Forall_forall. intros x Hx.
      apply Hmarked, Test_Clear_true in Hx as [Hx _]. exact Hx.
Qed.

Lemma dealloc_children_inv (kids : list FileHeader) :
  Forall (fun k => forall m m',
              Deallocate k m = Ret m' ->
              NoDup (data_sectors k)
              /\ Forall (fun s => Bitmap.Test s m = true) (data_sectors k)
              /\ m' = clear_all (data_sectors k) m) kids ->
  forall secs m m',
    dealloc_children Deallocate secs kids m = Ret m' ->
    NoDup (over_children (fun _ kid => data_sectors kid) secs kids)
    /\ Forall (fun s => Bitmap.Test s m = true)
         (over_children (fun _ kid => data_sectors kid) secs kids)
    /\ m' = clear_all (over_children (fun _ kid => data_sectors kid) secs kids) m.
Proof.
  induction 1 as [|kid kids Hkid _ IH]; intros secs m m' Hrun.
  - rewrite over_children_nil_kids.
    destruct secs as [|s secs]; simpl in Hrun.
    + injection Hrun as <-. split; [constructor|]. split; [constructor | reflexivity].
    + destruct (s =? INVALID_SECTOR); [|discriminate].
      injection Hrun as <-. split; [constructor|]. split; [constructor | reflexivity].
  - destruct secs as [|s secs]; simpl in Hrun |- *.
    + injection Hrun as <-. split; [constructor|]. split; [constructor | reflexivity].
    + destruct (s =? INVALID_SECTOR).
      { injection Hrun as <-. split; [constructor|]. split; [constructor | reflexivity]. }
      apply bind_Ret in Hrun as (m1 & Hk & Hrun).
      apply Hkid in Hk as (Hn1 & Hm1 & ->).
      apply IH in Hrun as (Hn2 & Hm2 & ->).
      rewrite Forall_forall in Hm2.
      split; [|split].
      * apply NoDup_app. split; [exact Hn1|]. split; [|exact Hn2].
        intros x Hx1 Hx2. specialize (Hm2 x Hx2). simpl in Hm2.
        rewrite Test_clear_all, decide_True in Hm2 by exact Hx1. discriminate.
      * apply Forall_app. split; [exact Hm1|].
        apply Forall_forall. intros x Hx. specialize (Hm2 x Hx). simpl in Hm2.
        rewrite Test_clear_all in Hm2.
        destruct (decide (x ∈ data_sectors kid)); [discriminate | exact Hm2].
      * rewrite clear_all_app. reflexivity.
Qed.

(** X19.  [Deallocate] frees no sector twice and none that is free: when
    it returns, the data sectors of the header were all marked and no two
    of them the same, and the bitmap it leaves is the one it was given
    with those sectors cleared.  A data sector that is not marked, or one
    that the header lists twice, ends the call at its assertion. *)
Theorem Deallocate_returns_only_marked (h : FileHeader) :
  forall (m m' : Bitmap.t),
    Deallocate h m = Ret m' ->
    NoDup (data_sectors h)
    /\ Forall (fun s => Bitmap.Test s m = true) (data_sectors h)
    /\ m' = clear_all (data_sectors h) m.
Proof.
  induction h as [nb nds secs mapping kids IH] using FileHeader_nested_ind.
  intros m m' Hrun. rewrite Deallocate_eq in Hrun. rewrite data_sectors_eq.
  cbn [numBytes numDataSectors dataSectors children] in Hrun |- *.
  apply bind_Ret in Hrun as (lv & Hlv & Hrun). rewrite Hlv.
  destruct lv as [|lv].
  - apply dealloc_direct_inv in Hrun. rewrite drop_0 in Hrun. exact Hrun.
  - apply (dealloc_children_inv kids IH). exact Hrun.
Qed.

Lemma Deallocate_returns_only_marked_witness :
  Deallocate small_header [true; true; true; true; false]
  = Ret [false; false; true; false; false]
  /\ Forall (fun s => Bitmap.Test s [true; true; true; true; false] = true)
       (data_sectors small_header).
Proof.
  assert (Hrun : Deallocate small_header [true; true; true; true; false]
                 = Ret [false; false; true; false; false])
    by (vm_compute; reflexivity).
  split; [exact Hrun|].
  exact (proj1 (proj2 (Deallocate_returns_only_marked small_header _ _ Hrun))).
Defined.

(** ** What [FetchFrom] returns *)

Lemma byte_at_range (bs : list Z) (i : nat) : 0 <= byte_at bs i < 256.
Proof. unfold byte_at. apply Z.mod_pos_bound. lia. Qed.

Lemma int_at_range (bs : list Z) (off : nat) : int_range (int_at bs off).
Proof.
  unfold int_at, int_range.
  pose proof (byte_at_range bs off).
  pose proof (byte_at_range bs (off + 1)).
  pose proof (byte_at_range bs (off + 2)).
  pose proof (byte_at_range bs (off + 3)).
  destruct (Z.ltb_spec
              (byte_at bs off + 256 * byte_at bs (off + 1)
               + 65536 * byte_at bs (off + 2)
               + 16777216 * byte_at bs (off + 3)) 2147483648); lia.
Qed.

Lemma fetch_children_inv (fetch : Z -> outcome FileHeader)
    (P : FileHeader -> Prop) :
  (forall s k, fetch s = Ret k -> P k) ->
  forall secs mapping kids0 mapping' kids',
    fetch_children fetch secs mapping kids0 = Ret (mapping', kids') ->
    exists newkids,
      kids' = kids0 ++ newkids
      /\ mapping'
         = foldl (fun acc kid => merge_into acc (dataSectorMapping kid))
             mapping newkids
      /\ length newkids = length (live secs)
      /\ Forall P newkids.
Proof.
  intros HP. induction secs as [|s secs IH];
    intros mapping kids0 mapping' kids' Hrun.
  - simpl in Hrun. injection Hrun as <- <-. exists [].
    rewrite app_nil_r. repeat split. constructor.
  - simpl in Hrun |- *. destruct (s =? INVALID_SECTOR).
    + injection Hrun as <- <-. exists [].
      rewrite app_nil_r. repeat split. constructor.
    + apply bind_Ret in Hrun as (kid & Hkid & Hrun).
      apply IH in Hrun as (newkids & -> & -> & Hlen & Hall).
      exists (kid :: newkids). rewrite <- app_assoc. simpl.
      split; [reflexivity|]. split; [reflexivity|]. split; [lia|].
      constructor; [apply (HP s); exact Hkid | exact Hall].
Qed.

Lemma FetchFrom_node_consistent {mem : Memory} (fuel : nat) :
  forall d sector h,
    FetchFrom_node fuel d sector = Ret h ->
    within_array fuel h -> consistent fuel h.
Proof.
  induction fuel as [|fuel IH]; intros d sector h Hrun Hin; [discriminate|].
  rewrite FetchFrom_node_unfold in Hrun.
  apply bind_Ret in Hrun as (buf & _ & Hrun). cbv zeta in Hrun.
  apply bind_Ret in Hrun as (lv & Hlv & Hrun).
  assert (Hlen : length (map (fun i => int_at buf (8 + 4 * i))
                           (seq 0 (Z.to_nat NUM_DIRECT)))
                 = Z.to_nat NUM_DIRECT)
    by (rewrite length_map, length_seq; reflexivity).
  assert (Hsecs : Forall int_range
                    (map (fun i => int_at buf (8 + 4 * i))
                       (seq 0 (Z.to_nat NUM_DIRECT)))).
  { apply Forall_forall. intros x Hx. apply list_elem_of_fmap in Hx as (i & -> & _).
    apply int_at_range. }
  destruct lv as [|lv].
  - apply bind_Ret in Hrun as (mapping & Hmap & Hrun). injection Hrun as <-.
    cbn [within_array numBytes numDataSectors] in Hin. rewrite Hlv in Hin.
    rewrite fetch_direct_take in Hmap
      by (rewrite Hlen; change NUM_DIRECT with 30 in *; lia).
    injection Hmap as <-.
    cbn [consistent numBytes numDataSectors dataSectors dataSectorMapping
           children].
    rewrite Hlv.
    split; [exact Hlen|]. split; [apply int_at_range|].
    split; [apply int_at_range|]. split; [exact Hsecs|].
    split; [reflexivity|]. split; [exact Hin | reflexivity].
  - apply bind_Ret in Hrun as ([mapping kids] & Hkids & Hrun).
    injection Hrun as <-.
    cbn [within_array numBytes children] in Hin. rewrite Hlv in Hin.
    apply (fetch_children_inv _
             (fun k => within_array fuel k -> consistent fuel k)) in Hkids
      as (newkids & -> & -> & Hcount & Hall);
      [|intros s k Hk; exact (IH d s k Hk)].
    cbn [consistent numBytes numDataSectors dataSectors dataSectorMapping
           children].
    rewrite Hlv.
    split; [exact Hlen|]. split; [apply int_at_range|].
    split; [apply int_at_range|]. split; [exact Hsecs|].
    split; [exact Hcount|]. split; [|reflexivity].
    rewrite Forall_forall in Hall, Hin. apply Forall_forall.
    intros k Hk. apply (Hall k Hk). apply (Hin k Hk).
Qed.

(** X20.  [returnSectorsToFreeMap] asserts that the sector of the header
    is marked, and aborts when it is not.  Given the sector of a header
    none of whose direct headers counts more data sectors than
    [dataSectors] holds, and whose data sectors are marked, all different
    and none of them that sector, it returns the bitmap with the sector of
    the header and the data sectors cleared; every other bit, those of the
    headers below the first among them, stays as it was.  (A direct header
    that counts more data sectors is what [FetchFrom] can return and
    [Deallocate] cannot serve: [returnSectorsToFreeMap_overrun].) *)
Theorem returnSectorsToFreeMap_frees {mem : Memory} (fuel : nat)
    (d : SynchDisk) (fhSec : Z) (m : Bitmap.t) (h : FileHeader) :
  (Bitmap.Test fhSec m = false ->
   returnSectorsToFreeMap fuel d fhSec m = Abort)
  /\ (FetchFrom fuel d fhSec = Ret h ->
      within_array fuel h ->
      Bitmap.Test fhSec m = true ->
      NoDup (fhSec :: data_sectors h) ->
      Forall (fun s => Bitmap.Test s m = true) (data_sectors h) ->
      returnSectorsToFreeMap fuel d fhSec m
      = Ret (clear_all (fhSec :: data_sectors h) m)
      /\ forall s,
           Bitmap.Test s (clear_all (fhSec :: data_sectors h) m)
           = if decide (s ∈ fhSec :: data_sectors h) then false
             else Bitmap.Test s m).
Proof.
  unfold returnSectorsToFreeMap. split.
  - intros Hclear. rewrite Hclear. reflexivity.
  - intros Hfetch Hin Hmarked Hnodup Hdata.
    pose proof (FetchFrom_node_consistent fuel d fhSec h Hfetch Hin) as Hcons.
    rewrite Hmarked, Hfetch. cbn [ASSERT mbind outcome_bind].
    split; [|intros s; apply Test_clear_all].
    inversion Hnodup as [|? ? Hnotin Hnodup']; subst.
    apply (Deallocate_consistent fuel); [exact Hcons | exact Hnodup' |].
    apply Forall_forall. intros s Hs.
    rewrite Test_Clear_ne by (intros ->; contradiction).
    rewrite Forall_forall in Hdata. apply Hdata. exact Hs.
Qed.

Lemma returnSectorsToFreeMap_frees_witness :
  FetchFrom 1 small_disk 2 = Ret small_header
  /\ within_array 1 small_header
  /\ returnSectorsToFreeMap 1 small_disk 2 [true; true; true; true; false]
     = Ret (clear_all (2 :: data_sectors small_header)
              [true; true; true; true; false])
  /\ returnSectorsToFreeMap 1 small_disk 2 [true; true; false; true; false]
     = Abort.
Proof.
  assert (Hf : FetchFrom 1 small_disk 2 = Ret small_header)
    by (vm_compute; reflexivity).
  assert (Hin : within_array 1 small_header) by (vm_compute; discriminate).
  split; [exact Hf|]. split; [exact Hin|]. split.
  - apply (proj2 (returnSectorsToFreeMap_frees 1 small_disk 2
                    [true; true; true; true; false] small_header) Hf
             Hin eq_refl).
    + apply (bool_decide_unpack _). vm_compute. exact I.
    + apply (bool_decide_unpack _). vm_compute. exact I.
  - apply (proj1 (returnSectorsToFreeMap_frees 1 small_disk 2
                    [true; true; false; true; false] small_header)).
    reflexivity.
Defined.

(** The bound on the direct headers is needed.  From [overrun_disk]
    [FetchFrom] returns a direct header that counts 31 data sectors; its
    30 data sectors and its own sector are marked and all different, and
    the call ends at the assertion of [Deallocate] on the 31st. *)
Example returnSectorsToFreeMap_overrun {mem : Memory} :
  exists h,
    FetchFrom 1 overrun_disk 2 = Ret h
    /\ ~ within_array 1 h
    /\ data_sectors h = map Z.of_nat (seq 5 30)
    /\ Bitmap.Test 2 (replicate 40 true) = true
    /\ NoDup (2 :: data_sectors h)
    /\ Forall (fun s => Bitmap.Test s (replicate 40 true) = true)
         (data_sectors h)
    /\ returnSectorsToFreeMap 1 overrun_disk 2 (replicate 40 true) = Abort.
Proof.
  eexists. split; [vm_compute; reflexivity|].
  split; [vm_compute; intros H; apply H; reflexivity|].
  split; [vm_compute; reflexivity|].
  split; [reflexivity|].
  split; [apply (bool_decide_unpack _); vm_compute; exact I|].
  split; [apply (bool_decide_unpack _); vm_compute; exact I|].
  vm_compute. reflexivity.
Qed.

(** ** Looking a path up *)

Lemma resolves_not_root {mem : Memory}
    (fuel : nat) (d : SynchDisk) (root : OpenFile)
    (nm : string) (s : Z) :
  resolves fuel d root nm FILE s -> c_str nm <> "/"%string.
Proof.
  intros [_ [(_ & Hdir & _)|[Hne _]]]; [discriminate Hdir | exact Hne].
Qed.

Lemma OpenFile_new_sector {mem : Memory}
    (fuel : nat) (d : SynchDisk) (s : Z) (file : OpenFile) :
  OpenFile.new fuel d s = Ret file -> 0 <= s.
Proof.
  unfold OpenFile.new, FetchFrom. intros H.
  apply bind_Ret in H as (h & Hh & _).
  destruct fuel as [|fuel]; [discriminate|].
  rewrite FetchFrom_node_unfold in Hh.
  apply bind_Ret in Hh as (buf & Hread & _).
  unfold ReadSector in Hread.
  destruct (Z.leb_spec 0 s) as [Hs|Hs]; [exact Hs | discriminate].
Qed.

(** X21.  [Open] looks the path up as a file first and as a directory
    only when no file is found.  So a path that names a file opens that
    file, also when a directory has the same name; and a path that names
    a directory and no file opens the directory as if it were a file. *)
Theorem Open_file_before_directory {mem : Memory} (fuel : nat) (fs : FileSystem)
    (nm : string) (d : SynchDisk) :
  (forall s file,
      resolves fuel d (directoryFile fs) nm FILE s ->
      OpenFile.new fuel d s = Ret file ->
      Open fuel fs nm d = Ret file)
  /\ (forall f s file,
         find fuel d FileFinder_new nm FILE (directoryFile fs) = Ret f ->
         exist f = false ->
         c_str nm <> "/"%string ->
         resolves fuel d (directoryFile fs) nm DIR s ->
         OpenFile.new fuel d s = Ret file ->
         Open fuel fs nm d = Ret file).
Proof.
  split.
  - intros s file Hres Hnew.
    pose proof (resolves_not_root _ _ _ _ _ Hres) as Hne.
    destruct (find_complete fuel d FileFinder_new nm FILE (directoryFile fs) s
                Hres Hne) as (f' & Hfind & He & Hs).
    { eexists. exact Hnew. }
    unfold Open. rewrite Hfind. cbn [mbind outcome_bind]. rewrite He.
    cbn [mbind outcome_bind]. rewrite He, Hs.
    apply OpenFile_new_sector in Hnew as Hpos. apply Z.leb_le in Hpos.
    rewrite Hpos. exact Hnew.
  - intros f s file Hfind He Hne Hres Hnew.
    destruct (find_complete fuel d f nm DIR (directoryFile fs) s Hres Hne)
      as (f' & Hfind' & He' & Hs).
    { eexists. exact Hnew. }
    unfold Open. rewrite Hfind. cbn [mbind outcome_bind]. rewrite He.
    rewrite Hfind'. cbn [mbind outcome_bind]. rewrite He', Hs.
    apply OpenFile_new_sector in Hnew as Hpos. apply Z.leb_le in Hpos.
    rewrite Hpos. exact Hnew.
Qed.

Lemma Open_file_before_directory_witness :
  let fs := fst (state_of one_file) in
  let d := snd (state_of one_file) in
  resolves 10 d (directoryFile fs) "/a" FILE 13
  /\ Open 10 fs "/a" d = OpenFile.new 10 d 13.
Proof.
  intros fs d.
  assert (Hres : resolves 10 d (directoryFile fs) "/a" FILE 13).
  { split; [reflexivity|]. right. split; [discriminate|].
    exists EmptyString, [], "a"%string, (directoryFile fs), DirectorySector.
    split; [reflexivity|]. split; [constructor|].
    split; [vm_compute; reflexivity | discriminate]. }
  assert (Hnew : OpenFile.new 10 d 13
                 = Ret (value (OpenFile.new 10 d 13)
                          {| hdr := fresh_header; seekPosition := 0 |}))
    by (vm_compute; reflexivity).
  split; [exact Hres|].
  rewrite Hnew.
  exact (proj1 (Open_file_before_directory 10 fs "/a" d) 13 _ Hres Hnew).
Defined.

Lemma free_id_taken (table : OpenFileTable) :
  forall k i,
    0 <= i -> free_id k i table = Ret (i + Z.of_nat k) ->
    forall x, i <= x < i + Z.of_nat k ->
              exists file, table !! Z.to_nat x = Some (Some file).
Proof.
  induction k as [|k IH]; intros i Hi Hrun x Hx; [lia|].
  simpl in Hrun. apply bind_Ret in Hrun as (slot & Hslot & Hrun).
  unfold table_at in Hslot.
  destruct (Z.ltb_spec i 0) as [?|_]; [discriminate|].
  destruct (table !! Z.to_nat i) as [slot'|] eqn:Hlook; [|discriminate].
  injection Hslot as ->.
  destruct slot as [file|]; [|injection Hrun as Hrun; lia].
  destruct (decide (x = i)) as [->|Hne]; [exists file; exact Hlook|].
  apply (IH (i + 1)); [lia | |lia].
  rewrite Hrun. f_equal. lia.
Qed.

(** X22.  [OpenAFile], and with it the system call [SysOpen], has no
    answer for a name that is missing: when a place of the table is free
    the name is handed to [Open], and for a path that names neither a
    file nor a directory the call does not return [-1] nor anything
    else, it ends in the assertion of [Open]. *)
Theorem OpenAFile_missing_name {mem : Memory} (fuel : nat) (fs : FileSystem)
    (table : OpenFileTable) (nm : string) (d : SynchDisk) (k : nat) :
  table !! k = Some None -> (k < 20)%nat ->
  (forall dir s, ~ resolves fuel d (directoryFile fs) nm dir s) ->
  forall r, OpenAFile fuel fs table nm d <> Ret r.
Proof.
  intros Hfree Hk Hmissing r Hrun. unfold OpenAFile in Hrun.
  apply bind_Ret in Hrun as (id & Hid & Hrun).
  destruct (Z.eqb_spec id 20) as [->|Hne].
  - destruct (free_id_taken table 20 0 ltac:(lia) Hid (Z.of_nat k) ltac:(lia))
      as [file Hfile].
    rewrite Nat2Z.id in Hfile. congruence.
  - apply bind_Ret in Hrun as (file & Hopen & _).
    apply Open_Ret_inv in Hopen as (dir & s & Hres & _).
    exact (Hmissing dir s Hres).
Qed.

Lemma OpenAFile_missing_name_witness :
  let fs := fst (state_of one_file) in
  let d := snd (state_of one_file) in
  (forall dir s, ~ resolves 10 d (directoryFile fs) "/zz" dir s)
  /\ OpenAFile 10 fs OpenFileTable_new "/zz" d = Abort.
Proof.
  intros fs d.
  assert (Hmissing : forall dir s, ~ resolves 10 d (directoryFile fs) "/zz" dir s).
  { intros dir. apply (no_walk_resolves 10 d (directoryFile fs) "/zz" dir
                         EmptyString "zz");
      [discriminate | reflexivity | destruct dir; vm_compute; reflexivity]. }
  split; [exact Hmissing|].
  pose proof (OpenAFile_missing_name 10 fs OpenFileTable_new "/zz" d 0
                eq_refl ltac:(lia) Hmissing) as Hno.
  destruct (OpenAFile 10 fs OpenFileTable_new "/zz" d) as [r| |] eqn:E.
  - exfalso. exact (Hno r eq_refl).
  - reflexivity.
  - exfalso. revert E. vm_compute. discriminate.
Defined.

Lemma find_loop_walk_inv {mem : Memory}
    (fuel : nat) (d : SynchDisk) (dir : bool) :
  forall mid first f file sec parent psec c s f',
    (if first : bool then sec = DirectorySector else fhSector f = sec) ->
    walks fuel d file sec mid parent psec ->
    dir_lookup fuel d parent c dir = Ret s ->
    s <> INVALID_SECTOR ->
    find_loop fuel d dir (mid ++ [c]) first f file = Ret f' ->
    exist f' = true /\ fhSector f' = s /\ pFhSector f' = psec.
Proof.
  induction mid as [|c0 mid IH];
    intros first f file sec parent psec c s f' Hsec Hwalk Hlook Hs Hrun.
  - inversion Hwalk; subst. cbn [app find_loop] in Hrun.
    unfold dir_lookup in Hlook.
    apply bind_Ret in Hlook as (table & Htable & Hfind).
    rewrite Htable in Hrun. cbn [mbind outcome_bind] in Hrun.
    inversion Hfind as [Hfs]. rewrite Hfs in Hrun.
    cbn [fhSector set_fhSector] in Hrun.
    destruct (Z.eqb_spec s INVALID_SECTOR) as [?|_]; [contradiction|].
    apply bind_Ret in Hrun as (file1 & _ & Hrun).
    cbn [find_loop] in Hrun. injection Hrun as <-.
    cbn [exist fhSector pFhSector set_exist set_fhSector set_pFhSector].
    split; [reflexivity|]. split; [congruence|].
    destruct first; congruence.
  - inversion Hwalk as [|? ? ? s0 file1 ? ? ? Hl0 Hs0 Ho0 Hw0]; subst.
    change ((c0 :: mid) ++ [c]) with (c0 :: (mid ++ [c])) in Hrun.
    cbn [find_loop] in Hrun.
    unfold dir_lookup in Hl0.
    apply bind_Ret in Hl0 as (table & Htable & Hfind).
    rewrite Htable in Hrun. cbn [mbind outcome_bind] in Hrun.
    assert (Hm : match mid ++ [c] with [] => dir | _ => DIR end = DIR)
      by (destruct mid; reflexivity).
    rewrite Hm in Hrun. inversion Hfind as [Hfs]. rewrite Hfs in Hrun.
    cbn [fhSector set_fhSector] in Hrun.
    destruct (Z.eqb_spec s0 INVALID_SECTOR) as [?|_]; [contradiction|].
    rewrite Ho0 in Hrun. cbn [mbind outcome_bind] in Hrun.
    exact (IH false
             (set_fhSector
                (set_pFhSector f
                   (if first then DirectorySector else fhSector f)) s0)
             file1 s0 parent psec c s f' eq_refl Hw0 Hlook Hs Hrun).
Qed.

Lemma find_loop_not_found {mem : Memory}
    (fuel : nat) (d : SynchDisk) (dir : bool) :
  forall comps first f file f',
    find_loop fuel d dir comps first f file = Ret f' ->
    comps <> [] -> exist f = false -> exist f' = false ->
    fhSector f' = INVALID_SECTOR.
Proof.
  induction comps as [|c rest IH]; intros first f file f' Hrun Hne Hf Hf';
    [congruence|].
  cbn [find_loop] in Hrun.
  apply bind_Ret in Hrun as (pDir & _ & Hrun).
  cbn [fhSector set_fhSector] in Hrun.
  destruct (Z.eqb_spec
              (Directory.Find pDir c match rest with [] => dir | _ => DIR end)
              INVALID_SECTOR) as [E|_].
  - injection Hrun as <-. exact E.
  - apply bind_Ret in Hrun as (file1 & _ & Hrun).
    destruct rest as [|c' rest].
    + cbn [find_loop] in Hrun. injection Hrun as <-. discriminate Hf'.
    + apply (IH _ _ _ _ Hrun); [discriminate | exact Hf | exact Hf'].
Qed.

(** X23.  [find] is the walk along the names of the path.  For a path
    with a slash, when [find] returns: it says [exist] exactly when the
    path names an object of the type asked for, every directory on the
    way being found as a directory; the sector it gives is then the
    sector of that object, and no path names two sectors.  When it says
    "not found" the sector it gives is the invalid one. *)
Theorem find_agrees_with_walk {mem : Memory}
    (fuel : nat) (d : SynchDisk) (root : OpenFile)
    (nm : string) (dir : bool) (f' : FileFinder) :
  (2 <= length (fst (splitPath nm)))%nat ->
  find fuel d FileFinder_new nm dir root = Ret f' ->
  (exist f' = true -> resolves fuel d root nm dir (fhSector f'))
  /\ (forall s, resolves fuel d root nm dir s ->
                exist f' = true /\ fhSector f' = s)
  /\ (exist f' = false ->
      fhSector f' = INVALID_SECTOR
      /\ forall s, ~ resolves fuel d root nm dir s).
Proof.
  intros Hlen Hrun.
  assert (Hcomplete : forall s, resolves fuel d root nm dir s ->
                                exist f' = true /\ fhSector f' = s).
  { intros s [Hflag Hres]. unfold find in Hrun.
    destruct (splitPath nm) as [path exceed] eqn:Hsplit. simpl in Hflag, Hres.
    subst exceed.
    destruct Hres as [(Hroot & -> & ->)|(Hne & x & mid & c & parent & psec
                                          & Hpath & Hwalk & Hlook & Hs)].
    - rewrite Hroot in Hrun. cbn [String.eqb Ascii.eqb] in Hrun.
      change (("/" =? "/")%string) with true in Hrun.
      cbn [ASSERT mbind outcome_bind DIR] in Hrun.
      injection Hrun as <-. split; reflexivity.
    - destruct (String.eqb_spec (c_str nm) "/") as [?|_]; [contradiction|].
      subst path. cbn [tail] in Hrun.
      destruct (find_loop_walk_inv fuel d dir mid true _ root DirectorySector
                  parent psec c s f' eq_refl Hwalk Hlook Hs Hrun)
        as (He & Hsec & _).
      split; assumption. }
  split; [|split; [exact Hcomplete|]].
  - intros He. apply (find_sound fuel d FileFinder_new f' nm dir root Hrun);
      [reflexivity | exact He | exact Hlen].
  - intros He. split.
    + unfold find in Hrun.
      destruct (splitPath nm) as [path exceed] eqn:Hsplit. simpl in Hlen.
      destruct exceed; [injection Hrun as <-; reflexivity|].
      destruct (String.eqb_spec (c_str nm) "/") as [Hroot|_].
      * apply bind_Ret in Hrun as (u & _ & Hrun). injection Hrun as <-.
        discriminate He.
      * apply (find_loop_not_found _ _ _ _ _ _ _ _ Hrun);
          [|reflexivity | exact He].
        destruct path as [|x [|y path]]; simpl in Hlen; try lia. discriminate.
    + intros s Hres. destruct (Hcomplete s Hres) as [He' _]. congruence.
Qed.

Lemma find_agrees_with_walk_witness :
  let fs := fst (state_of one_file) in
  let d := snd (state_of one_file) in
  (2 <= length (fst (splitPath "/a")))%nat
  /\ find 10 d FileFinder_new "/a" FILE (directoryFile fs)
     = Ret {| exist := true; pFhSector := 1; fhSector := 13; filename := "a" |}
  /\ resolves 10 d (directoryFile fs) "/a" FILE 13.
Proof.
  intros fs d.
  assert (H1 : (2 <= length (fst (splitPath "/a")))%nat) by (vm_compute; lia).
  assert (H2 : find 10 d FileFinder_new "/a" FILE (directoryFile fs)
               = Ret {| exist := true; pFhSector := 1; fhSector := 13;
                        filename := "a" |})
    by (vm_compute; reflexivity).
  split; [exact H1|]. split; [exact H2|].
  exact (proj1 (find_agrees_with_walk 10 d (directoryFile fs) "/a" FILE _
                  H1 H2) eq_refl).
Defined.

(** ** Operations that fail *)

Lemma Remove_file_false_inv {mem : Memory}
    (fuel : nat) (fs : FileSystem) (nm : string)
    (d d' : SynchDisk) :
  Remove_file fuel fs nm d = Ret (false, d') -> d' = d.
Proof.
  unfold Remove_file. intros Hrun.
  apply bind_Ret in Hrun as (f & _ & Hrun).
  destruct (negb (exist f)); [injection Hrun as <-; reflexivity|].
  apply bind_Ret in Hrun as (freeMap & _ & Hrun).
  apply bind_Ret in Hrun as (freeMap1 & _ & Hrun).
  apply bind_Ret in Hrun as (openPfh & _ & Hrun).
  apply bind_Ret in Hrun as (pDir & _ & Hrun).
  destruct (Directory.Remove pDir (filename f) FILE) as [ok pDir1].
  apply bind_Ret in Hrun as (u & _ & Hrun).
  apply bind_Ret in Hrun as (d1 & _ & Hrun).
  apply bind_Ret in Hrun as (d2 & _ & Hrun).
  discriminate Hrun.
Qed.

(** X24.  An operation that answers [FALSE] has written nothing:
    [Create], [Mkdir] and [Remove], recursive or not, give back the very
    disk they were given, history of writes included.  What they changed
    in memory before giving up is dropped. *)
Theorem failed_operation_writes_nothing {mem : Memory}
    (fuel : nat) (fs : FileSystem)
    (op : Op) (d d' : SynchDisk) :
  run_op fuel fs op d = Ret (false, d') -> d' = d.
Proof.
  destruct op as [nm|nm initialSize|nm recursive]; cbn [run_op].
  - unfold Mkdir. intros Hrun.
    apply createFileOrDir_false_inv in Hrun as [-> _]. reflexivity.
  - unfold Create. intros Hrun.
    apply createFileOrDir_false_inv in Hrun as [-> _]. reflexivity.
  - unfold Remove. destruct recursive.
    + unfold recursivelyRemove. intros Hrun.
      apply bind_Ret in Hrun as (f & _ & Hrun).
      destruct (negb (exist f));
        [apply Remove_file_false_inv in Hrun; exact Hrun|].
      apply bind_Ret in Hrun as (freeMap & _ & Hrun).
      apply bind_Ret in Hrun as (openfh & _ & Hrun).
      apply bind_Ret in Hrun as (dir & _ & Hrun).
      apply bind_Ret in Hrun as ([[ok dir1] freeMap1] & _ & Hrun).
      apply bind_Ret in Hrun as (u & _ & Hrun).
      apply bind_Ret in Hrun as (d1 & _ & Hrun).
      apply bind_Ret in Hrun as (d2 & _ & Hrun).
      discriminate Hrun.
    + apply Remove_file_false_inv.
Qed.

Lemma failed_operation_writes_nothing_witness :
  run_op 10 (fst formatted) (OpCreate "notes" 100) (snd formatted)
  = Ret (false, snd formatted).
Proof.
  assert (Hrun : run_op 10 (fst formatted) (OpCreate "notes" 100) (snd formatted)
                 = Ret (false,
                        disk_after (run_op 10 (fst formatted)
                                      (OpCreate "notes" 100) (snd formatted))))
    by (vm_compute; reflexivity).
  rewrite Hrun at 1.
  rewrite (failed_operation_writes_nothing 10 (fst formatted)
             (OpCreate "notes" 100) (snd formatted) _ Hrun).
  reflexivity.
Defined.


